(** * Signaling server of the Kurento player2many demo

    A shallow embedding of [player2many/server.js] (module [Player2Many])
    and of the second, callback-style copy of the server that the repository
    carries (module [Plain]), followed by the properties of the signaling
    session manager.

    Node runs the server on one thread.  An [async] handler runs until its
    next [await], is parked there, and is resumed when the awaited promise
    settles.  The embedding therefore cuts every handler at its [await]s:
    a parked handler is a [Task] that remembers the program point and the
    live local variables, and the environment decides, event by event, which
    message arrives next and which pending backend request settles, and
    how.  Everything the server does that is visible from outside (requests
    to the media server, messages to sockets, console records, allocations
    of [Session] objects) is reported in the output of each step.

    The environment is not constrained: any message may arrive from any
    socket at any time, and any pending request may settle at any time,
    with any outcome.  Where a handler awaits another handler
    ([handleSdpOffer] awaiting [handleIceCandidate]), the two resumptions
    that follow the settlement are taken in one step: no message can
    arrive between them, and the inner one changes nothing but the
    console. *)

From Stdlib Require Import List Arith Lia Bool.
From stdpp Require Import gmap strings list fin_maps.
Import ListNotations.
Open Scope string_scope.
Open Scope list_scope.

(** ** Data model *)

(** Objects living in the media server (pipelines, endpoints) are known to
    the application through opaque handles. *)
Definition Handle := nat.

(** An ICE candidate as it travels in [CLIENT_ICE_CANDIDATE]. *)
Record IceCandidate := mkIce {
  candidate : string;
  sdpMid : string;
  sdpMLineIndex : nat;
}.

(** [class Session]: [socket] and the two fields of [consumerData]. *)
Record Session := mkSession {
  socket : string;
  webrtcEndpoint : option Handle;
  pendingCandidates : list IceCandidate;
}.

(** [new Session(socket)] *)
Definition new_Session (sock : string) : Session :=
  mkSession sock None [].

(** The [global] object, together with the listeners that the handlers hang
    on backend objects with [.on(...)]. *)
Inductive Listener :=
| OnPlayerError
| OnWebRtcError
| OnIceCandidateFound (sock : string).

Record Store := mkStore {
  server_socket : option string;          (* global.server.socket *)
  kurento_client : bool;                  (* global.kurento.client !== null *)
  kurento_pipeline : option Handle;       (* global.kurento.pipeline *)
  kurento_playerEndpoint : option Handle; (* global.kurento.playerEndpoint *)
  sessions : gmap string Session;         (* global.sessions *)
  listeners : list (Handle * Listener);
}.

Definition set_server_socket (v : option string) (st : Store) : Store :=
  mkStore v (kurento_client st) (kurento_pipeline st)
    (kurento_playerEndpoint st) (sessions st) (listeners st).
Definition set_client (v : bool) (st : Store) : Store :=
  mkStore (server_socket st) v (kurento_pipeline st)
    (kurento_playerEndpoint st) (sessions st) (listeners st).
Definition set_pipeline (v : option Handle) (st : Store) : Store :=
  mkStore (server_socket st) (kurento_client st) v
    (kurento_playerEndpoint st) (sessions st) (listeners st).
Definition set_playerEndpoint (v : option Handle) (st : Store) : Store :=
  mkStore (server_socket st) (kurento_client st) (kurento_pipeline st)
    v (sessions st) (listeners st).
Definition set_sessions (v : gmap string Session) (st : Store) : Store :=
  mkStore (server_socket st) (kurento_client st) (kurento_pipeline st)
    (kurento_playerEndpoint st) v (listeners st).
Definition add_listener (h : Handle) (l : Listener) (st : Store) : Store :=
  mkStore (server_socket st) (kurento_client st) (kurento_pipeline st)
    (kurento_playerEndpoint st) (sessions st) (listeners st ++ [(h, l)]).

(** Mutation of the [Session] object registered under [sid].  The handlers
    hold the object itself; as no code path deletes or replaces a registry
    entry, the object a handler holds is always the registered one. *)
Definition set_webrtcEndpoint (sid : string) (ep : Handle) (st : Store)
    : Store :=
  set_sessions
    (alter (fun s => mkSession (socket s) (Some ep) (pendingCandidates s))
       sid (sessions st)) st.
Definition set_pendingCandidates (sid : string) (q : list IceCandidate)
    (st : Store) : Store :=
  set_sessions
    (alter (fun s => mkSession (socket s) (webrtcEndpoint s) q)
       sid (sessions st)) st.

Definition endpoint_of (st : Store) (sid : string) : option Handle :=
  match sessions st !! sid with
  | Some s => webrtcEndpoint s
  | None => None
  end.
Definition queue_of (st : Store) (sid : string) : list IceCandidate :=
  match sessions st !! sid with
  | Some s => pendingCandidates s
  | None => []
  end.

(** ** Interface with the outside *)

Inductive ClientMsg :=
| CLIENT_START_PUBLISH
| CLIENT_SDP_OFFER (sdpOffer : string)
| CLIENT_ICE_CANDIDATE (c : IceCandidate)
| CLIENT_DEBUG_DOT.

Inductive ServerMsg :=
| SERVER_SDP_ANSWER (sdpAnswer : string)
| SERVER_ICE_CANDIDATE (c : IceCandidate)
| SERVER_SDP_ANSWER_undefined.      (* the same message, sent with undefined *)

(** Requests sent to the media server, and [Fs.writeFile]; the data
    handed to [Fs.writeFile] is a text, or undefined ([None]). *)
Inductive Call :=
| CreatePipeline
| CreatePlayerEndpoint (pipeline : Handle)
| Play (player : Handle)
| CreateWebRtcEndpoint (pipeline : Handle)
| Connect (player ep : Handle)
| ProcessOffer (ep : Handle) (sdpOffer : string)
| GatherCandidates (ep : Handle)
| AddIceCandidate (ep : Handle) (c : IceCandidate)
| GetGstreamerDot (pipeline : Handle)
| GetElementGstreamerDot (player : Handle)
| WriteFile (name : string) (data : option string).

Inductive Level := Info | Warn | Error.

Inductive Effect :=
| ECall (c : Call)
| EEmit (sock : string) (m : ServerMsg)
| ELog (lvl : Level) (text : string)
| ENew (sid : string)                 (* new Session(socket) *)
| EUncaught                           (* a handler's promise rejected *)
| EExit (code : nat).                 (* process.exit(code) *)

(** How an awaited promise settles.  [VUnit] is undefined.

    How the failure of a request shows is the affair of the library:
    [create] and the methods that [server.js] wraps with
    [Util.promisify] ([connect], [processOffer], [gatherCandidates],
    [addIceCandidate]) reject; the methods used as they come ([play],
    [getGstreamerDot], [getElementGstreamerDot], and all but [create] in
    the callback-style copy) resolve with undefined.  The environment is
    free to settle a promise either way; a handler tells what it then
    does.

    Where a handler hands the value to [Fs.writeFile] and the value is
    undefined, the runtime has a say: Node before version 14 writes the
    text of the value, later versions throw a TypeError.  [Resolved VUnit]
    is the first case, [Refused] the second: the promise resolves with
    undefined and the runtime refuses undefined as data. *)
Inductive Value := VUnit | VHandle (h : Handle) | VText (s : string).
Inductive Settled :=
| Resolved (v : Value)
| Rejected (err : string)
| Refused.

Definition text_of (v : Value) : option string :=
  match v with VText s => Some s | _ => None end.

Inductive ElementEvent := IceCandidateFound (c : IceCandidate) | ErrorEvent.

(** What the environment can do: the callback given to [new KurentoClient]
    fires, a socket connects or closes, a message arrives on a socket, the
    promise awaited by task [tid] settles, a backend object raises an
    event. *)
Inductive Event :=
| KurentoConnected (err : bool)
| SocketConnect (sid : string)
| SocketDisconnect (sid : string)
| Message (sid : string) (m : ClientMsg)
| Settle (tid : nat) (r : Settled)
| Backend (h : Handle) (ev : ElementEvent).

(** [KurentoClient.getComplexType("IceCandidate")(candidate)] wraps the
    record received from the browser; the wrapped value carries the same
    three fields, and for a record that has the three fields the
    constructor does not throw. *)
Definition kmsCandidate (c : IceCandidate) : IceCandidate := c.

(** ** The event loop *)

(** Where a handler stands when it gives control back. *)
Inductive Outcome (Task : Type) :=
| Done                        (* returned *)
| Await (k : Task)            (* parked at an await *)
| Throw.                      (* left by an exception nobody caught *)
Arguments Done {Task}.
Arguments Await {Task} k.
Arguments Throw {Task}.

(** One uninterrupted run of a handler: the store it leaves, what it did,
    the callbacks and unawaited promises it left behind, and where it
    stands. *)
Record Seg (Task : Type) := mkSeg {
  seg_store : Store;
  seg_out : list Effect;
  seg_spawn : list Task;
  seg_outcome : Outcome Task;
}.
Arguments mkSeg {Task}.
Arguments seg_store {Task}.
Arguments seg_out {Task}.
Arguments seg_spawn {Task}.
Arguments seg_outcome {Task}.

Record State (Task : Type) := mkState {
  store : Store;
  tasks : gmap nat Task;
  next : nat;
  alive : bool;
}.
Arguments mkState {Task}.
Arguments store {Task}.
Arguments tasks {Task}.
Arguments next {Task}.
Arguments alive {Task}.

Definition fire_listener (ev : ElementEvent) (l : Listener) : list Effect :=
  match l, ev with
  | OnPlayerError, ErrorEvent => [ELog Error "PlayerEndpoint ERROR:"]
  | OnWebRtcError, ErrorEvent => [ELog Error "WebRtcEndpoint ERROR:"]
  | OnIceCandidateFound sock, IceCandidateFound c =>
      [EEmit sock (SERVER_ICE_CANDIDATE (kmsCandidate c))]
  | _, _ => []
  end.

Fixpoint fire (h : Handle) (ev : ElementEvent) (ls : list (Handle * Listener))
    : list Effect :=
  match ls with
  | [] => []
  | (h', l) :: ls' =>
      (if Nat.eqb h h' then fire_listener ev l else []) ++ fire h ev ls'
  end.

Section Machine.
Context {Task : Type}.
(** What the handler registered for a message does up to its first await. *)
Variable dispatch : string -> ClientMsg -> Store -> Seg Task.
(** What a parked handler does, once the promise it waits for settles, up
    to its next await; [None] when the value is not one the awaited
    request can produce. *)
Variable resume : Task -> Settled -> Store -> option (Seg Task).

Fixpoint spawn (ts : list Task) (m : gmap nat Task) (n : nat)
    : gmap nat Task * nat :=
  match ts with
  | [] => (m, n)
  | t :: ts' => spawn ts' (<[n := t]> m) (S n)
  end.

Definition uncaught (o : Outcome Task) : list Effect :=
  match o with
  | Throw => [EUncaught]
  | _ => []
  end.

Definition park (tid : nat) (o : Outcome Task) (m : gmap nat Task)
    : gmap nat Task :=
  match o with
  | Await k => <[tid := k]> m
  | _ => delete tid m
  end.

Definition install (tid : nat) (sg : Seg Task) (m : gmap nat Task)
    (n : nat) : State Task * list Effect :=
  let '(m', n') := spawn (seg_spawn sg) (park tid (seg_outcome sg) m) n in
  (mkState (seg_store sg) m' n' true,
   seg_out sg ++ uncaught (seg_outcome sg)).

Definition step_with (s : State Task) (e : Event)
    : option (State Task * list Effect) :=
  if negb (alive s) then None else
  match e with
  | KurentoConnected true =>
      Some (mkState (store s) (tasks s) (next s) false,
            [ELog Error "Exit: Kurento Media Server not listening";
             EExit 1])
  | KurentoConnected false =>
      Some (mkState (set_client true (store s)) (tasks s) (next s) true,
            [ELog Info "Kurento client connected"])
  | SocketConnect sid =>
      Some (mkState (set_server_socket (Some sid) (store s))
              (tasks s) (next s) true,
            [ELog Info "WebSocket server connected, port: %s"])
  | SocketDisconnect sid =>
      (* no listener is registered for the socket's disconnect event *)
      Some (s, [])
  | Message sid m =>
      Some (install (next s) (dispatch sid m (store s))
              (tasks s) (S (next s)))
  | Settle tid r =>
      match tasks s !! tid with
      | None => None
      | Some t =>
          match resume t r (store s) with
          | None => None
          | Some sg => Some (install tid sg (tasks s) (next s))
          end
      end
  | Backend h ev =>
      Some (s, fire h ev (listeners (store s)))
  end.

(** The shapes a step can take. *)
Inductive StepView (s : State Task)
    : Event -> State Task -> list Effect -> Prop :=
| view_exit :
    StepView s (KurentoConnected true)
      (mkState (store s) (tasks s) (next s) false)
      [ELog Error "Exit: Kurento Media Server not listening"; EExit 1]
| view_ready :
    StepView s (KurentoConnected false)
      (mkState (set_client true (store s)) (tasks s) (next s) true)
      [ELog Info "Kurento client connected"]
| view_connect sid :
    StepView s (SocketConnect sid)
      (mkState (set_server_socket (Some sid) (store s))
         (tasks s) (next s) true)
      [ELog Info "WebSocket server connected, port: %s"]
| view_disconnect sid :
    StepView s (SocketDisconnect sid) s []
| view_message sid m :
    StepView s (Message sid m)
      (install (next s) (dispatch sid m (store s)) (tasks s) (S (next s))).1
      (install (next s) (dispatch sid m (store s)) (tasks s) (S (next s))).2
| view_settle tid r t sg :
    tasks s !! tid = Some t ->
    resume t r (store s) = Some sg ->
    StepView s (Settle tid r)
      (install tid sg (tasks s) (next s)).1
      (install tid sg (tasks s) (next s)).2
| view_backend h ev :
    StepView s (Backend h ev) s (fire h ev (listeners (store s))).

Fixpoint run_with (s : State Task) (evs : list Event)
    : option (State Task * list Effect) :=
  match evs with
  | [] => Some (s, [])
  | e :: evs' =>
      match step_with s e with
      | None => None
      | Some (s', out) =>
          match run_with s' evs' with
          | None => None
          | Some (s'', out') => Some (s'', out ++ out')
          end
      end
  end.
End Machine.

(** Task identifiers not yet handed out are not in use. *)
Definition fresh {Task : Type} (s : State Task) : Prop :=
  forall k, next s <= k -> tasks s !! k = None.

Definition init_store : Store := mkStore None false None None ∅ [].
Definition init {Task : Type} : State Task := mkState init_store ∅ 0 true.

(** ** player2many/server.js *)

Module Player2Many.

(** The awaits of the four handlers.  A constructor names the handler and
    the request it waits for, and carries the locals still in use. *)
Inductive Task :=
(* handleStartPublish *)
| StartPublish_create
| StartPublish_createPlayer
| StartPublish_play
(* handleSdpOffer *)
| SdpOffer_createEndpoint (sid sdpOffer : string)
| SdpOffer_connect (sid sdpOffer : string) (ep : Handle)
| SdpOffer_processOffer (sid : string) (ep : Handle)
| SdpOffer_gatherCandidates (sid : string) (ep : Handle) (sdpAnswer : string)
| SdpOffer_drain (sid sdpAnswer : string) (adding : bool)
(* handleIceCandidate *)
| IceCandidate_add
(* handleDebugDot *)
| DebugDot_pipeline
| DebugDot_player
| DebugDot_written (name : string).

Definition ret (st : Store) (out : list Effect) : Seg Task :=
  mkSeg st out [] Done.
Definition await (st : Store) (out : list Effect) (k : Task) : Seg Task :=
  mkSeg st out [] (Await k).

Definition promise_error : Effect := ELog Error "Promise ERROR:".

(** [handleStartPublish], lines 155-192. *)
Definition handleStartPublish (st : Store) : Seg Task :=
  if kurento_client st then
    await st [ECall CreatePipeline] StartPublish_create
  else
    (* client is null: the TypeError is raised inside the try *)
    ret st [promise_error].

(** [handleIceCandidate], lines 271-292, up to its await.  The boolean
    tells whether it stopped at [await ...addIceCandidate(kmsCandidate)]. *)
Definition handleIceCandidate (sid : string) (c : IceCandidate) (st : Store)
    : Store * list Effect * bool :=
  match sessions st !! sid with
  | None =>
      (st, [ELog Warn "Skip adding candidate, session doesn't exist:"], false)
  | Some session =>
      match webrtcEndpoint session with
      | Some ep => (st, [ECall (AddIceCandidate ep (kmsCandidate c))], true)
      | None =>
          (set_pendingCandidates sid (pendingCandidates session ++ [c]) st,
           [], false)
      end
  end.

(** What [handleIceCandidate] does when [addIceCandidate] has settled. *)
Definition addIceCandidate_settled (r : Settled) : list Effect :=
  match r with
  | Rejected _ => [ELog Error "Promise ERROR: {}, candidate: {}"]
  | _ => []
  end.

(** [handleSdpOffer], lines 259-266: one turn of the loop that empties
    [pendingCandidates], or the final [socket.emit]. *)
Definition drain (sid sdpAnswer : string) (st : Store)
    : option (Seg Task) :=
  match sessions st !! sid with
  | None => None
  | Some session =>
      match pendingCandidates session with
      | [] => Some (ret st [EEmit sid (SERVER_SDP_ANSWER sdpAnswer)])
      | c :: rest =>
          let '(st', out, adding) :=
            handleIceCandidate sid c (set_pendingCandidates sid rest st) in
          Some (await st' out (SdpOffer_drain sid sdpAnswer adding))
      end
  end.

(** [handleSdpOffer], lines 196-216. *)
Definition handleSdpOffer (sid sdpOffer : string) (st : Store) : Seg Task :=
  let pipeline := kurento_pipeline st in
  match sessions st !! sid with
  | Some _ => ret st [ELog Warn "Skip adding session, already exists:"]
  | None =>
      let st := set_sessions (<[sid := new_Session sid]> (sessions st)) st in
      match pipeline with
      | Some p =>
          await st [ENew sid; ECall (CreateWebRtcEndpoint p)]
            (SdpOffer_createEndpoint sid sdpOffer)
      | None =>
          (* pipeline is null: the TypeError is raised inside the try *)
          ret st [ENew sid; promise_error]
      end
  end.

(** [handleDebugDot], lines 296-302. *)
Definition handleDebugDot (st : Store) : Seg Task :=
  match kurento_pipeline st with
  | Some p => await st [ECall (GetGstreamerDot p)] DebugDot_pipeline
  | None => ret st [promise_error]
  end.

(** The handlers registered in [socketServer.on("connect", ...)]. *)
Definition dispatch (sid : string) (m : ClientMsg) (st : Store) : Seg Task :=
  match m with
  | CLIENT_START_PUBLISH => handleStartPublish st
  | CLIENT_SDP_OFFER sdpOffer => handleSdpOffer sid sdpOffer st
  | CLIENT_ICE_CANDIDATE c =>
      let '(st', out, adding) := handleIceCandidate sid c st in
      if adding then await st' out IceCandidate_add else ret st' out
  | CLIENT_DEBUG_DOT => handleDebugDot st
  end.

(** The code after each await. *)
Definition resume (t : Task) (r : Settled) (st : Store)
    : option (Seg Task) :=
  match t, r with
  (* handleStartPublish, lines 160-192 *)
  | StartPublish_create, Resolved (VHandle pipeline) =>
      Some (await (set_pipeline (Some pipeline) st)
              [ELog Info "Kurento pipeline created";
               ECall (CreatePlayerEndpoint pipeline)]
              StartPublish_createPlayer)
  | StartPublish_createPlayer, Resolved (VHandle playerEndpoint) =>
      Some (await (add_listener playerEndpoint OnPlayerError
                     (set_playerEndpoint (Some playerEndpoint) st))
              [ELog Info "Kurento PlayerEndpoint created";
               ECall (Play playerEndpoint)]
              StartPublish_play)
  | StartPublish_play, Resolved _ => Some (ret st [])
  | StartPublish_create, Rejected _
  | StartPublish_createPlayer, Rejected _
  | StartPublish_play, Rejected _ => Some (ret st [promise_error])
  (* handleSdpOffer, lines 212-257 *)
  | SdpOffer_createEndpoint sid sdpOffer, Resolved (VHandle ep) =>
      let st :=
        add_listener ep (OnIceCandidateFound sid)
          (add_listener ep OnWebRtcError (set_webrtcEndpoint sid ep st)) in
      match kurento_playerEndpoint st with
      | None =>
          Some (ret st [ELog Error "ERROR: Publisher endpoint doesn't exist"])
      | Some playerEndpoint =>
          Some (await st [ECall (Connect playerEndpoint ep)]
                  (SdpOffer_connect sid sdpOffer ep))
      end
  | SdpOffer_connect sid sdpOffer ep, Resolved _ =>
      Some (await st [ELog Info "SDP Offer from App to KMS:\n%s";
                      ECall (ProcessOffer ep sdpOffer)]
              (SdpOffer_processOffer sid ep))
  | SdpOffer_processOffer sid ep, Resolved (VText sdpAnswer) =>
      Some (await st [ELog Info "SDP Answer from KMS to App:\n%s";
                      ECall (GatherCandidates ep)]
              (SdpOffer_gatherCandidates sid ep sdpAnswer))
  | SdpOffer_gatherCandidates sid ep sdpAnswer, Resolved _ =>
      drain sid sdpAnswer st
  | SdpOffer_createEndpoint _ _, Rejected _
  | SdpOffer_connect _ _ _, Rejected _
  | SdpOffer_processOffer _ _, Rejected _
  | SdpOffer_gatherCandidates _ _ _, Rejected _ =>
      Some (ret st [promise_error])
  (* handleSdpOffer, line 263, with handleIceCandidate, lines 284-288 *)
  | SdpOffer_drain sid sdpAnswer true, Resolved _
  | SdpOffer_drain sid sdpAnswer true, Rejected _ =>
      match drain sid sdpAnswer st with
      | Some sg =>
          Some (mkSeg (seg_store sg) (addIceCandidate_settled r ++ seg_out sg)
                  (seg_spawn sg) (seg_outcome sg))
      | None => None
      end
  | SdpOffer_drain sid sdpAnswer false, Resolved VUnit =>
      drain sid sdpAnswer st
  (* handleIceCandidate, lines 284-288 *)
  | IceCandidate_add, Resolved _
  | IceCandidate_add, Rejected _ => Some (ret st (addIceCandidate_settled r))
  (* handleDebugDot, lines 299-321; [Fs.writeFile] is called outside the
     [try] *)
  | DebugDot_pipeline, Resolved (VText _ as pipelineDot)
  | DebugDot_pipeline, Resolved (VUnit as pipelineDot) =>
      let out := [ECall (WriteFile "pipeline.dot" (text_of pipelineDot))] in
      let cb := [DebugDot_written "pipeline.dot"] in
      match kurento_playerEndpoint st with
      | Some playerEndpoint =>
          Some (mkSeg st
                  (out ++ [ECall (GetElementGstreamerDot playerEndpoint)])
                  cb (Await DebugDot_player))
      | None => Some (mkSeg st (out ++ [promise_error]) cb Done)
      end
  | DebugDot_pipeline, Refused =>
      Some (mkSeg st [ECall (WriteFile "pipeline.dot" None)] [] Throw)
  | DebugDot_player, Resolved (VText _ as playerDot)
  | DebugDot_player, Resolved (VUnit as playerDot) =>
      Some (mkSeg st
              [ECall (WriteFile "playerEndpoint.dot" (text_of playerDot))]
              [DebugDot_written "playerEndpoint.dot"] Done)
  | DebugDot_player, Refused =>
      Some (mkSeg st [ECall (WriteFile "playerEndpoint.dot" None)] [] Throw)
  | DebugDot_pipeline, Rejected _
  | DebugDot_player, Rejected _ => Some (ret st [promise_error])
  | DebugDot_written name, Resolved _ =>
      Some (ret st [ELog Info ("Saved DOT file: " +:+ name)])
  | DebugDot_written name, Rejected _ => Some (ret st [ELog Error "ERROR:"])
  | _, _ => None
  end.

Abbreviation step := (step_with dispatch resume).
Abbreviation run := (run_with dispatch resume).

End Player2Many.

(** ** The callback-style copy of the server

    Same [global], same messages; handlers are passed to [socket.on] as
    they are, nothing is wrapped in [try], and several requests are sent
    without awaiting them. *)

Module Plain.

Inductive Task :=
(* handleStartPublish *)
| StartPublish_create
| StartPublish_createPlayer
(* handleSdpOffer *)
| SdpOffer_createEndpoint (sid sdpOffer : string)
| SdpOffer_processOffer (sid : string) (ep : Handle)
| SdpOffer_connect
| SdpOffer_gathered                 (* callback of gatherCandidates *)
(* handleDebugDot *)
| DebugDot_pipeline
| DebugDot_player
| DebugDot_written (name : string)
(* a promise nobody awaits: play(), addIceCandidate() *)
| Unawaited.

Definition ret (st : Store) (out : list Effect) : Seg Task :=
  mkSeg st out [] Done.
Definition await (st : Store) (out : list Effect) (k : Task) : Seg Task :=
  mkSeg st out [] (Await k).
Definition throw (st : Store) (out : list Effect) : Seg Task :=
  mkSeg st out [] Throw.

(** [handleStartPublish], lines 128-147. *)
Definition handleStartPublish (st : Store) : Seg Task :=
  if kurento_client st then
    await st [ECall CreatePipeline] StartPublish_create
  else throw st [].

(** [handleSdpOffer], lines 151-165. *)
Definition handleSdpOffer (sid sdpOffer : string) (st : Store) : Seg Task :=
  match sessions st !! sid with
  | Some _ => ret st [ELog Warn "Skip adding session, already exists:"]
  | None =>
      let st := set_sessions (<[sid := new_Session sid]> (sessions st)) st in
      let out := [ENew sid; ELog Info "SDP Offer from App to KMS:\n%s"] in
      match kurento_pipeline st with
      | Some p =>
          await st (out ++ [ECall (CreateWebRtcEndpoint p)])
            (SdpOffer_createEndpoint sid sdpOffer)
      | None => throw st out
      end
  end.

(** [handleIceCandidate], lines 205-221. *)
Definition handleIceCandidate (sid : string) (c : IceCandidate) (st : Store)
    : Seg Task :=
  match sessions st !! sid with
  | None =>
      ret st [ELog Warn "Skip adding candidate, session doesn't exist:"]
  | Some session =>
      let iceCandidate := kmsCandidate c in
      match webrtcEndpoint session with
      | Some ep =>
          mkSeg st [ECall (AddIceCandidate ep iceCandidate)] [Unawaited] Done
      | None =>
          ret (set_pendingCandidates sid
                 (pendingCandidates session ++ [iceCandidate]) st) []
      end
  end.

(** [handleDebugDot], line 226. *)
Definition handleDebugDot (st : Store) : Seg Task :=
  match kurento_pipeline st with
  | Some p => await st [ECall (GetGstreamerDot p)] DebugDot_pipeline
  | None => throw st []
  end.

Definition dispatch (sid : string) (m : ClientMsg) (st : Store) : Seg Task :=
  match m with
  | CLIENT_START_PUBLISH => handleStartPublish st
  | CLIENT_SDP_OFFER sdpOffer => handleSdpOffer sid sdpOffer st
  | CLIENT_ICE_CANDIDATE c => handleIceCandidate sid c st
  | CLIENT_DEBUG_DOT => handleDebugDot st
  end.

Definition resume (t : Task) (r : Settled) (st : Store)
    : option (Seg Task) :=
  match t, r with
  (* handleStartPublish, lines 131-146 *)
  | StartPublish_create, Resolved (VHandle pipeline) =>
      Some (await (set_pipeline (Some pipeline) st)
              [ELog Info "Kurento pipeline created";
               ECall (CreatePlayerEndpoint pipeline)]
              StartPublish_createPlayer)
  | StartPublish_createPlayer, Resolved (VHandle playerEndpoint) =>
      Some (mkSeg (set_playerEndpoint (Some playerEndpoint) st)
              [ELog Info "Kurento PlayerEndpoint created";
               ECall (Play playerEndpoint)]
              [Unawaited] Done)
  (* handleSdpOffer, lines 165-200 *)
  | SdpOffer_createEndpoint sid sdpOffer, Resolved (VHandle ep) =>
      let queue := queue_of st sid in
      let st :=
        set_pendingCandidates sid []
          (add_listener ep (OnIceCandidateFound sid)
             (set_webrtcEndpoint sid ep st)) in
      Some (mkSeg st
              (map (fun c => ECall (AddIceCandidate ep c)) queue
                 ++ [ECall (ProcessOffer ep sdpOffer)])
              (map (fun _ => Unawaited) queue)
              (Await (SdpOffer_processOffer sid ep)))
  | SdpOffer_processOffer sid ep, Resolved (VText _ as sdpAnswer)
  | SdpOffer_processOffer sid ep, Resolved (VUnit as sdpAnswer) =>
      let out := [ECall (GatherCandidates ep);
                  ELog Info "SDP Answer from KMS to App:\n%s";
                  EEmit sid
                    match sdpAnswer with
                    | VText sdpAnswer => SERVER_SDP_ANSWER sdpAnswer
                    | _ => SERVER_SDP_ANSWER_undefined
                    end] in
      match kurento_playerEndpoint st with
      | None =>
          Some (mkSeg st
                  (out ++ [ELog Error
                             "ERROR: Publisher endpoint doesn't exist"])
                  [SdpOffer_gathered] Done)
      | Some playerEndpoint =>
          Some (mkSeg st (out ++ [ECall (Connect playerEndpoint ep)])
                  [SdpOffer_gathered] (Await SdpOffer_connect))
      end
  | SdpOffer_connect, Resolved _ => Some (ret st [])
  | SdpOffer_gathered, Resolved _ => Some (ret st [])
  | SdpOffer_gathered, Rejected _ => Some (ret st [ELog Error "ERROR:"])
  (* handleDebugDot, lines 226-240 *)
  | DebugDot_pipeline, Resolved (VText _ as pipelineDot)
  | DebugDot_pipeline, Resolved (VUnit as pipelineDot) =>
      let out := [ECall (WriteFile "pipeline.dot" (text_of pipelineDot))] in
      let cb := [DebugDot_written "pipeline.dot"] in
      match kurento_playerEndpoint st with
      | Some playerEndpoint =>
          Some (mkSeg st
                  (out ++ [ECall (GetElementGstreamerDot playerEndpoint)])
                  cb (Await DebugDot_player))
      | None => Some (mkSeg st out cb Throw)
      end
  | DebugDot_pipeline, Refused =>
      Some (mkSeg st [ECall (WriteFile "pipeline.dot" None)] [] Throw)
  | DebugDot_player, Resolved (VText _ as playerDot)
  | DebugDot_player, Resolved (VUnit as playerDot) =>
      Some (mkSeg st
              [ECall (WriteFile "playerEndpoint.dot" (text_of playerDot))]
              [DebugDot_written "playerEndpoint.dot"] Done)
  | DebugDot_player, Refused =>
      Some (mkSeg st [ECall (WriteFile "playerEndpoint.dot" None)] [] Throw)
  | DebugDot_written name, Resolved _ =>
      Some (ret st [ELog Info ("Saved DOT file: " +:+ name)])
  | DebugDot_written name, Rejected _ =>
      Some (ret st [ELog Error "ERROR:";
                    ELog Info ("Saved DOT file: " +:+ name)])
  | Unawaited, Resolved _ => Some (ret st [])
  (* a rejection of an awaited or of an unawaited promise leaves the
     handler, or nothing at all, to deal with it *)
  | StartPublish_create, Rejected _
  | StartPublish_createPlayer, Rejected _
  | SdpOffer_createEndpoint _ _, Rejected _
  | SdpOffer_processOffer _ _, Rejected _
  | SdpOffer_connect, Rejected _
  | DebugDot_pipeline, Rejected _
  | DebugDot_player, Rejected _
  | Unawaited, Rejected _ => Some (throw st [])
  | _, _ => None
  end.

Abbreviation step := (step_with dispatch resume).
Abbreviation run := (run_with dispatch resume).

End Plain.

(** ** Observations *)

(** Requests found in an output, in the order they were sent. *)
Fixpoint calls (out : list Effect) : list Call :=
  match out with
  | [] => []
  | ECall c :: out' => c :: calls out'
  | _ :: out' => calls out'
  end.

(** Messages sent to sockets. *)
Fixpoint emitted (out : list Effect) : list (string * ServerMsg) :=
  match out with
  | [] => []
  | EEmit sock m :: out' => (sock, m) :: emitted out'
  | _ :: out' => emitted out'
  end.

(** The SDP answers sent to [sid]. *)
Fixpoint answers (sid : string) (out : list Effect) : list string :=
  match out with
  | [] => []
  | EEmit sock (SERVER_SDP_ANSWER a) :: out' =>
      if decide (sock = sid) then a :: answers sid out' else answers sid out'
  | _ :: out' => answers sid out'
  end.

(** Candidates handed to the media server. *)
Fixpoint added (out : list Effect) : list IceCandidate :=
  match out with
  | [] => []
  | ECall (AddIceCandidate _ c) :: out' => c :: added out'
  | _ :: out' => added out'
  end.

Fixpoint count_if {A : Type} (p : A -> bool) (l : list A) : nat :=
  match l with
  | [] => 0
  | x :: l' => (if p x then 1 else 0) + count_if p l'
  end.

(** 1 when [sid] is in the registry, 0 when it is not. *)
Definition registrations (st : Store) (sid : string) : nat :=
  match sessions st !! sid with Some _ => 1 | None => 0 end.

Definition is_CreatePipeline (e : Effect) : bool :=
  match e with ECall CreatePipeline => true | _ => false end.
Definition is_New (sid : string) (e : Effect) : bool :=
  match e with ENew sid' => bool_decide (sid' = sid) | _ => false end.
Definition is_error (e : Effect) : bool :=
  match e with ELog Error _ => true | _ => false end.
Definition is_uncaught (e : Effect) : bool :=
  match e with EUncaught => true | _ => false end.

(** Number of [CLIENT_START_PUBLISH] messages that find the Kurento client
    connected; [connected] tells whether it is at the start of [evs]. *)
Fixpoint publish_requests (connected : bool) (evs : list Event) : nat :=
  match evs with
  | [] => 0
  | KurentoConnected false :: evs' => publish_requests true evs'
  | Message _ CLIENT_START_PUBLISH :: evs' =>
      (if connected then 1 else 0) + publish_requests connected evs'
  | _ :: evs' => publish_requests connected evs'
  end.

(** Candidates sent by [sid], in arrival order. *)
Fixpoint ice_from (sid : string) (evs : list Event) : list IceCandidate :=
  match evs with
  | [] => []
  | Message sid' (CLIENT_ICE_CANDIDATE c) :: evs' =>
      if decide (sid' = sid) then c :: ice_from sid evs' else ice_from sid evs'
  | _ :: evs' => ice_from sid evs'
  end.

(** [Merge l1 l2 l]: [l] interleaves [l1] and [l2], keeping the order of
    each. *)
Inductive Merge {A : Type} : list A -> list A -> list A -> Prop :=
| Merge_nil : Merge [] [] []
| Merge_left x l1 l2 l : Merge l1 l2 l -> Merge (x :: l1) l2 (x :: l)
| Merge_right x l1 l2 l : Merge l1 l2 l -> Merge l1 (x :: l2) (x :: l).

(** A backend request that either succeeds with a value or fails. *)
Inductive Reply (A : Type) := Ok (a : A) | Fail (err : string).
Arguments Ok {A} a.
Arguments Fail {A} err.

Definition settle_handle (r : Reply Handle) : Settled :=
  match r with Ok h => Resolved (VHandle h) | Fail e => Rejected e end.
Definition settle_text (r : Reply string) : Settled :=
  match r with Ok s => Resolved (VText s) | Fail e => Rejected e end.
Definition settle_unit (r : Reply unit) : Settled :=
  match r with Ok _ => Resolved VUnit | Fail e => Rejected e end.
Definition failed {A : Type} (r : Reply A) : bool :=
  match r with Ok _ => false | Fail _ => true end.

Module Player2ManyObs.
Import Player2Many.

(** A handler run on its own: every request it awaits settles, as the
    next element of [rs] says, before anything else happens. *)
Fixpoint alone (sg : Seg Task) (rs : list Settled)
    : option (Store * list Effect) :=
  match rs with
  | [] => Some (seg_store sg, seg_out sg)
  | r :: rs' =>
      match seg_outcome sg with
      | Await k =>
          match resume k r (seg_store sg) with
          | None => None
          | Some sg' =>
              match alone sg' rs' with
              | None => None
              | Some (st, out) => Some (st, seg_out sg ++ out)
              end
          end
      | _ => Some (seg_store sg, seg_out sg)
      end
  end.

(** The viewer an offer handler works for. *)
Definition task_sid (t : Task) : option string :=
  match t with
  | SdpOffer_createEndpoint sid _
  | SdpOffer_connect sid _ _
  | SdpOffer_processOffer sid _
  | SdpOffer_gatherCandidates sid _ _
  | SdpOffer_drain sid _ _ => Some sid
  | _ => None
  end.

(** Offer handlers that have already stored their endpoint. *)
Definition past_endpoint (t : Task) : bool :=
  match t with
  | SdpOffer_connect _ _ _
  | SdpOffer_processOffer _ _
  | SdpOffer_gatherCandidates _ _ _
  | SdpOffer_drain _ _ _ => true
  | _ => false
  end.

(** Every parked offer handler works for a registered identity; the
    session has its endpoint exactly when the handler is past the
    creation of the endpoint; and no identity has two offer handlers
    parked. *)
Definition offers_ok (s : State Task) : Prop :=
  (forall tid t sid,
      tasks s !! tid = Some t -> task_sid t = Some sid ->
      is_Some (sessions (store s) !! sid)
      /\ (past_endpoint t = true -> is_Some (endpoint_of (store s) sid))
      /\ (past_endpoint t = false -> endpoint_of (store s) sid = None))
  /\ (forall tid1 tid2 t1 t2 sid,
        tasks s !! tid1 = Some t1 -> tasks s !! tid2 = Some t2 ->
        task_sid t1 = Some sid -> task_sid t2 = Some sid -> tid1 = tid2).

(** A session whose offer handler is gone without having stored an
    endpoint. *)
Definition stalled (s : State Task) (sid : string) : Prop :=
  is_Some (sessions (store s) !! sid)
  /\ endpoint_of (store s) sid = None
  /\ forall tid t, tasks s !! tid = Some t -> task_sid t <> Some sid.

(** The step taken at [s] on [e] is an offer handler of [sid] failing
    after it registered the session and before it stored an endpoint:
    the offer arrives while there is no pipeline, or the creation of the
    endpoint is rejected. *)
Definition offer_fails_early (s : State Task) (e : Event) (sid : string)
    : Prop :=
  (exists sdpOffer,
      e = Message sid (CLIENT_SDP_OFFER sdpOffer)
      /\ sessions (store s) !! sid = None
      /\ kurento_pipeline (store s) = None)
  \/ (exists tid sdpOffer err,
        e = Settle tid (Rejected err)
        /\ tasks s !! tid = Some (SdpOffer_createEndpoint sid sdpOffer)).

(** An answer may still be sent to [sid]: it has not sent an offer yet, or
    its offer handler is parked. *)
Definition answer_due (s : State Task) (sid : string) : Prop :=
  sessions (store s) !! sid = None
  \/ exists tid t, tasks s !! tid = Some t /\ task_sid t = Some sid.

(** A publish handler waits for its player endpoint only after it has
    stored its pipeline. *)
Definition publisher_ok (s : State Task) : Prop :=
  (is_Some (kurento_playerEndpoint (store s)) ->
   is_Some (kurento_pipeline (store s)))
  /\ (forall tid, tasks s !! tid = Some StartPublish_createPlayer ->
                  is_Some (kurento_pipeline (store s))).

(** Whether the step taken at [s] on [e] runs code on behalf of [sid]:
    one of its messages, or the continuation of its offer handler. *)
Definition on_behalf (sid : string) (s : State Task) (e : Event) : bool :=
  match e with
  | Message sid' _ => bool_decide (sid' = sid)
  | Settle tid _ =>
      match tasks s !! tid with
      | Some t => bool_decide (task_sid t = Some sid)
      | None => false
      end
  | _ => false
  end.

(** The candidate of [sid] that arrives with [e], if it is put in the
    queue ([queued_by]) or handed over at once ([direct_by]). *)
Definition queued_by (sid : string) (s : State Task) (e : Event)
    : list IceCandidate :=
  match e with
  | Message sid' (CLIENT_ICE_CANDIDATE c) =>
      if decide (sid' = sid) then
        match sessions (store s) !! sid with
        | Some session =>
            match webrtcEndpoint session with
            | None => [c]
            | Some _ => []
            end
        | None => []
        end
      else []
  | _ => []
  end.
Definition direct_by (sid : string) (s : State Task) (e : Event)
    : list IceCandidate :=
  match e with
  | Message sid' (CLIENT_ICE_CANDIDATE c) =>
      if decide (sid' = sid) then
        match sessions (store s) !! sid with
        | Some session =>
            match webrtcEndpoint session with
            | None => []
            | Some _ => [c]
            end
        | None => []
        end
      else []
  | _ => []
  end.

(** Along the run of [evs] from [s], collect what [f] sees at each step. *)
Fixpoint along {A : Type}
    (f : State Task -> Event -> list Effect -> list A)
    (s : State Task) (evs : list Event) : list A :=
  match evs with
  | [] => []
  | e :: evs' =>
      match step s e with
      | None => []
      | Some (s', out) => f s e out ++ along f s' evs'
      end
  end.

(** For viewer [sid] along a run: its candidates that were queued, those
    that were handed over on arrival, both together, and the candidates
    handed to the media server on its behalf, each in order of time. *)
Definition queued (sid : string) :=
  along (fun s e _ => queued_by sid s e).
Definition direct (sid : string) :=
  along (fun s e _ => direct_by sid s e).
Definition accepted (sid : string) :=
  along (fun s e _ => queued_by sid s e ++ direct_by sid s e).
Definition applied (sid : string) :=
  along (fun s e out => if on_behalf sid s e then added out else []).

(** How the request for a graph ends: the text arrives; or the request
    fails, the promise resolving with undefined, which the runtime then
    accepts as the data of [Fs.writeFile] or refuses; or the promise is
    rejected. *)
Inductive Graph :=
| Text (dot : string)
| Missing (accepted : bool)
| Thrown (err : string).

Definition settle_graph (g : Graph) : Settled :=
  match g with
  | Text dot => Resolved (VText dot)
  | Missing true => Resolved VUnit
  | Missing false => Refused
  | Thrown err => Rejected err
  end.

(** Whether the handler is still there after the request ended so. *)
Definition goes_on (g : Graph) : bool :=
  match g with
  | Text _ | Missing true => true
  | Missing false | Thrown _ => false
  end.

(** Whether [Fs.writeFile] throws on what the request gave. *)
Definition throws (g : Graph) : bool :=
  match g with Missing false => true | _ => false end.

(** Whether the rejection reaches the [catch]. *)
Definition caught (g : Graph) : bool :=
  match g with Thrown _ => true | _ => false end.

(** The call of [Fs.writeFile] that follows. *)
Definition written (name : string) (g : Graph) : list Call :=
  match g with
  | Text dot => [WriteFile name (Some dot)]
  | Missing _ => [WriteFile name None]
  | Thrown _ => []
  end.

(** The debug-dump handler run to its end: the request for the
    pipeline's graph ends as [pipelineDot] says, the write of
    [pipeline.dot] as [w1] says, the request for the endpoint's graph as
    [playerDot] says, the write of [playerEndpoint.dot] as [w2] says.
    [t] is the task of the handler; the two write callbacks are the next
    two tasks. *)
Definition debug_schedule (t : nat) (pipelineDot playerDot : Graph)
    (w1 w2 : Reply unit) : list Event :=
  Settle t (settle_graph pipelineDot)
  :: if goes_on pipelineDot then
       Settle (S t) (settle_unit w1)
       :: Settle t (settle_graph playerDot)
       :: (if goes_on playerDot then [Settle (S (S t)) (settle_unit w2)]
           else [])
     else [].

End Player2ManyObs.

(** ** The specification's statements that the code is checked against *)

Module Stated.
Import Player2Many Player2ManyObs.


(** "Candidates are applied to the remote endpoint in exactly their
    arrival order": at any time, what has been handed to the media
    server for a viewer is an initial part of what arrived from it. *)
Definition candidates_in_arrival_order : Prop :=
  forall evs s out sid,
    run init evs = Some (s, out) ->
    exists later, accepted sid init evs = applied sid init evs ++ later.

(** "The pending queue is empty at every point where the endpoint
    exists." *)
Definition queue_empty_with_endpoint : Prop :=
  forall evs s out sid,
    run init evs = Some (s, out) ->
    is_Some (endpoint_of (store s) sid) -> queue_of (store s) sid = [].

(** "The source endpoint exists if and only if the pipeline exists", at
    every point a handler can observe. *)
Definition publisher_all_or_nothing : Prop :=
  forall evs s out,
    run init evs = Some (s, out) ->
    is_Some (kurento_playerEndpoint (store s))
    <-> is_Some (kurento_pipeline (store s)).

(** "When a viewer's connection closes, its Session is removed from the
    registry." *)
Definition close_removes_session : Prop :=
  forall evs sid s out,
    run init (evs ++ [SocketDisconnect sid]) = Some (s, out) ->
    sessions (store s) !! sid = None.

(** "A failure obtaining or writing one of the two does not prevent the
    attempt to obtain and write the other": with a pipeline and a source
    endpoint in place, a debug dump always asks for the endpoint's
    graph. *)
Definition dumps_independent : Prop :=
  forall s sid pipeline player pipelineDot playerDot w1 w2 s' out,
    alive s = true ->
    kurento_pipeline (store s) = Some pipeline ->
    kurento_playerEndpoint (store s) = Some player ->
    run s (Message sid CLIENT_DEBUG_DOT
           :: debug_schedule (next s) pipelineDot playerDot w1 w2)
    = Some (s', out) ->
    In (GetElementGstreamerDot player) (calls out).

(** The same when nothing has been published: there is no pipeline and
    no source endpoint, each of the two attempts fails, and each failure
    leaves its error record. *)
Definition dump_attempts_both : Prop :=
  forall evs s out sid s' out',
    run init evs = Some (s, out) ->
    kurento_pipeline (store s) = None ->
    step s (Message sid CLIENT_DEBUG_DOT) = Some (s', out') ->
    count_if is_error out' = 2.


End Stated.

(** ** Scenarios *)

Module Scenario.

Definition c1 : IceCandidate := mkIce "candidate:1 1 UDP" "0" 0.
Definition c2 : IceCandidate := mkIce "candidate:2 1 UDP" "0" 0.


(** Publishing starts, then the creation of the player fails. *)
Definition player_fails : list Event :=
  [KurentoConnected false;
   SocketConnect "A";
   Message "A" CLIENT_START_PUBLISH;
   Settle 0 (Resolved (VHandle 10));
   Settle 0 (Rejected "no such media")].

Definition publish : list Event :=
  [KurentoConnected false;
   SocketConnect "A";
   Message "A" CLIENT_START_PUBLISH;
   Settle 0 (Resolved (VHandle 10));
   Settle 0 (Resolved (VHandle 11));
   Settle 0 (Resolved VUnit)].

(** After [publish], viewer X sends its offer; candidate [c1] arrives
    while the endpoint is being created, candidate [c2] while the
    endpoint is being connected to the player. *)
Definition overtaking : list Event :=
  publish ++
  [SocketConnect "X";
   Message "X" (CLIENT_SDP_OFFER "v=0 offer");
   Message "X" (CLIENT_ICE_CANDIDATE c1);
   Settle 1 (Resolved (VHandle 20));
   Message "X" (CLIENT_ICE_CANDIDATE c2)].

(** The same negotiation carried to its end. *)
Definition negotiated : list Event :=
  overtaking ++
  [Settle 3 (Resolved VUnit);
   Settle 1 (Resolved VUnit);
   Settle 1 (Resolved (VText "v=0 answer"));
   Settle 1 (Resolved VUnit);
   Settle 1 (Resolved VUnit)].

(** An offer, then a second one, from the same connection. *)
Definition two_offers : list Event :=
  publish ++
  [SocketConnect "X";
   Message "X" (CLIENT_SDP_OFFER "v=0 offer-1");
   Message "X" (CLIENT_SDP_OFFER "v=0 offer-2")].

(** Viewer X sends an offer before anything is published, then a
    candidate, and its connection closes. *)
Definition early_viewer : list Event :=
  [KurentoConnected false;
   SocketConnect "X";
   Message "X" (CLIENT_SDP_OFFER "v=0 offer");
   Message "X" (CLIENT_ICE_CANDIDATE c1)].

(** After [publish], a debug dump whose first request fails, on a
    runtime that refuses undefined as file data. *)
Definition dump : list Event :=
  Message "A" CLIENT_DEBUG_DOT
  :: Player2ManyObs.debug_schedule 1 (Player2ManyObs.Missing false)
       (Player2ManyObs.Text "digraph {}") (Ok tt) (Ok tt).


(** A state with a session that holds an endpoint and two queued
    candidates. *)
Definition queued_store : Store :=
  mkStore (Some "X") true (Some 10) (Some 11)
    {["X" := mkSession "X" (Some 20) [c1; c2]]} [].

End Scenario.

(** ** Further observations *)

Definition is_CreateWebRtcEndpoint (c : Call) : bool :=
  match c with CreateWebRtcEndpoint _ => true | _ => false end.

Module Player2ManyRequests.
Import Player2Many Player2ManyObs.

(** The requests for a WebRTC endpoint made on behalf of [sid] along a
    run. *)
Definition endpoint_requests (sid : string) :=
  along (fun s e out =>
           if on_behalf sid s e
           then List.filter is_CreateWebRtcEndpoint (calls out) else []).

End Player2ManyRequests.

(** The same observations for the callback-style copy. *)
Module PlainObs.
Import Plain.

Definition task_sid (t : Task) : option string :=
  match t with
  | SdpOffer_createEndpoint sid _
  | SdpOffer_processOffer sid _ => Some sid
  | _ => None
  end.

Definition on_behalf (sid : string) (s : State Task) (e : Event) : bool :=
  match e with
  | Message sid' _ => bool_decide (sid' = sid)
  | Settle tid _ =>
      match tasks s !! tid with
      | Some t => bool_decide (task_sid t = Some sid)
      | None => false
      end
  | _ => false
  end.

(** The candidate of [sid] that arrives with [e], if its session is
    registered. *)
Definition accepted_by (sid : string) (s : State Task) (e : Event)
    : list IceCandidate :=
  match e with
  | Message sid' (CLIENT_ICE_CANDIDATE c) =>
      if decide (sid' = sid) then
        match sessions (store s) !! sid with
        | Some _ => [kmsCandidate c]
        | None => []
        end
      else []
  | _ => []
  end.

Fixpoint along {A : Type}
    (f : State Task -> Event -> list Effect -> list A)
    (s : State Task) (evs : list Event) : list A :=
  match evs with
  | [] => []
  | e :: evs' =>
      match step s e with
      | None => []
      | Some (s', out) => f s e out ++ along f s' evs'
      end
  end.

Definition accepted (sid : string) :=
  along (fun s e _ => accepted_by sid s e).
Definition applied (sid : string) :=
  along (fun s e out => if on_behalf sid s e then added out else []).

(** An offer from a new identity whose two requests succeed. *)
Definition offer_schedule (s : State Task) (sid sdpOffer : string)
    (ep : Handle) (sdpAnswer : string) : list Event :=
  [Message sid (CLIENT_SDP_OFFER sdpOffer);
   Settle (next s) (Resolved (VHandle ep));
   Settle (next s) (Resolved (VText sdpAnswer))].

(** A publisher starts; viewer X sends its offer; candidate [c1] arrives
    while the endpoint is being created, candidate [c2] once it is
    there. *)
Definition viewer : list Event :=
  [KurentoConnected false;
   SocketConnect "A";
   Message "A" CLIENT_START_PUBLISH;
   Settle 0 (Resolved (VHandle 10));
   Settle 0 (Resolved (VHandle 11));
   SocketConnect "X";
   Message "X" (CLIENT_SDP_OFFER "v=0 offer");
   Message "X" (CLIENT_ICE_CANDIDATE Scenario.c1);
   Settle 2 (Resolved (VHandle 20));
   Message "X" (CLIENT_ICE_CANDIDATE Scenario.c2)].

End PlainObs.

(** ** The browser side: forcing a codec

    [startConsumer] (client.js) sends the SDP offer of the browser after
    removing from it, when a codec was asked for, the other codec:
    [sdpRemoveCodec] parses the offer with [SdpTransform.parse], edits the
    parsed object and serialises it again with [SdpTransform.write].  The
    two library functions are taken as they come; the object is modelled
    with the properties the function reads and writes, the remaining
    properties of each object being carried along in a [rest] field.

    Strings are held as their UTF-8 bytes.

    The parser of sdp-transform gives every [m=] section an [rtp] and an
    [fmtp] array, and an [rtcpFb] array only when the section has an
    [a=rtcp-fb] line.  It stores each captured text as a number when the
    text is what that number prints as, and as a string otherwise: the
    payload list of an [m=] line with one payload type is a number; a
    payload type written as [96] is a number and one written as [096]
    is a string. *)

From Stdlib Require Import Ascii.

Module Client.

(** *** Values *)

(** A JavaScript number, as far as [parseInt] can return one: NaN, an
    integer (minus zero is [Int 0]) or an infinity. *)
Inductive Number :=
| NaN
| Int (z : Z)
| Infinity (negative : bool).

(** The integer [n] rounded to the nearest number with 53 significant
    bits, ties going to the even one. *)
Definition round53 (n : N) : N :=
  if (n <? 2 ^ 53)%N then n
  else
    let e := (N.log2 n - 52)%N in
    let q := N.shiftr n e in
    let r := N.land n (N.ones e) in
    let half := (2 ^ (e - 1))%N in
    let q' :=
      if (r <? half)%N then q
      else if (half <? r)%N then (q + 1)%N
      else if N.even q then q else (q + 1)%N in
    N.shiftl q' e.

(** The Number value of the natural number [n], as [parseInt] and
    ToNumber give it for the digits that write [n].  (The standard lets
    an implementation read the digits after the twentieth as zeros; the
    engines read them all.) *)
Definition toDouble (n : N) : Number :=
  let m := round53 n in
  if (m <? 2 ^ 1024)%N then Int (Z.of_N m) else Infinity false.

Definition negate (x : Number) : Number :=
  match x with
  | NaN => NaN
  | Int z => Int (- z)
  | Infinity negative => Infinity (negb negative)
  end.

(** [x != y] on numbers. *)
Definition number_differs (x y : Number) : bool :=
  match x, y with
  | Int a, Int b => negb (a =? b)%Z
  | Infinity s, Infinity t => negb (Bool.eqb s t)
  | _, _ => true
  end.

Inductive Digit := D0 | D1 | D2 | D3 | D4 | D5 | D6 | D7 | D8 | D9.

Definition digit_value (d : Digit) : N :=
  match d with
  | D0 => 0 | D1 => 1 | D2 => 2 | D3 => 3 | D4 => 4
  | D5 => 5 | D6 => 6 | D7 => 7 | D8 => 8 | D9 => 9
  end%N.

Definition digit_eqb (a b : Digit) : bool :=
  (digit_value a =? digit_value b)%N.

Fixpoint text_eqb (s t : list Digit) : bool :=
  match s, t with
  | [], [] => true
  | a :: s', b :: t' => digit_eqb a b && text_eqb s' t'
  | _, _ => false
  end.

(** The value in base 10 of a text of digits; 0 for the empty text. *)
Definition text_value (s : list Digit) : N :=
  fold_left (fun acc d => (10 * acc + digit_value d)%N) s 0%N.

(** The [payload] property of an element of [rtp], [fmtp] or [rtcpFb]:
    the text that [\d*], or [\*|\d*] for [rtcpFb], captured.  [PNum n]
    is the number [n], [PText s] the string of the digits [s], [PStar]
    the string of one asterisk. *)
Inductive Payload :=
| PNum (n : N)
| PText (s : list Digit)
| PStar.

(** ToNumber, on a payload. *)
Definition toNumber (p : Payload) : Number :=
  match p with
  | PNum n => Int (Z.of_N n)
  | PText s => toDouble (text_value s)
  | PStar => NaN
  end.

(** [a != b] on payloads: two strings differ when their texts do; a
    number and a string, or two numbers, when their numbers do. *)
Definition payload_differs (a b : Payload) : bool :=
  match a, b with
  | PText s, PText t => negb (text_eqb s t)
  | PStar, PStar => false
  | PText _, PStar | PStar, PText _ => true
  | _, _ => number_differs (toNumber a) (toNumber b)
  end.

(** A property that holds a captured word: a string, or a number when
    the word is what a number prints as. *)
Inductive Word :=
| WString (s : string)
| WNumber.

(** [w === str]; and [w == str] when [str] is not the text of a
    number. *)
Definition word_is (w : Word) (str : string) : bool :=
  match w with
  | WString s => String.eqb s str
  | WNumber => false
  end.

(** The [payloads] property of an [m=] section: undefined when the line
    ends after the protocol. *)
Inductive Payloads :=
| PayloadsString (s : string)
| PayloadsNumber
| PayloadsUndefined.

(** An element of [media.rtp]: one [a=rtpmap] line. *)
Record Rtp := mkRtp {
  payload : Payload;
  codec : Word;
  rtp_rest : string;
}.

(** An element of [media.fmtp] or of [media.rtcpFb]: one [a=fmtp] or
    [a=rtcp-fb] line. *)
Record Attr := mkAttr {
  attr_payload : Payload;
  attr_rest : string;
}.

(** An element of [sdpObj.media]: one [m=] section.  [rtcpFb] is [None]
    when the property is undefined. *)
Record Media := mkMedia {
  type : Word;
  payloads : Payloads;
  rtp : list Rtp;
  fmtp : list Attr;
  rtcpFb : option (list Attr);
  media_rest : string;
}.

Record SdpObj := mkSdpObj {
  media : list Media;
  sdp_rest : string;
}.

(** *** The built-ins *)

(** [str.split(" ")] *)
Fixpoint split (s : string) : list string :=
  match s with
  | EmptyString => [EmptyString]
  | String c s' =>
      if Ascii.eqb c " "%char then EmptyString :: split s'
      else match split s' with
           | [] => [String c EmptyString]
           | w :: ws => String c w :: ws
           end
  end.

(** [arr.join(" ")] *)
Fixpoint join (l : list string) : string :=
  match l with
  | [] => EmptyString
  | w :: l' =>
      match l' with
      | [] => w
      | _ :: _ => w +:+ String " "%char (join l')
      end
  end.

(** A string without a space. *)
Fixpoint spaceless (s : string) : bool :=
  match s with
  | EmptyString => true
  | String c s' => negb (Ascii.eqb c " "%char) && spaceless s'
  end.

(** The three-byte white space of ECMAScript: U+1680, U+2000 to U+200A,
    U+2028, U+2029, U+202F, U+205F, U+3000, U+FEFF. *)
Definition white3 (a b c : nat) : bool :=
  ((a =? 225) && (b =? 154) && (c =? 128)
   || (a =? 226) && (b =? 128)
      && ((128 <=? c) && (c <=? 138) || (c =? 168) || (c =? 169)
          || (c =? 175))
   || (a =? 226) && (b =? 129) && (c =? 159)
   || (a =? 227) && (b =? 128) && (c =? 128)
   || (a =? 239) && (b =? 187) && (c =? 191))%nat.

(** The string without the white space at its head: TAB, LF, VT, FF, CR,
    SP, U+00A0 and the code points of [white3]. *)
Fixpoint trimStart (s : string) : string :=
  match s with
  | EmptyString => EmptyString
  | String c1 s1 =>
      let a := nat_of_ascii c1 in
      if ((9 <=? a) && (a <=? 13) || (a =? 32))%nat then trimStart s1
      else
        match s1 with
        | EmptyString => s
        | String c2 s2 =>
            let b := nat_of_ascii c2 in
            if ((a =? 194) && (b =? 160))%nat then trimStart s2
            else
              match s2 with
              | EmptyString => s
              | String c3 s3 =>
                  if white3 a b (nat_of_ascii c3) then trimStart s3 else s
              end
        end
  end.

Definition digit (c : ascii) : option N :=
  let n := N_of_ascii c in
  if (48 <=? n)%N && (n <=? 57)%N then Some (n - 48)%N else None.

(** The value, in base 10 and starting from [acc], of the digits at the
    head of [s]. *)
Fixpoint digits (s : string) (acc : N) : N :=
  match s with
  | EmptyString => acc
  | String c s' =>
      match digit c with
      | Some d => digits s' (10 * acc + d)%N
      | None => acc
      end
  end.

(** The number at the head of [s]: NaN when [s] does not start with a
    digit, and otherwise the Number value of the integer that the digits
    write. *)
Definition unsigned (s : string) : Number :=
  match s with
  | EmptyString => NaN
  | String c _ =>
      match digit c with
      | Some _ => toDouble (digits s 0)
      | None => NaN
      end
  end.

(** [parseInt(str, 10)] *)
Definition parseInt (str : string) : Number :=
  match trimStart str with
  | String "-"%char s => negate (unsigned s)
  | String "+"%char s => unsigned s
  | s => unsigned s
  end.

(** [n != payload] for the result [n] of [parseInt]. *)
Definition differs (n : Number) (payload : Payload) : bool :=
  number_differs n (toNumber payload).

(** *** sdpRemoveCodec *)

(** [media["type"] == "video"] *)
Definition is_video (m : Media) : bool := word_is (type m) "video".

(** [cmap.codec === codecName] *)
Definition is_codec (codecName : string) (cmap : Rtp) : bool :=
  word_is (codec cmap) codecName.

(** The body of the [forEach], lines 166-179; [None] when it throws a
    TypeError: [videoMedia.rtcpFb] is undefined, or [videoMedia.payloads]
    is a number or undefined and has no [split]. *)
Definition removePayload (videoMedia : Media) (cmap : Rtp) : option Media :=
  let payload := payload cmap in
  let rtp' :=
    List.filter (fun elem => payload_differs (Client.payload elem) payload)
      (rtp videoMedia) in
  let fmtp' :=
    List.filter (fun elem => payload_differs (attr_payload elem) payload)
      (fmtp videoMedia) in
  match rtcpFb videoMedia with
  | None => None
  | Some rtcpFb =>
      let rtcpFb' :=
        List.filter (fun elem => payload_differs (attr_payload elem) payload)
          rtcpFb in
      match payloads videoMedia with
      | PayloadsString payloads =>
          Some (mkMedia (type videoMedia)
                  (PayloadsString
                     (join (List.filter
                              (fun str => differs (parseInt str) payload)
                              (split payloads))))
                  rtp' fmtp' (Some rtcpFb') (media_rest videoMedia))
      | PayloadsNumber | PayloadsUndefined => None
      end
  end.

(** [codecmaps.forEach(...)], lines 166-180. *)
Fixpoint forEach (codecmaps : list Rtp) (videoMedia : Media)
    : option Media :=
  match codecmaps with
  | [] => Some videoMedia
  | cmap :: codecmaps' =>
      match removePayload videoMedia cmap with
      | Some videoMedia' => forEach codecmaps' videoMedia'
      | None => None
      end
  end.

(** [videoMedia] is the object found in [sdpObj.media]: what is assigned
    to its properties is seen through [sdpObj]. *)
Fixpoint assign (videoMedia : Media) (ms : list Media) : list Media :=
  match ms with
  | [] => []
  | m :: ms' =>
      if is_video m then videoMedia :: ms' else m :: assign videoMedia ms'
  end.

(** What becomes of the parsed object, lines 155-182. *)
Inductive Edit :=
| TypeError                    (* thrown at line 158 or in the loop *)
| Untouched                    (* the early return *)
| Edited (sdpObj : SdpObj).

Definition edit (sdpObj : SdpObj) (codecName : string) : Edit :=
  match List.find is_video (media sdpObj) with
  | None => TypeError
  | Some videoMedia =>
      let codecmaps := List.filter (is_codec codecName) (rtp videoMedia) in
      match codecmaps with
      | [] => Untouched
      | _ :: _ =>
          match forEach codecmaps videoMedia with
          | None => TypeError
          | Some videoMedia' =>
              Edited
                (mkSdpObj (assign videoMedia' (media sdpObj))
                   (sdp_rest sdpObj))
          end
      end
  end.

Section SdpTransform.
Variable parse : string -> SdpObj.
Variable write : SdpObj -> string.

(** [sdpRemoveCodec], lines 150-185; [None] when it throws. *)
Definition sdpRemoveCodec (sdp codecName : string) : option string :=
  match edit (parse sdp) codecName with
  | TypeError => None
  | Untouched => Some sdp
  | Edited sdpObj => Some (write sdpObj)
  end.

(** The offer that the callback of [generateOffer] sends, lines 134-141;
    [None] when [sdpRemoveCodec] throws and nothing is sent. *)
Definition offered (codecName sdpOffer : string) : option string :=
  if String.eqb codecName "H264" then sdpRemoveCodec sdpOffer "VP8"
  else if String.eqb codecName "VP8" then sdpRemoveCodec sdpOffer "H264"
  else Some sdpOffer.

End SdpTransform.

(** The payload types of [codecName] in a media section. *)
Definition payloads_of (codecName : string) (m : Media) : list Payload :=
  map payload (List.filter (is_codec codecName) (rtp m)).

(** Whether the first video section has an [rtpmap] of [codecName]. *)
Definition offers_codec (codecName : string) (sdpObj : SdpObj) : bool :=
  match List.find is_video (media sdpObj) with
  | Some videoMedia => existsb (is_codec codecName) (rtp videoMedia)
  | None => false
  end.

(** A payload type, or a word of the [m=] line, that [!=] tells from
    every one of [removed]. *)
Definition kept (removed : list Payload) (p : Payload) : bool :=
  forallb (payload_differs p) removed.
Definition word_kept (removed : list Payload) (str : string) : bool :=
  forallb (differs (parseInt str)) removed.

(** Whether the loop of [sdpRemoveCodec] can run on the section: it has
    an [rtcpFb] array and its payload list is a string. *)
Definition editable (m : Media) : bool :=
  match rtcpFb m, payloads m with
  | Some _, PayloadsString _ => true
  | _, _ => false
  end.


(** A video section as a browser offers it. *)
Definition offer_video : Media :=
  mkMedia (WString "video") (PayloadsString "96 97 98 99 102")
    [mkRtp (PNum 96) (WString "VP8") "90000";
     mkRtp (PNum 97) (WString "rtx") "90000";
     mkRtp (PNum 98) (WString "VP9") "90000";
     mkRtp (PNum 99) (WString "rtx") "90000";
     mkRtp (PNum 102) (WString "H264") "90000"]
    [mkAttr (PNum 97) "apt=96"; mkAttr (PNum 99) "apt=98";
     mkAttr (PNum 102) "profile-level-id=42e01f"]
    (Some [mkAttr (PNum 96) "nack"; mkAttr (PNum 96) "nack pli";
           mkAttr (PNum 98) "nack"; mkAttr (PNum 102) "nack";
           mkAttr (PNum 102) "goog-remb"])
    "recvonly".
Definition offer_audio : Media :=
  mkMedia (WString "audio") (PayloadsString "111 0")
    [mkRtp (PNum 111) (WString "opus") "48000/2";
     mkRtp (PNum 0) (WString "PCMU") "8000"]
    [mkAttr (PNum 111) "minptime=10"] None "recvonly".
Definition offer : SdpObj := mkSdpObj [offer_audio; offer_video] "v=0".

(** A video section with a single payload type and no [a=rtcp-fb]
    line, and one whose payload type and payload list are beyond
    2^53. *)
Definition single_video : Media :=
  mkMedia (WString "video") PayloadsNumber
    [mkRtp (PNum 96) (WString "VP8") "90000"] [] None "recvonly".
Definition large_video : Media :=
  mkMedia (WString "video") (PayloadsString "9007199254740993 97")
    [mkRtp (PNum 9007199254740992) (WString "VP8") "90000";
     mkRtp (PNum 97) (WString "H264") "90000"]
    [] (Some []) "recvonly".

End Client.

(** ** What a run of player2many/server.js shows of its handlers *)

Module Player2ManyTrace.
Import Player2Many Player2ManyObs.

(** *** The publisher *)

Definition is_create (t : Task) : bool :=
  match t with StartPublish_create => true | _ => false end.
Definition is_createPlayer (t : Task) : bool :=
  match t with StartPublish_createPlayer => true | _ => false end.

(** The object that comes back with [e], when [e] settles a creation
    request of the kind [want]. *)
Definition came_back (want : Task -> bool) (s : State Task) (e : Event)
    : list Handle :=
  match e with
  | Settle tid (Resolved (VHandle h)) =>
      match tasks s !! tid with
      | Some t => if want t then [h] else []
      | None => []
      end
  | _ => []
  end.

(** The pipelines, and the source endpoints, that came back along a run,
    in order of time. *)
Definition pipelines_back :=
  along (fun s e _ => came_back is_create s e).
Definition players_back :=
  along (fun s e _ => came_back is_createPlayer s e).

(** The pipelines in which a source endpoint was requested. *)
Fixpoint player_requests (out : list Effect) : list Handle :=
  match out with
  | [] => []
  | ECall (CreatePlayerEndpoint p) :: out' => p :: player_requests out'
  | _ :: out' => player_requests out'
  end.


(** One publish handler waits for [play], another for its source
    endpoint. *)
Definition publishing : list Event :=
  [KurentoConnected false;
   SocketConnect "A"; SocketConnect "B";
   Message "A" CLIENT_START_PUBLISH;
   Message "B" CLIENT_START_PUBLISH;
   Settle 0 (Resolved (VHandle 10));
   Settle 0 (Resolved (VHandle 11));
   Settle 1 (Resolved (VHandle 20))].

(** *** The offer of a viewer *)

(** How far the offer of a viewer has come, as the steps of
    [handleSdpOffer] go: nothing received; endpoint being created;
    being connected to the source; offer being processed; candidates
    being gathered; queue being emptied; answer sent; given up. *)
Inductive Progress :=
| NoOffer
| Creating
| Connecting
| Processing
| Gathering (sdpAnswer : string)
| Draining (sdpAnswer : string)
| Answered (sdpAnswer : string)
| Failed.

(** The offer of [sid] fails when it finds no pipeline, when the endpoint
    is there and no source endpoint is, and when one of the four requests
    is rejected; it is answered when the four requests have succeeded
    and the queue is empty, at once or after the candidates in it have
    been handed over, whether the media server took them or not. *)
Definition advance (sid : string) (s : State Task) (e : Event)
    (p : Progress) : Progress :=
  match e with
  | Message sid' (CLIENT_SDP_OFFER _) =>
      if decide (sid' = sid) then
        match p with
        | NoOffer =>
            match kurento_pipeline (store s) with
            | Some _ => Creating
            | None => Failed
            end
        | _ => p
        end
      else p
  | Settle _ r =>
      if on_behalf sid s e then
        match p, r with
        | Creating, Resolved (VHandle _) =>
            match kurento_playerEndpoint (store s) with
            | Some _ => Connecting
            | None => Failed
            end
        | Connecting, Resolved _ => Processing
        | Processing, Resolved (VText sdpAnswer) => Gathering sdpAnswer
        | Gathering sdpAnswer, Resolved _
        | Draining sdpAnswer, Resolved _
        | Draining sdpAnswer, Rejected _ =>
            match queue_of (store s) sid with
            | [] => Answered sdpAnswer
            | _ :: _ => Draining sdpAnswer
            end
        | Creating, Rejected _
        | Connecting, Rejected _
        | Processing, Rejected _
        | Gathering _, Rejected _ => Failed
        | _, _ => p
        end
      else p
  | _ => p
  end.

Fixpoint progress (sid : string) (s : State Task) (evs : list Event)
    (p : Progress) : Progress :=
  match evs with
  | [] => p
  | e :: evs' =>
      match step s e with
      | None => p
      | Some (s', _) => progress sid s' evs' (advance sid s e p)
      end
  end.

(** The steps of the offer handler of [sid]. *)
Definition offer_step (sid : string) (s : State Task) (e : Event) : bool :=
  match e with
  | Message sid' (CLIENT_SDP_OFFER _) => bool_decide (sid' = sid)
  | Settle _ _ => on_behalf sid s e
  | _ => false
  end.

(** The record a handler leaves when it gives up. *)
Definition is_giving_up (e : Effect) : bool :=
  match e with
  | ELog Error text =>
      bool_decide (text = "Promise ERROR:")
      || bool_decide (text = "ERROR: Publisher endpoint doesn't exist")
  | _ => false
  end.

(** The records that the offer handler of [sid] left when giving up. *)
Definition offer_failures (sid : string) :=
  along (fun s e out =>
           if offer_step sid s e then List.filter is_giving_up out else []).

(** The parked handler that stands where [p] says. *)
Definition stands_at (sid : string) (p : Progress) (t : Task) : Prop :=
  match p, t with
  | Creating, SdpOffer_createEndpoint sid' _
  | Connecting, SdpOffer_connect sid' _ _
  | Processing, SdpOffer_processOffer sid' _ => sid' = sid
  | Gathering a, SdpOffer_gatherCandidates sid' _ a'
  | Draining a, SdpOffer_drain sid' a' _ => sid' = sid /\ a' = a
  | _, _ => False
  end.

(** What a move from [p] to [p'] sends and records. *)
Definition newly_answered (p p' : Progress) : list string :=
  match p, p' with
  | Answered _, _ => []
  | _, Answered a => [a]
  | _, _ => []
  end.

Definition newly_failed (p p' : Progress) : nat :=
  match p, p' with
  | Failed, _ => 0
  | _, Failed => 1
  | _, _ => 0
  end.

(** The stages at which the handler waits for a request. *)
Definition under_way (p : Progress) : bool :=
  match p with
  | Creating | Connecting | Processing | Gathering _ | Draining _ => true
  | NoOffer | Answered _ | Failed => false
  end.

(** While the offer of [sid] is under way, its handler is parked at the
    step that [p] names. *)
Definition waits (sid : string) (s : State Task) (p : Progress) : Prop :=
  under_way p = true ->
  exists tid t, tasks s !! tid = Some t /\ stands_at sid p t.

(** [p] tells where the offer of [sid] stands in state [s]. *)
Definition tracks (sid : string) (s : State Task) (p : Progress) : Prop :=
  (p = NoOffer <-> sessions (store s) !! sid = None)
  /\ forall tid t,
       tasks s !! tid = Some t -> task_sid t = Some sid ->
       stands_at sid p t.

(** The source endpoint appears while the endpoint of viewer X is being
    created. *)
Definition late_player : list Event :=
  [KurentoConnected false;
   SocketConnect "A";
   Message "A" CLIENT_START_PUBLISH;
   Settle 0 (Resolved (VHandle 10));
   SocketConnect "X";
   Message "X" (CLIENT_SDP_OFFER "v=0 offer");
   Message "X" (CLIENT_ICE_CANDIDATE Scenario.c1);
   Settle 0 (Resolved (VHandle 11));
   Settle 1 (Resolved (VHandle 20));
   Settle 1 (Resolved VUnit);
   Settle 1 (Resolved (VText "v=0 answer"));
   Settle 1 (Resolved VUnit);
   Settle 1 (Rejected "no such candidate")].

(** *** Errors *)






End Player2ManyTrace.


(** * Properties *)

(** ** Counting *)

Lemma count_if_app {A : Type} (p : A -> bool) (l1 l2 : list A) :
  count_if p (l1 ++ l2) = count_if p l1 + count_if p l2.
Proof. induction l1 as [|x l1 IH]; simpl; [reflexivity|]. rewrite IH. lia. Qed.

(** ** The task table *)

Section TaskTable.
Context {Task : Type}.

Lemma spawn_lookup ts (m : gmap nat Task) n k t :
  (spawn ts m n).1 !! k = Some t -> In t ts \/ m !! k = Some t.
Proof.
  revert m n. induction ts as [|t' ts IH]; simpl; intros m n H.
  - right. exact H.
  - apply IH in H as [H|H]; [left; right; exact H|].
    destruct (decide (n = k)) as [->|Hne].
    + rewrite lookup_insert_eq in H. left; left. congruence.
    + rewrite lookup_insert_ne in H by exact Hne. right. exact H.
Qed.

Lemma spawn_next ts (m : gmap nat Task) n : (spawn ts m n).2 = n + length ts.
Proof.
  revert m n. induction ts as [|t ts IH]; simpl; intros m n; [lia|].
  rewrite IH. lia.
Qed.

Lemma spawn_fresh ts (m : gmap nat Task) n k :
  (forall j, n <= j -> m !! j = None) ->
  n + length ts <= k -> (spawn ts m n).1 !! k = None.
Proof.
  revert m n. induction ts as [|t ts IH]; simpl; intros m n Hm Hk.
  - apply Hm. lia.
  - apply IH; [|lia]. intros j Hj.
    rewrite lookup_insert_ne by lia. apply Hm. lia.
Qed.

Lemma spawn_old ts (m : gmap nat Task) n k :
  k < n -> (spawn ts m n).1 !! k = m !! k.
Proof.
  revert m n. induction ts as [|t ts IH]; simpl; intros m n Hk; [done|].
  rewrite IH by lia. apply lookup_insert_ne. lia.
Qed.

Lemma install_store tid (sg : Seg Task) (m : gmap nat Task) n :
  store (install tid sg m n).1 = seg_store sg.
Proof. unfold install. destruct (spawn _ _ _). reflexivity. Qed.


Lemma install_out tid (sg : Seg Task) (m : gmap nat Task) n :
  (install tid sg m n).2 = seg_out sg ++ uncaught (seg_outcome sg).
Proof. unfold install. destruct (spawn _ _ _). reflexivity. Qed.

Lemma install_tasks_eq tid (sg : Seg Task) (m : gmap nat Task) n :
  tasks (install tid sg m n).1
  = (spawn (seg_spawn sg) (park tid (seg_outcome sg) m) n).1.
Proof. unfold install. destruct (spawn _ _ _). reflexivity. Qed.

Lemma install_next tid (sg : Seg Task) (m : gmap nat Task) n :
  next (install tid sg m n).1 = n + length (seg_spawn sg).
Proof.
  unfold install. rewrite <- spawn_next with (m := park tid (seg_outcome sg) m).
  destruct (spawn _ _ _). reflexivity.
Qed.

Lemma park_lookup tid o (m : gmap nat Task) k t :
  park tid o m !! k = Some t ->
  (k = tid /\ o = Await t) \/ (k <> tid /\ m !! k = Some t).
Proof.
  destruct o as [|t'|]; simpl; intros H.
  - apply lookup_delete_Some in H as [Hne H]. right. split; congruence.
  - destruct (decide (tid = k)) as [->|Hne].
    + rewrite lookup_insert_eq in H. left. split; congruence.
    + rewrite lookup_insert_ne in H by exact Hne. right. split; congruence.
  - apply lookup_delete_Some in H as [Hne H]. right. split; congruence.
Qed.

(** A task found after a handler ran is its continuation, something it
    left behind, or a task that was there and is not the one that ran. *)
Lemma install_tasks tid (sg : Seg Task) (m : gmap nat Task) n k t :
  tasks (install tid sg m n).1 !! k = Some t ->
  (k = tid /\ seg_outcome sg = Await t) \/ In t (seg_spawn sg)
  \/ (k <> tid /\ m !! k = Some t).
Proof.
  rewrite install_tasks_eq. intros H.
  apply spawn_lookup in H as [H|H]; [tauto|].
  apply park_lookup in H. tauto.
Qed.

End TaskTable.



(** ** The event loop *)

Section MachineFacts.
Context {Task : Type}.
Variable dispatch : string -> ClientMsg -> Store -> Seg Task.
Variable resume : Task -> Settled -> Store -> option (Seg Task).

Abbreviation mstep := (step_with dispatch resume).
Abbreviation mrun := (run_with dispatch resume).

Lemma step_view s e s' out :
  mstep s e = Some (s', out) ->
  alive s = true /\ StepView dispatch resume s e s' out.
Proof.
  unfold step_with. destruct (alive s) eqn:Ha; simpl; [|discriminate].
  intros H. split; [reflexivity|].
  destruct e as [[]|sid|sid|sid m|tid r|h ev]; simpl in H.
  - inversion H; subst. constructor.
  - inversion H; subst. constructor.
  - inversion H; subst. constructor.
  - inversion H; subst. constructor.
  - injection H as H'. pose proof (view_message dispatch resume s sid m) as V.
    rewrite H' in V. exact V.
  - destruct (tasks s !! tid) as [t|] eqn:Ht; [|discriminate].
    destruct (resume t r (store s)) as [sg|] eqn:Hr; [|discriminate].
    injection H as H'.
    pose proof (view_settle dispatch resume s tid r t sg Ht Hr) as V.
    rewrite H' in V. exact V.
  - inversion H; subst. constructor.
Qed.


Lemma run_app s evs1 evs2 :
  mrun s (evs1 ++ evs2)
  = match mrun s evs1 with
    | None => None
    | Some (s1, out1) =>
        match mrun s1 evs2 with
        | None => None
        | Some (s2, out2) => Some (s2, out1 ++ out2)
        end
    end.
Proof.
  revert s. induction evs1 as [|e evs1 IH]; intros s; simpl.
  - destruct (mrun s evs2) as [[s2 out2]|]; reflexivity.
  - destruct (mstep s e) as [[s' out]|]; [|reflexivity].
    rewrite IH. destruct (mrun s' evs1) as [[s1 out1]|]; [|reflexivity].
    destruct (mrun s1 evs2) as [[s2 out2]|]; [|reflexivity].
    rewrite app_assoc. reflexivity.
Qed.

Lemma run_cons s e evs s' out :
  mrun s (e :: evs) = Some (s', out) ->
  exists s1 out1 out2,
    mstep s e = Some (s1, out1) /\ mrun s1 evs = Some (s', out2)
    /\ out = out1 ++ out2.
Proof.
  simpl. destruct (mstep s e) as [[s1 out1]|]; [|discriminate].
  destruct (mrun s1 evs) as [[s2 out2]|] eqn:Hr; [|discriminate].
  intros H. injection H as <- <-. exists s1, out1, out2. auto.
Qed.

(** A property kept by every step is kept by every run. *)
Lemma run_invariant (P : State Task -> Prop) :
  (forall s e s' out, P s -> mstep s e = Some (s', out) -> P s') ->
  forall evs s s' out, P s -> mrun s evs = Some (s', out) -> P s'.
Proof.
  intros Hstep. induction evs as [|e evs IH]; simpl; intros s s' out HP H.
  - congruence.
  - destruct (mstep s e) as [[s1 out1]|] eqn:He; [|discriminate].
    destruct (mrun s1 evs) as [[s2 out2]|] eqn:Hr; [|discriminate].
    injection H as <- _. eapply IH; [|exact Hr]. eapply Hstep; eauto.
Qed.

(** Task identifiers are never reused. *)
Lemma step_fresh s e s' out :
  fresh s -> mstep s e = Some (s', out) -> fresh s'.
Proof.
  intros Hf H. apply step_view in H as [_ V].
  destruct V as [| | | |sid m|tid r t sg Ht Hr|]; try exact Hf.
  - intros k. rewrite install_next, install_tasks_eq. intros Hk.
    apply spawn_fresh; [|lia]. intros j Hj.
    destruct (seg_outcome _); simpl.
    + rewrite lookup_delete_ne by lia. apply Hf. lia.
    + rewrite lookup_insert_ne by lia. apply Hf. lia.
    + rewrite lookup_delete_ne by lia. apply Hf. lia.
  - assert (tid < next s) as Hlt.
    { destruct (le_lt_dec (next s) tid) as [Hle|]; [|assumption].
      rewrite (Hf tid Hle) in Ht. discriminate. }
    intros k. rewrite install_next, install_tasks_eq. intros Hk.
    apply spawn_fresh; [|lia]. intros j Hj.
    destruct (seg_outcome _); simpl.
    + rewrite lookup_delete_ne by lia. apply Hf. lia.
    + rewrite lookup_insert_ne by lia. apply Hf. lia.
    + rewrite lookup_delete_ne by lia. apply Hf. lia.
Qed.

Lemma run_fresh evs s s' out :
  fresh s -> mrun s evs = Some (s', out) -> fresh s'.
Proof. apply (run_invariant fresh). apply step_fresh. Qed.


(** Counting pipeline requests, for any server whose publish handler asks
    for one pipeline per call and whose other code asks for none. *)
Section Pipelines.
Hypothesis dispatch_pipelines : forall sid m st,
  count_if is_CreatePipeline (seg_out (dispatch sid m st))
  = publish_requests (kurento_client st) [Message sid m]
  /\ kurento_client (seg_store (dispatch sid m st)) = kurento_client st.
Hypothesis resume_pipelines : forall t r st sg,
  resume t r st = Some sg ->
  count_if is_CreatePipeline (seg_out sg) = 0
  /\ kurento_client (seg_store sg) = kurento_client st.


End Pipelines.

End MachineFacts.

(** ** player2many/server.js: the handlers, piece by piece *)

Module Player2ManyFacts.
Import Player2Many Player2ManyObs.

(** What one turn of the drain loop does, by the shape of the session. *)
Lemma drain_cases sid sdpAnswer st sg :
  drain sid sdpAnswer st = Some sg ->
  exists session, sessions st !! sid = Some session /\
    ((pendingCandidates session = [] /\
      sg = ret st [EEmit sid (SERVER_SDP_ANSWER sdpAnswer)])
     \/ (exists c rest ep,
           pendingCandidates session = c :: rest /\
           webrtcEndpoint session = Some ep /\
           sg = await (set_pendingCandidates sid rest st)
                  [ECall (AddIceCandidate ep c)]
                  (SdpOffer_drain sid sdpAnswer true))
     \/ (exists c rest,
           pendingCandidates session = c :: rest /\
           webrtcEndpoint session = None /\
           sg = await (set_pendingCandidates sid (rest ++ [c])
                         (set_pendingCandidates sid rest st))
                  [] (SdpOffer_drain sid sdpAnswer false))).
Proof.
  unfold drain. destruct (sessions st !! sid) as [session|] eqn:Hs;
    [|discriminate].
  intros H. exists session. split; [reflexivity|].
  destruct session as [sock ep q]; simpl in *.
  destruct q as [|c rest]; [left; split; congruence|right].
  unfold handleIceCandidate, kmsCandidate in H; simpl in H.
  rewrite lookup_alter_eq, Hs in H; simpl in H.
  destruct ep as [ep|]; simpl in H.
  - left. exists c, rest, ep. repeat split. congruence.
  - right. exists c, rest. repeat split. congruence.
Qed.

(** Case analysis of [resume t r st = Some sg] down to concrete
    segments. *)
Ltac resume_cases H :=
  repeat match type of H with
         | drain _ _ _ = Some _ =>
             apply drain_cases in H
               as (? & ? & [[? ->]|[(? & ? & ? & ? & ? & ->)
                                   |(? & ? & ? & ? & ->)]])
         | context [drain ?a ?b ?c] =>
             let E := fresh "E" in
             destruct (drain a b c) eqn:E; [|discriminate];
             apply drain_cases in E
               as (? & ? & [[? ->]|[(? & ? & ? & ? & ? & ->)
                                   |(? & ? & ? & ? & ->)]])
         | context [match ?x with _ => _ end] => destruct x eqn:?
         end;
  simplify_eq; simpl in *.

(** Registration is for ever: no handler removes or replaces an entry. *)
Lemma dispatch_registered sid m st k :
  is_Some (sessions st !! k) ->
  is_Some (sessions (seg_store (dispatch sid m st)) !! k).
Proof.
  intros Hk. destruct m as [|sdpOffer|c|]; simpl.
  - unfold handleStartPublish. destruct (kurento_client st); exact Hk.
  - unfold handleSdpOffer. destruct (sessions st !! sid) eqn:Hs; [exact Hk|].
    assert (is_Some (<[sid := new_Session sid]> (sessions st) !! k)).
    { apply lookup_insert_is_Some'. right. exact Hk. }
    destruct (kurento_pipeline st); simpl; assumption.
  - unfold handleIceCandidate.
    destruct (sessions st !! sid) as [session|]; [|exact Hk].
    destruct (webrtcEndpoint session); simpl; [exact Hk|].
    apply lookup_alter_is_Some. exact Hk.
  - unfold handleDebugDot. destruct (kurento_pipeline st); exact Hk.
Qed.

Lemma resume_registered t r st sg k :
  resume t r st = Some sg ->
  is_Some (sessions st !! k) -> is_Some (sessions (seg_store sg) !! k).
Proof.
  intros H Hk.
  destruct t; destruct r as [[| |]| |]; simpl in H; resume_cases H;
    try exact Hk; repeat (apply lookup_alter_is_Some); exact Hk.
Qed.

Lemma step_registered s e s' out k :
  step s e = Some (s', out) ->
  is_Some (sessions (store s) !! k) -> is_Some (sessions (store s') !! k).
Proof.
  intros H Hk. apply step_view in H as [_ V].
  destruct V as [| | | |sid m|tid r t sg Ht Hr|]; simpl; try exact Hk.
  - rewrite install_store. apply dispatch_registered. exact Hk.
  - rewrite install_store. eapply resume_registered; eassumption.
Qed.

Lemma run_registered evs s s' out k :
  run s evs = Some (s', out) ->
  is_Some (sessions (store s) !! k) -> is_Some (sessions (store s') !! k).
Proof.
  intros H Hk. revert H.
  apply (run_invariant dispatch resume
           (fun s => is_Some (sessions (store s) !! k))); [|exact Hk].
  intros s1 e s2 o H1 H2. eapply step_registered; eassumption.
Qed.

(** [new Session] runs exactly when an identity enters the registry. *)
Lemma dispatch_new sid m st k :
  count_if (is_New k) (seg_out (dispatch sid m st)) + registrations st k
  = registrations (seg_store (dispatch sid m st)) k.
Proof.
  unfold registrations. destruct m as [|sdpOffer|c|]; simpl.
  - unfold handleStartPublish. destruct (kurento_client st); reflexivity.
  - unfold handleSdpOffer. destruct (sessions st !! sid) eqn:Hs;
      [reflexivity|].
    assert (count_if (is_New k) [ENew sid]
            + match sessions st !! k with Some _ => 1 | None => 0 end
            = match <[sid := new_Session sid]> (sessions st) !! k with
              | Some _ => 1 | None => 0 end) as Hc.
    { simpl. destruct (decide (sid = k)) as [->|Hne].
      - rewrite lookup_insert_eq, Hs, bool_decide_eq_true_2; reflexivity.
      - rewrite lookup_insert_ne, bool_decide_eq_false_2 by exact Hne.
        reflexivity. }
    destruct (kurento_pipeline st); simpl in *; lia.
  - unfold handleIceCandidate.
    destruct (sessions st !! sid) as [session|] eqn:Hs; [|reflexivity].
    destruct (webrtcEndpoint session); simpl; [reflexivity|].
    destruct (decide (sid = k)) as [->|Hne].
    + rewrite lookup_alter_eq, Hs. reflexivity.
    + rewrite lookup_alter_ne by exact Hne. reflexivity.
  - unfold handleDebugDot. destruct (kurento_pipeline st); reflexivity.
Qed.

Lemma registrations_alter f sid (m : gmap string Session) k :
  match alter f sid m !! k with Some _ => 1 | None => 0 end
  = match m !! k with Some _ => 1 | None => 0 end.
Proof.
  destruct (decide (sid = k)) as [->|Hne].
  - rewrite lookup_alter_eq. destruct (m !! k); reflexivity.
  - rewrite lookup_alter_ne by exact Hne. reflexivity.
Qed.

Lemma resume_new t r st sg k :
  resume t r st = Some sg ->
  count_if (is_New k) (seg_out sg) = 0
  /\ registrations (seg_store sg) k = registrations st k.
Proof.
  intros H.
  destruct t; destruct r as [[| |]| |]; simpl in H; resume_cases H;
    (split; [reflexivity|]); try reflexivity;
    unfold registrations; simpl; rewrite ?registrations_alter; reflexivity.
Qed.

Lemma fire_new h ev ls k : count_if (is_New k) (fire h ev ls) = 0.
Proof.
  induction ls as [|[h' l] ls IH]; simpl; [reflexivity|].
  rewrite count_if_app, IH.
  destruct (Nat.eqb h h'); [|reflexivity]. destruct l, ev; reflexivity.
Qed.

Lemma step_new s e s' out k :
  step s e = Some (s', out) ->
  count_if (is_New k) out + registrations (store s) k
  = registrations (store s') k.
Proof.
  intros H. apply step_view in H as [_ V].
  destruct V as [| | | |sid m|tid r t sg Ht Hr|]; simpl; try reflexivity.
  - rewrite install_store, install_out, count_if_app.
    rewrite <- dispatch_new.
    destruct (seg_outcome (dispatch sid m (store s))); simpl; lia.
  - rewrite install_store, install_out, count_if_app.
    destruct (resume_new _ _ _ _ k Hr) as [-> ->].
    destruct (seg_outcome sg); simpl; lia.
  - rewrite fire_new. reflexivity.
Qed.

Lemma run_new evs s s' out k :
  run s evs = Some (s', out) ->
  count_if (is_New k) out + registrations (store s) k
  = registrations (store s') k.
Proof.
  revert s s' out. induction evs as [|e evs IH]; simpl; intros s s' out H.
  - injection H as <- <-. reflexivity.
  - apply run_cons in H as (s1 & out1 & out2 & He & Hr & ->).
    rewrite count_if_app.
    rewrite <- (IH _ _ _ Hr), <- (step_new _ _ _ _ k He). lia.
Qed.


Lemma fresh_init : fresh (@init Task).
Proof. intros k _. apply lookup_empty. Qed.

(** A second offer under a registered identity: a warning, nothing else. *)
Lemma duplicate_offer s sid sdpOffer :
  alive s = true -> fresh s -> is_Some (sessions (store s) !! sid) ->
  step s (Message sid (CLIENT_SDP_OFFER sdpOffer))
  = Some (mkState (store s) (tasks s) (S (next s)) true,
          [ELog Warn "Skip adding session, already exists:"]).
Proof.
  intros Ha Hf [session Hs]. unfold step_with. rewrite Ha. simpl.
  unfold handleSdpOffer. rewrite Hs. unfold install. simpl.
  rewrite delete_id by (apply Hf; lia). reflexivity.
Qed.

(** Pipelines are requested by [handleStartPublish] only, once per call
    that finds the client. *)
Lemma dispatch_pipelines sid m st :
  count_if is_CreatePipeline (seg_out (dispatch sid m st))
  = publish_requests (kurento_client st) [Message sid m]
  /\ kurento_client (seg_store (dispatch sid m st)) = kurento_client st.
Proof.
  destruct m as [|sdpOffer|c|]; simpl.
  - unfold handleStartPublish. destruct (kurento_client st) eqn:E; simpl;
      rewrite ?E; auto.
  - unfold handleSdpOffer. destruct (sessions st !! sid); [auto|].
    destruct (kurento_pipeline st); auto.
  - unfold handleIceCandidate. destruct (sessions st !! sid) as [x|]; [|auto].
    destruct (webrtcEndpoint x); auto.
  - unfold handleDebugDot. destruct (kurento_pipeline st); auto.
Qed.

Lemma resume_pipelines t r st sg :
  resume t r st = Some sg ->
  count_if is_CreatePipeline (seg_out sg) = 0
  /\ kurento_client (seg_store sg) = kurento_client st.
Proof.
  intros H.
  destruct t; destruct r as [[| |]| |]; simpl in H; resume_cases H; auto.
Qed.


(** *** Reading sessions through the setters *)

Lemma endpoint_of_set_pending sid q st k :
  endpoint_of (set_pendingCandidates sid q st) k = endpoint_of st k.
Proof.
  unfold endpoint_of, set_pendingCandidates; simpl.
  destruct (decide (sid = k)) as [->|Hne].
  - rewrite lookup_alter_eq. destruct (sessions st !! k); reflexivity.
  - rewrite lookup_alter_ne by exact Hne. reflexivity.
Qed.

Lemma queue_of_set_pending_eq sid q st :
  is_Some (sessions st !! sid) ->
  queue_of (set_pendingCandidates sid q st) sid = q.
Proof.
  intros [x Hx]. unfold queue_of, set_pendingCandidates; simpl.
  rewrite lookup_alter_eq, Hx. reflexivity.
Qed.

Lemma queue_of_set_pending_ne sid q st k :
  sid <> k -> queue_of (set_pendingCandidates sid q st) k = queue_of st k.
Proof.
  intros Hne. unfold queue_of, set_pendingCandidates; simpl.
  rewrite lookup_alter_ne by exact Hne. reflexivity.
Qed.

Lemma endpoint_of_set_endpoint_eq sid ep st :
  is_Some (sessions st !! sid) ->
  endpoint_of (set_webrtcEndpoint sid ep st) sid = Some ep.
Proof.
  intros [x Hx]. unfold endpoint_of, set_webrtcEndpoint; simpl.
  rewrite lookup_alter_eq, Hx. reflexivity.
Qed.

Lemma endpoint_of_set_endpoint_ne sid ep st k :
  sid <> k -> endpoint_of (set_webrtcEndpoint sid ep st) k = endpoint_of st k.
Proof.
  intros Hne. unfold endpoint_of, set_webrtcEndpoint; simpl.
  rewrite lookup_alter_ne by exact Hne. reflexivity.
Qed.

Lemma queue_of_set_endpoint sid ep st k :
  queue_of (set_webrtcEndpoint sid ep st) k = queue_of st k.
Proof.
  unfold queue_of, set_webrtcEndpoint; simpl.
  destruct (decide (sid = k)) as [->|Hne].
  - rewrite lookup_alter_eq. destruct (sessions st !! k); reflexivity.
  - rewrite lookup_alter_ne by exact Hne. reflexivity.
Qed.

Lemma endpoint_of_registered st k :
  is_Some (endpoint_of st k) -> is_Some (sessions st !! k).
Proof.
  unfold endpoint_of. destruct (sessions st !! k); [eauto|].
  intros [x Hx]. discriminate.
Qed.

(** *** An endpoint, once stored, stays *)

Lemma dispatch_endpoint sid m st k :
  is_Some (sessions st !! k) ->
  endpoint_of (seg_store (dispatch sid m st)) k = endpoint_of st k.
Proof.
  intros Hk. destruct m as [|sdpOffer|c|]; simpl.
  - unfold handleStartPublish. destruct (kurento_client st); reflexivity.
  - unfold handleSdpOffer. destruct (sessions st !! sid) eqn:Hs;
      [reflexivity|].
    assert (sid <> k) as Hne.
    { intros ->. destruct Hk as [x Hx]. congruence. }
    destruct (kurento_pipeline st); unfold endpoint_of; simpl;
      rewrite lookup_insert_ne by exact Hne; reflexivity.
  - unfold handleIceCandidate.
    destruct (sessions st !! sid) as [session|]; [|reflexivity].
    destruct (webrtcEndpoint session); simpl; [reflexivity|].
    apply endpoint_of_set_pending.
  - unfold handleDebugDot. destruct (kurento_pipeline st); reflexivity.
Qed.

(** A handler touches no session but the one it works for. *)
Lemma dispatch_other sid m st k :
  sid <> k ->
  sessions (seg_store (dispatch sid m st)) !! k = sessions st !! k.
Proof.
  intros Hne. destruct m as [|sdpOffer|c|]; simpl.
  - unfold handleStartPublish. destruct (kurento_client st); reflexivity.
  - unfold handleSdpOffer. destruct (sessions st !! sid) eqn:Hs;
      [reflexivity|].
    destruct (kurento_pipeline st); simpl;
      rewrite lookup_insert_ne by exact Hne; reflexivity.
  - unfold handleIceCandidate.
    destruct (sessions st !! sid) as [session|]; [|reflexivity].
    destruct (webrtcEndpoint session); simpl; [reflexivity|].
    apply lookup_alter_ne. exact Hne.
  - unfold handleDebugDot. destruct (kurento_pipeline st); reflexivity.
Qed.

Lemma resume_other t r st sg k :
  resume t r st = Some sg -> task_sid t <> Some k ->
  sessions (seg_store sg) !! k = sessions st !! k.
Proof.
  intros H Hne.
  destruct t; destruct r as [[| |]| |]; simpl in H; resume_cases H;
    try reflexivity;
    rewrite ?lookup_alter_ne by congruence; reflexivity.
Qed.

Lemma endpoint_of_listener h l st k :
  endpoint_of (add_listener h l st) k = endpoint_of st k.
Proof. reflexivity. Qed.

Lemma resume_endpoint t r st sg k :
  resume t r st = Some sg ->
  is_Some (endpoint_of st k) -> is_Some (endpoint_of (seg_store sg) k).
Proof.
  intros H Hk.
  destruct t; destruct r as [[| |]| |]; simpl in H; resume_cases H;
    rewrite ?endpoint_of_listener, ?endpoint_of_set_pending;
    try exact Hk.
  all: destruct (decide (sid = k)) as [->|Hne];
    [rewrite endpoint_of_set_endpoint_eq
       by (apply endpoint_of_registered; exact Hk); eauto
    |rewrite endpoint_of_set_endpoint_ne by exact Hne; exact Hk].
Qed.

(** *** Parked offer handlers *)

Lemma dispatch_tasks sid m st :
  seg_spawn (dispatch sid m st) = []
  /\ forall t k,
       seg_outcome (dispatch sid m st) = Await t -> task_sid t = Some k ->
       k = sid /\ sessions st !! sid = None /\ past_endpoint t = false
       /\ is_Some (sessions (seg_store (dispatch sid m st)) !! sid)
       /\ endpoint_of (seg_store (dispatch sid m st)) sid = None.
Proof.
  destruct m as [|sdpOffer|c|]; simpl.
  - unfold handleStartPublish. destruct (kurento_client st); simpl;
      (split; [reflexivity|]); intros t k H1 H2; simplify_eq; discriminate.
  - unfold handleSdpOffer. destruct (sessions st !! sid) eqn:Hs; simpl;
      [split; [reflexivity|]; intros t k H1 H2; discriminate|].
    destruct (kurento_pipeline st); simpl; (split; [reflexivity|]);
      intros t k H1 H2; simplify_eq. simpl in H2. simplify_eq.
    unfold endpoint_of; simpl. rewrite lookup_insert_eq. eauto.
  - unfold handleIceCandidate.
    destruct (sessions st !! sid) as [x|]; simpl;
      [destruct (webrtcEndpoint x)|]; simpl;
      (split; [reflexivity|]); intros t k H1 H2; simplify_eq; discriminate.
  - unfold handleDebugDot. destruct (kurento_pipeline st); simpl;
      (split; [reflexivity|]); intros t k H1 H2; simplify_eq; discriminate.
Qed.

Lemma resume_spawn t r st sg t' :
  resume t r st = Some sg -> In t' (seg_spawn sg) -> task_sid t' = None.
Proof.
  intros H.
  destruct t; destruct r as [[| |]| |]; simpl in H; resume_cases H;
    intros Hin; try contradiction;
    destruct Hin as [<-|[]]; reflexivity.
Qed.

Lemma resume_offer t r st sg t' k :
  resume t r st = Some sg ->
  seg_outcome sg = Await t' -> task_sid t' = Some k ->
  task_sid t = Some k /\ past_endpoint t' = true
  /\ (is_Some (sessions st !! k) ->
      (past_endpoint t = true -> is_Some (endpoint_of st k)) ->
      past_endpoint t' = true -> is_Some (endpoint_of (seg_store sg) k)).
Proof.
  intros H.
  destruct t; destruct r as [[| |]| |]; simpl in H; resume_cases H;
    intros Hout Hsid; simplify_eq; simpl in Hsid; simplify_eq;
    (split; [reflexivity|]); (split; [reflexivity|]);
    intros Hreg Hep Hpast;
    rewrite ?endpoint_of_listener, ?endpoint_of_set_pending;
    try (apply Hep; reflexivity); try discriminate.
  rewrite endpoint_of_set_endpoint_eq by exact Hreg. eauto.
Qed.

Lemma step_offers_ok s e s' out :
  offers_ok s -> step s e = Some (s', out) -> offers_ok s'.
Proof.
  intros [Hreg Huniq] H. apply step_view in H as [_ V].
  destruct V as [| | | |sid m|tid r t sg Ht Hr|];
    try (split; [exact Hreg|exact Huniq]).
  - (* a message *)
    destruct (dispatch_tasks sid m (store s)) as [Hsp Hout].
    assert (forall tid' t' k,
               tasks (install (next s) (dispatch sid m (store s))
                        (tasks s) (S (next s))).1 !! tid' = Some t' ->
               task_sid t' = Some k ->
               (tid' = next s /\ k = sid /\ sessions (store s) !! sid = None
                /\ past_endpoint t' = false
                /\ is_Some (sessions (seg_store (dispatch sid m (store s)))
                              !! sid)
                /\ endpoint_of (seg_store (dispatch sid m (store s))) sid
                   = None)
               \/ (tasks s !! tid' = Some t')) as Hcase.
    { intros tid' t' k Hl Hk.
      apply install_tasks in Hl as [[-> Ho]|[Hin|[_ Hl]]].
      - left. destruct (Hout _ _ Ho Hk) as (-> & ? & ? & ? & ?).
        repeat split; assumption.
      - rewrite Hsp in Hin. contradiction.
      - right. exact Hl. }
    split.
    + intros tid' t' k Hl Hk. rewrite install_store.
      destruct (Hcase _ _ _ Hl Hk)
        as [(-> & -> & Hnone & Hpast & Ho & Hep)|Hold].
      * split; [exact Ho|]. split; [rewrite Hpast; discriminate|].
        intros _. exact Hep.
      * destruct (Hreg _ _ _ Hold Hk) as (Hr1 & Hr2 & Hr3).
        rewrite dispatch_endpoint by exact Hr1.
        split; [apply dispatch_registered; exact Hr1|]. split; assumption.
    + intros tid1 tid2 t1 t2 k Hl1 Hl2 Hk1 Hk2.
      destruct (Hcase _ _ _ Hl1 Hk1) as [(-> & -> & Hn1 & _)|Hold1];
        destruct (Hcase _ _ _ Hl2 Hk2) as [(-> & E2 & Hn2 & _)|Hold2].
      * reflexivity.
      * destruct (Hreg _ _ _ Hold2 Hk2) as [[x Hx] _]. congruence.
      * subst k. destruct (Hreg _ _ _ Hold1 Hk1) as [[x Hx] _]. congruence.
      * eapply Huniq; eassumption.
  - (* a promise settles *)
    assert (forall tid' t' k,
               tasks (install tid sg (tasks s) (next s)).1 !! tid' = Some t' ->
               task_sid t' = Some k ->
               (tid' = tid /\ seg_outcome sg = Await t' /\ task_sid t = Some k)
               \/ (tid' <> tid /\ tasks s !! tid' = Some t')) as Hcase.
    { intros tid' t' k Hl Hk.
      apply install_tasks in Hl as [[-> Ho]|[Hin|Hl]].
      - left. destruct (resume_offer _ _ _ _ _ _ Hr Ho Hk)
          as (? & ? & ?). auto.
      - rewrite (resume_spawn _ _ _ _ _ Hr Hin) in Hk. discriminate.
      - right. exact Hl. }
    split.
    + intros tid' t' k Hl Hk. rewrite install_store.
      destruct (Hcase _ _ _ Hl Hk) as [(-> & Ho & Hkt)|[Hne Hold]].
      * destruct (Hreg _ _ _ Ht Hkt) as (Hr1 & Hr2 & Hr3).
        destruct (resume_offer _ _ _ _ _ _ Hr Ho Hk) as (_ & Hpast & Hp).
        split; [eapply resume_registered; eassumption|]. split.
        -- apply Hp; assumption.
        -- rewrite Hpast. discriminate.
      * destruct (Hreg _ _ _ Hold Hk) as (Hr1 & Hr2 & Hr3).
        assert (task_sid t <> Some k) as Hother.
        { intros Hkt. apply Hne. eapply Huniq; eassumption. }
        unfold endpoint_of in *.
        rewrite (resume_other _ _ _ _ _ Hr Hother). auto.
    + intros tid1 tid2 t1 t2 k Hl1 Hl2 Hk1 Hk2.
      destruct (Hcase _ _ _ Hl1 Hk1) as [(-> & _ & Hkt1)|[Hne1 Hold1]];
        destruct (Hcase _ _ _ Hl2 Hk2) as [(-> & _ & Hkt2)|[Hne2 Hold2]].
      * reflexivity.
      * exfalso. apply Hne2. eapply Huniq; eassumption.
      * exfalso. apply Hne1. eapply Huniq; eassumption.
      * eapply Huniq; eassumption.
Qed.

Lemma offers_ok_init : offers_ok init.
Proof.
  split.
  - intros tid t sid H. simpl in H. rewrite lookup_empty in H. discriminate.
  - intros tid1 tid2 t1 t2 sid H. simpl in H. rewrite lookup_empty in H.
    discriminate.
Qed.

Lemma run_offers_ok evs s out :
  run init evs = Some (s, out) -> offers_ok s.
Proof.
  apply (run_invariant dispatch resume offers_ok);
    [intros; eapply step_offers_ok; eassumption|apply offers_ok_init].
Qed.

(** *** The publisher state *)

Lemma dispatch_publisher sid m st :
  kurento_pipeline (seg_store (dispatch sid m st)) = kurento_pipeline st
  /\ kurento_playerEndpoint (seg_store (dispatch sid m st))
     = kurento_playerEndpoint st
  /\ seg_outcome (dispatch sid m st) <> Await StartPublish_createPlayer.
Proof.
  destruct m as [|sdpOffer|c|]; simpl.
  - unfold handleStartPublish. destruct (kurento_client st); simpl;
      (split; [reflexivity|split; [reflexivity|discriminate]]).
  - unfold handleSdpOffer. destruct (sessions st !! sid);
      [|destruct (kurento_pipeline st) eqn:E]; simpl; rewrite ?E;
      (split; [reflexivity|split; [reflexivity|discriminate]]).
  - unfold handleIceCandidate. destruct (sessions st !! sid) as [x|];
      [destruct (webrtcEndpoint x)|]; simpl;
      (split; [reflexivity|split; [reflexivity|discriminate]]).
  - unfold handleDebugDot. destruct (kurento_pipeline st) eqn:E; simpl;
      rewrite ?E; (split; [reflexivity|split; [reflexivity|discriminate]]).
Qed.

Lemma resume_publisher t r st sg :
  resume t r st = Some sg ->
  (is_Some (kurento_pipeline st) ->
   is_Some (kurento_pipeline (seg_store sg)))
  /\ (is_Some (kurento_playerEndpoint (seg_store sg)) ->
      is_Some (kurento_playerEndpoint st) \/ t = StartPublish_createPlayer)
  /\ (seg_outcome sg = Await StartPublish_createPlayer ->
      is_Some (kurento_pipeline (seg_store sg)))
  /\ ~ In StartPublish_createPlayer (seg_spawn sg).
Proof.
  intros H.
  destruct t; destruct r as [[| |]| |]; simpl in H; resume_cases H;
    (split; [solve [intros Hq; first [exact Hq|eexists; reflexivity]]|]).
  all: split;
    [solve [intros Hq;
            repeat match goal with
                   | E : kurento_playerEndpoint _ = _ |- _ => rewrite E in *
                   end; auto]|].
  all: split;
    [solve [intros Ho; first [discriminate|eexists; reflexivity]]|].
  all: intros Hin; simpl in Hin; intuition discriminate.
Qed.

Lemma step_publisher_ok s e s' out :
  publisher_ok s -> step s e = Some (s', out) -> publisher_ok s'.
Proof.
  intros [Hp Ht] H. apply step_view in H as [_ V].
  destruct V as [| | | |sid m|tid r t sg Hl Hr|];
    try (split; [exact Hp|exact Ht]).
  - destruct (dispatch_publisher sid m (store s)) as (E1 & E2 & Ho).
    split; rewrite install_store, E1.
    + rewrite E2. exact Hp.
    + intros k Hk. apply install_tasks in Hk as [[_ Hk]|[Hk|[_ Hk]]].
      * contradiction.
      * destruct (dispatch_tasks sid m (store s)) as [Hsp _].
        rewrite Hsp in Hk. contradiction.
      * eapply Ht. exact Hk.
  - destruct (resume_publisher _ _ _ _ Hr) as (R1 & R2 & R3 & R4).
    split; rewrite install_store.
    + intros Hq. apply R2 in Hq as [Hq| ->]; [auto|]. eauto.
    + intros k Hk. apply install_tasks in Hk as [[_ Hk]|[Hk|[_ Hk]]].
      * auto.
      * contradiction.
      * eauto.
Qed.

Lemma publisher_ok_init : publisher_ok init.
Proof.
  split.
  - intros [x Hx]. discriminate.
  - intros tid H. simpl in H. rewrite lookup_empty in H. discriminate.
Qed.

Lemma run_publisher_ok evs s out :
  run init evs = Some (s, out) -> publisher_ok s.
Proof.
  apply (run_invariant dispatch resume publisher_ok);
    [intros; eapply step_publisher_ok; eassumption|apply publisher_ok_init].
Qed.


(** *** Sessions left without an endpoint *)

Lemma ice_from_app sid evs1 evs2 :
  ice_from sid (evs1 ++ evs2) = ice_from sid evs1 ++ ice_from sid evs2.
Proof.
  induction evs1 as [|e evs1 IH]; simpl; [reflexivity|].
  destruct e as [| | |sid' []| |]; try exact IH.
  destruct (decide (sid' = sid)); [simpl; rewrite IH; reflexivity|exact IH].
Qed.

(** A candidate for a session without endpoint goes to the queue, and
    nothing is sent to the media server. *)
Lemma stalled_candidate_seg sid c st :
  is_Some (sessions st !! sid) -> endpoint_of st sid = None ->
  exists st',
    handleIceCandidate sid c st = (st', [], false)
    /\ is_Some (sessions st' !! sid)
    /\ endpoint_of st' sid = None
    /\ queue_of st' sid = queue_of st sid ++ [c]
    /\ forall k, k <> sid -> sessions st' !! k = sessions st !! k.
Proof.
  intros [x Hx] Hep. unfold handleIceCandidate. rewrite Hx.
  unfold endpoint_of in Hep. rewrite Hx in Hep. rewrite Hep.
  eexists. split; [reflexivity|].
  split; [apply lookup_alter_is_Some; eauto|].
  split; [rewrite endpoint_of_set_pending; unfold endpoint_of;
          rewrite Hx; exact Hep|].
  split; [rewrite queue_of_set_pending_eq by eauto;
          unfold queue_of; rewrite Hx; reflexivity|].
  intros k Hk. simpl. apply lookup_alter_ne. congruence.
Qed.

Lemma step_stalled s e s' out sid :
  stalled s sid -> step s e = Some (s', out) ->
  stalled s' sid
  /\ queue_of (store s') sid = queue_of (store s) sid ++ ice_from sid [e].
Proof.
  intros (Hreg & Hep & Hno) H. apply step_view in H as [_ V].
  unfold stalled.
  destruct V as [| | | |sid' m|tid r t sg Ht Hr|]; simpl;
    rewrite ?app_nil_r; try (split; [split; [|split]|]; auto; fail).
  - (* a message *)
    rewrite install_store.
    assert (forall tid' t',
               tasks (install (next s) (dispatch sid' m (store s))
                        (tasks s) (S (next s))).1 !! tid' = Some t' ->
               task_sid t' <> Some sid) as Hno'.
    { intros tid' t' Hl Hk.
      apply install_tasks in Hl as [[_ Ho]|[Hin|[_ Hl]]].
      - destruct (dispatch_tasks sid' m (store s)) as [_ Hout].
        destruct (Hout _ _ Ho Hk) as (-> & Hnone & _).
        destruct Hreg as [x Hx]. congruence.
      - destruct (dispatch_tasks sid' m (store s)) as [Hsp _].
        rewrite Hsp in Hin. contradiction.
      - eapply Hno; eassumption. }
    split; [split; [|split]|].
    + apply dispatch_registered. exact Hreg.
    + rewrite dispatch_endpoint by exact Hreg. exact Hep.
    + exact Hno'.
    + destruct (decide (sid' = sid)) as [->|Hne].
      * destruct m as [|sdpOffer|c|]; simpl; rewrite ?app_nil_r.
        -- unfold handleStartPublish.
           destruct (kurento_client _); reflexivity.
        -- unfold handleSdpOffer. destruct Hreg as [x Hx]. rewrite Hx.
           reflexivity.
        -- destruct (stalled_candidate_seg sid c (store s) Hreg Hep)
             as (st' & E & _ & _ & Hq & _).
           rewrite E. simpl. exact Hq.
        -- unfold handleDebugDot.
           destruct (kurento_pipeline _); reflexivity.
      * unfold queue_of. rewrite dispatch_other by exact Hne.
        destruct m as [|sdpOffer|c|]; simpl; rewrite ?app_nil_r;
          reflexivity.
  - (* a promise settles *)
    rewrite install_store.
    assert (task_sid t <> Some sid) as Hother by (eapply Hno; eassumption).
    pose proof (resume_other _ _ _ _ _ Hr Hother) as Hsame.
    split; [split; [|split]|].
    + rewrite Hsame. exact Hreg.
    + unfold endpoint_of in *. rewrite Hsame. exact Hep.
    + intros tid' t' Hl Hk.
      apply install_tasks in Hl as [[_ Ho]|[Hin|[_ Hl]]].
      * destruct (resume_offer _ _ _ _ _ _ Hr Ho Hk) as [Hkt _].
        contradiction.
      * rewrite (resume_spawn _ _ _ _ _ Hr Hin) in Hk. discriminate.
      * eapply Hno; eassumption.
    + unfold queue_of. rewrite Hsame. reflexivity.
Qed.

Lemma run_stalled evs s s' out sid :
  stalled s sid -> run s evs = Some (s', out) ->
  stalled s' sid
  /\ queue_of (store s') sid = queue_of (store s) sid ++ ice_from sid evs.
Proof.
  revert s s' out. induction evs as [|e evs IH]; intros s s' out Hst H.
  - injection H as <- <-. simpl. rewrite app_nil_r. auto.
  - apply run_cons in H as (s1 & out1 & out2 & He & Hr & ->).
    destruct (step_stalled _ _ _ _ _ Hst He) as [Hst1 Hq1].
    destruct (IH _ _ _ Hst1 Hr) as [Hst' Hq'].
    split; [exact Hst'|].
    rewrite Hq', Hq1, <- app_assoc, <- ice_from_app. reflexivity.
Qed.

(** An offer handler that fails early leaves its session stalled. *)
Lemma early_failure_stalls s e s' out sid :
  offers_ok s -> step s e = Some (s', out) ->
  offer_fails_early s e sid -> stalled s' sid.
Proof.
  intros [Hreg Huniq] H Hfail. apply step_view in H as [_ V].
  unfold stalled.
  destruct Hfail as [(sdpOffer & -> & Hnone & Hpipe)
                    |(tid & sdpOffer & err & -> & Ht)].
  - inversion V; subst. simpl. unfold handleSdpOffer.
    rewrite Hnone, Hpipe. unfold install; simpl. split; [|split].
    + rewrite lookup_insert_eq. eauto.
    + unfold endpoint_of; simpl. rewrite lookup_insert_eq. reflexivity.
    + intros tid' t' Hl Hk. apply lookup_delete_Some in Hl as [_ Hl].
      destruct (Hreg _ _ _ Hl Hk) as [[x Hx] _]. congruence.
  - inversion V as [| | | | |tid' r' t sg Ht' Hr| ]; subst.
    rewrite Ht in Ht'. injection Ht' as <-. simpl in Hr.
    injection Hr as <-. unfold install; simpl.
    destruct (Hreg _ _ _ Ht eq_refl) as (Hr1 & _ & Hr3).
    split; [exact Hr1|]. split; [apply Hr3; reflexivity|].
    intros tid' t' Hl Hk. apply lookup_delete_Some in Hl as [Hne Hl].
    apply Hne. eapply Huniq; [exact Ht|exact Hl|reflexivity|exact Hk].
Qed.

(** While a session is stalled, a candidate of its viewer is queued
    and a further offer is turned down. *)
Lemma stalled_candidate s sid c :
  alive s = true -> stalled s sid ->
  exists s',
    step s (Message sid (CLIENT_ICE_CANDIDATE c)) = Some (s', [])
    /\ queue_of (store s') sid = queue_of (store s) sid ++ [c]
    /\ endpoint_of (store s') sid = None.
Proof.
  intros Ha (Hreg & Hep & _).
  destruct (stalled_candidate_seg sid c (store s) Hreg Hep)
    as (st' & E & _ & Hep' & Hq & _).
  unfold step_with. rewrite Ha. simpl. rewrite E. unfold install; simpl.
  eexists. split; [reflexivity|]. simpl. auto.
Qed.

(** *** Order of the candidates *)

Lemma Merge_nil_l {A : Type} (l : list A) : Merge [] l l.
Proof. induction l; constructor; assumption. Qed.

Lemma Merge_nil_r {A : Type} (l : list A) : Merge l [] l.
Proof. induction l; constructor; assumption. Qed.

Lemma Merge_app {A : Type} (a b c a' b' c' : list A) :
  Merge a b c -> Merge a' b' c' -> Merge (a ++ a') (b ++ b') (c ++ c').
Proof.
  intros H H'. induction H; simpl; [exact H'| |]; constructor; assumption.
Qed.

Lemma queue_of_listener h l st k :
  queue_of (add_listener h l st) k = queue_of st k.
Proof. reflexivity. Qed.

Lemma added_app out1 out2 : added (out1 ++ out2) = added out1 ++ added out2.
Proof.
  induction out1 as [|e out1 IH]; simpl; [reflexivity|].
  destruct e as [[]| | | | |]; simpl; rewrite ?IH; reflexivity.
Qed.

Lemma added_uncaught (o : Outcome Task) : added (uncaught o) = [].
Proof. destruct o; reflexivity. Qed.

Lemma added_settled r : added (addIceCandidate_settled r) = [].
Proof. destruct r; reflexivity. Qed.

(** One turn of the drain loop, for a session that has its endpoint:
    the head of the queue is handed over, the rest stays. *)
Lemma drain_turn sid sdpAnswer st sg :
  is_Some (endpoint_of st sid) ->
  drain sid sdpAnswer st = Some sg ->
  exists d, queue_of st sid = d ++ queue_of (seg_store sg) sid
            /\ added (seg_out sg) = d.
Proof.
  intros [ep Hep] H.
  apply drain_cases in H
    as (x & Hx & [[Hq ->]|[(c & rest & ep' & Hq & _ & ->)
                          |(c & rest & _ & Hnone & _)]]).
  - exists []. split; reflexivity.
  - exists [c]. simpl. split; [|reflexivity].
    rewrite queue_of_set_pending_eq by eauto.
    unfold queue_of. rewrite Hx. exact Hq.
  - unfold endpoint_of in Hep. rewrite Hx in Hep. congruence.
Qed.

Lemma step_fifo s e s' out sid :
  offers_ok s -> step s e = Some (s', out) ->
  exists d,
    queue_of (store s) sid ++ queued_by sid s e
    = d ++ queue_of (store s') sid
    /\ Merge d (direct_by sid s e)
         (if on_behalf sid s e then added out else []).
Proof.
  intros [Hreg _] H. apply step_view in H as [_ V].
  destruct V as [| | | |sid' m|tid r t sg Ht Hr|]; simpl;
    try (exists []; rewrite app_nil_r; split; [reflexivity|constructor]).
  - (* a message *)
    rewrite install_store, install_out, added_app, added_uncaught,
      ?app_nil_r.
    destruct (decide (sid' = sid)) as [->|Hne].
    + rewrite bool_decide_eq_true_2 by reflexivity. exists [].
      destruct m as [|sdpOffer|c|]; simpl; rewrite ?app_nil_r.
      * unfold handleStartPublish. destruct (kurento_client _);
          split; [reflexivity|constructor|reflexivity|constructor].
      * unfold handleSdpOffer, queue_of.
        destruct (sessions (store s) !! sid) eqn:Hs; simpl; rewrite ?Hs;
          [split; [reflexivity|constructor]|].
        destruct (kurento_pipeline _); simpl; rewrite lookup_insert_eq;
          simpl; split; [reflexivity|constructor|reflexivity|constructor].
      * unfold handleIceCandidate, queue_of.
        destruct (sessions (store s) !! sid) as [x|] eqn:Hs; simpl;
          rewrite ?Hs; [|split; [reflexivity|constructor]].
        destruct (webrtcEndpoint x) eqn:Hx; simpl; rewrite ?Hs.
        -- rewrite app_nil_r. split; [reflexivity|]. apply Merge_nil_l.
        -- rewrite lookup_alter_eq, Hs. simpl.
           split; [reflexivity|constructor].
      * unfold handleDebugDot. destruct (kurento_pipeline _);
          split; [reflexivity|constructor|reflexivity|constructor].
    + rewrite bool_decide_eq_false_2 by exact Hne. exists [].
      unfold queue_of. rewrite dispatch_other by exact Hne.
      destruct m; simpl; rewrite ?app_nil_r; split;
        first [reflexivity|constructor].
  - (* a promise settles *)
    rewrite Ht, install_store, install_out, added_app, added_uncaught,
      !app_nil_r.
    destruct (decide (task_sid t = Some sid)) as [Hsid|Hother].
    + rewrite bool_decide_eq_true_2 by exact Hsid.
      destruct (Hreg _ _ _ Ht Hsid) as (Hr1 & Hr2 & _).
      assert (forall a sg', drain sid a (store s) = Some sg' ->
                past_endpoint t = true ->
                exists d, queue_of (store s) sid
                          = d ++ queue_of (seg_store sg') sid
                          /\ Merge d [] (added (seg_out sg'))) as Hdrain.
      { intros a sg' Hd Hp.
        destruct (drain_turn _ _ _ _ (Hr2 Hp) Hd) as (d & E1 & E2).
        exists d. rewrite E2. split; [exact E1|apply Merge_nil_r]. }
      destruct t; simpl in Hsid; simplify_eq;
        destruct r as [[| |]| |]; simpl in Hr;
        try discriminate;
        try (destruct adding; simpl in Hr; try discriminate);
        try (match type of Hr with
             | context [drain ?a ?b ?c] =>
                 destruct (drain a b c) as [sg'|] eqn:Hd; [|discriminate]
             end;
             injection Hr as <-; simpl;
             rewrite ?added_app, ?added_settled; simpl;
             eapply Hdrain; [exact Hd|reflexivity]);
        try (eapply Hdrain; [exact Hr|reflexivity]);
        resume_cases Hr;
        rewrite ?queue_of_listener, ?queue_of_set_endpoint;
        exists []; (split; [reflexivity|apply Merge_nil]).
    + rewrite bool_decide_eq_false_2 by exact Hother. exists [].
      unfold queue_of. rewrite (resume_other _ _ _ _ _ Hr Hother).
      split; [reflexivity|constructor].
Qed.

Lemma run_fifo evs s s' out sid :
  offers_ok s -> run s evs = Some (s', out) ->
  exists d,
    queue_of (store s) sid ++ queued sid s evs
    = d ++ queue_of (store s') sid
    /\ Merge d (direct sid s evs) (applied sid s evs).
Proof.
  revert s s' out. induction evs as [|e evs IH]; intros s s' out Hok H.
  - injection H as <- <-. exists []. simpl. rewrite app_nil_r.
    split; [reflexivity|constructor].
  - apply run_cons in H as (s1 & out1 & out2 & He & Hr & ->).
    destruct (step_fifo _ _ _ _ sid Hok He) as (d1 & E1 & M1).
    destruct (IH _ _ _ (step_offers_ok _ _ _ _ Hok He) Hr)
      as (d2 & E2 & M2).
    exists (d1 ++ d2). unfold queued, direct, applied. simpl. rewrite He.
    split.
    + rewrite app_assoc, E1, <- !app_assoc. f_equal. exact E2.
    + apply Merge_app; assumption.
Qed.
Import Player2ManyTrace.

(** *** Failures *)







(** *** A handler on its own *)

Lemma alone_prefix st p out sp oc rs :
  alone (mkSeg st (p ++ out) sp oc) rs
  = match alone (mkSeg st out sp oc) rs with
    | Some (st', out') => Some (st', p ++ out')
    | None => None
    end.
Proof.
  destruct rs as [|r rs]; simpl; [reflexivity|].
  destruct oc as [|k|]; try reflexivity.
  destruct (resume k r st) as [sg'|]; [|reflexivity].
  destruct (alone sg' rs) as [[st' out']|]; [|reflexivity].
  rewrite app_assoc. reflexivity.
Qed.

Lemma calls_app out1 out2 : calls (out1 ++ out2) = calls out1 ++ calls out2.
Proof.
  induction out1 as [|e out1 IH]; simpl; [reflexivity|].
  destruct e; simpl; rewrite ?IH; reflexivity.
Qed.

Lemma answers_app sid out1 out2 :
  answers sid (out1 ++ out2) = answers sid out1 ++ answers sid out2.
Proof.
  induction out1 as [|e out1 IH]; simpl; [reflexivity|].
  destruct e as [|sock []| | | |]; simpl; rewrite ?IH; try reflexivity.
  destruct (decide (sock = sid)); simpl; rewrite ?IH; reflexivity.
Qed.


(** *** Single steps *)

Lemma step_message s sid m :
  alive s = true ->
  step s (Message sid m)
  = Some (install (next s) (dispatch sid m (store s)) (tasks s) (S (next s))).
Proof. intros Ha. unfold step_with. rewrite Ha. reflexivity. Qed.

Lemma step_settle s tid r t sg :
  alive s = true -> tasks s !! tid = Some t ->
  resume t r (store s) = Some sg ->
  step s (Settle tid r) = Some (install tid sg (tasks s) (next s)).
Proof. intros Ha Ht Hr. unfold step_with. rewrite Ha, Ht, Hr. reflexivity. Qed.

(** *** Answers *)

Lemma dispatch_answers sid m st k :
  answers k (seg_out (dispatch sid m st)) = [].
Proof.
  destruct m as [|sdpOffer|c|]; simpl.
  - unfold handleStartPublish. destruct (kurento_client st); reflexivity.
  - unfold handleSdpOffer. destruct (sessions st !! sid);
      [|destruct (kurento_pipeline st)]; reflexivity.
  - unfold handleIceCandidate. destruct (sessions st !! sid) as [x|];
      [destruct (webrtcEndpoint x)|]; reflexivity.
  - unfold handleDebugDot. destruct (kurento_pipeline st); reflexivity.
Qed.

Lemma fire_answers h ev ls k : answers k (fire h ev ls) = [].
Proof.
  induction ls as [|[h' l] ls IH]; simpl; [reflexivity|].
  rewrite answers_app, IH.
  destruct (Nat.eqb h h'); [|reflexivity]. destruct l, ev; reflexivity.
Qed.

(** Only an offer handler sends an answer, to its own viewer, as its last
    act. *)
Lemma resume_answers t r st sg k :
  resume t r st = Some sg ->
  answers k (seg_out sg) = []
  \/ (task_sid t = Some k /\ seg_outcome sg = Done
      /\ length (answers k (seg_out sg)) = 1).
Proof.
  intros H.
  destruct t; destruct r as [[| |]| |]; simpl in H; resume_cases H;
    try (left; reflexivity);
    (destruct (decide (sid = k)) as [E|Hne]; simpl;
     [right; subst; auto|left; reflexivity]).
Qed.

Lemma step_answers s e s' out k :
  offers_ok s -> step s e = Some (s', out) ->
  (answers k out = [] /\ (~ answer_due s k -> ~ answer_due s' k))
  \/ (length (answers k out) = 1 /\ answer_due s k /\ ~ answer_due s' k).
Proof.
  intros [Hreg Huniq] H. apply step_view in H as [_ V].
  destruct V as [| | | |sid m|tid r t sg Ht Hr|h ev];
    try (left; split; [reflexivity|unfold answer_due; simpl; tauto]).
  3:{ left. rewrite fire_answers. split; [reflexivity|tauto]. }
  - (* a message *)
    left. rewrite install_out, answers_app, dispatch_answers.
    split; [destruct (seg_outcome _); reflexivity|].
    intros Hno [Hnone|(tid' & t' & Hl & Hk)].
    + rewrite install_store in Hnone.
      destruct (sessions (store s) !! k) as [x|] eqn:Hx;
        [|apply Hno; left; exact Hx].
      pose proof (dispatch_registered sid m (store s) k (mk_is_Some _ _ Hx))
        as [y Hy].
      congruence.
    + apply install_tasks in Hl as [[_ Ho]|[Hin|[_ Hl]]].
      * destruct (dispatch_tasks sid m (store s)) as [_ Hout].
        destruct (Hout _ _ Ho Hk) as (-> & Hnone & _).
        apply Hno. left. exact Hnone.
      * destruct (dispatch_tasks sid m (store s)) as [Hsp _].
        rewrite Hsp in Hin. contradiction.
      * apply Hno. right. eauto.
  - (* a promise settles *)
    rewrite install_out, answers_app.
    assert (answers k (uncaught (seg_outcome sg)) = []) as ->
      by (destruct (seg_outcome sg); reflexivity).
    rewrite app_nil_r.
    assert (forall tid' t',
               tasks (install tid sg (tasks s) (next s)).1 !! tid' = Some t' ->
               task_sid t' = Some k ->
               (tid' = tid /\ seg_outcome sg = Await t' /\ task_sid t = Some k)
               \/ (tid' <> tid /\ tasks s !! tid' = Some t')) as Hcase.
    { intros tid' t' Hl Hk.
      apply install_tasks in Hl as [[-> Ho]|[Hin|Hl]].
      - left. destruct (resume_offer _ _ _ _ _ _ Hr Ho Hk) as (? & _). auto.
      - rewrite (resume_spawn _ _ _ _ _ Hr Hin) in Hk. discriminate.
      - right. exact Hl. }
    destruct (resume_answers _ _ _ _ k Hr) as [Hnil|(Hk & Hdone & Hone)].
    + left. split; [exact Hnil|].
      intros Hno [Hnone|(tid' & t' & Hl & Hk')].
      * rewrite install_store in Hnone.
        destruct (sessions (store s) !! k) as [x|] eqn:Hx;
          [|apply Hno; left; exact Hx].
        pose proof (resume_registered _ _ _ _ k Hr (mk_is_Some _ _ Hx))
          as [y Hy].
        congruence.
      * apply Hno. right.
        destruct (Hcase _ _ Hl Hk') as [(_ & _ & Hkt)|[_ Hold]]; eauto.
    + right. split; [exact Hone|]. split; [right; eauto|].
      intros [Hnone|(tid' & t' & Hl & Hk')].
      * rewrite install_store in Hnone.
        destruct (Hreg _ _ _ Ht Hk) as (Hr1 & _).
        pose proof (resume_registered _ _ _ _ k Hr Hr1) as [y Hy].
        congruence.
      * destruct (Hcase _ _ Hl Hk') as [(_ & Ho & _)|[Hne Hold]].
        -- congruence.
        -- apply Hne. eapply Huniq; eassumption.
Qed.

Lemma run_answers_none evs s s' out k :
  offers_ok s -> ~ answer_due s k -> run s evs = Some (s', out) ->
  answers k out = [].
Proof.
  revert s s' out. induction evs as [|e evs IH]; intros s s' out Hok Hno H.
  - injection H as <- <-. reflexivity.
  - apply run_cons in H as (s1 & out1 & out2 & He & Hr & ->).
    rewrite answers_app.
    destruct (step_answers _ _ _ _ k Hok He)
      as [[-> Hkeep]|(_ & Hdue & _)]; [|contradiction].
    apply (IH _ _ _ (step_offers_ok _ _ _ _ Hok He) (Hkeep Hno) Hr).
Qed.

(** Along a run a viewer is sent at most one answer. *)
Lemma run_answers evs s s' out k :
  offers_ok s -> run s evs = Some (s', out) -> length (answers k out) <= 1.
Proof.
  revert s s' out. induction evs as [|e evs IH]; intros s s' out Hok H.
  - injection H as <- <-. simpl. lia.
  - apply run_cons in H as (s1 & out1 & out2 & He & Hr & ->).
    rewrite answers_app, length_app.
    pose proof (step_offers_ok _ _ _ _ Hok He) as Hok1.
    destruct (step_answers _ _ _ _ k Hok He)
      as [[-> _]|(Hone & _ & Hno1)].
    + apply (IH _ _ _ Hok1 Hr).
    + rewrite (run_answers_none _ _ _ _ _ Hok1 Hno1 Hr), Hone. simpl. lia.
Qed.
(** *** What is stored of the publisher *)


Lemma player_requests_app out1 out2 :
  player_requests (out1 ++ out2)
  = player_requests out1 ++ player_requests out2.
Proof.
  induction out1 as [|e out1 IH]; simpl; [reflexivity|].
  destruct e as [[]| | | | |]; simpl; rewrite ?IH; reflexivity.
Qed.

Lemma dispatch_player_requests sid m st :
  player_requests (seg_out (dispatch sid m st)) = [].
Proof.
  destruct m as [|sdpOffer|c|]; simpl.
  - unfold handleStartPublish. destruct (kurento_client st); reflexivity.
  - unfold handleSdpOffer. destruct (sessions st !! sid);
      [|destruct (kurento_pipeline st)]; reflexivity.
  - unfold handleIceCandidate. destruct (sessions st !! sid) as [x|];
      [destruct (webrtcEndpoint x)|]; reflexivity.
  - unfold handleDebugDot. destruct (kurento_pipeline st); reflexivity.
Qed.

Lemma fire_player_requests h ev ls : player_requests (fire h ev ls) = [].
Proof.
  induction ls as [|[h' l] ls IH]; simpl; [reflexivity|].
  rewrite player_requests_app, IH.
  destruct (Nat.eqb h h'); [|reflexivity]. destruct l, ev; reflexivity.
Qed.

(** The object that comes back to a handler, if the handler is of the
    kind [want]. *)
Lemma resume_publisher_trace t r st sg :
  resume t r st = Some sg ->
  let back (want : Task -> bool) :=
    match r with
    | Resolved (VHandle h) => if want t then [h] else []
    | _ => []
    end in
  kurento_pipeline (seg_store sg)
  = from_option Some (kurento_pipeline st) (last (back is_create))
  /\ kurento_playerEndpoint (seg_store sg)
     = from_option Some (kurento_playerEndpoint st)
         (last (back is_createPlayer))
  /\ player_requests (seg_out sg) = back is_create.
Proof.
  intros H.
  destruct t; destruct r as [[| |]| |]; simpl in H; resume_cases H;
    simpl; auto.
  all: destruct r as [[| |]| |]; auto.
Qed.

Lemma step_publisher_trace s e s' out :
  step s e = Some (s', out) ->
  kurento_pipeline (store s')
  = from_option Some (kurento_pipeline (store s))
      (last (came_back is_create s e))
  /\ kurento_playerEndpoint (store s')
     = from_option Some (kurento_playerEndpoint (store s))
         (last (came_back is_createPlayer s e))
  /\ player_requests out = came_back is_create s e.
Proof.
  intros H. apply step_view in H as [_ V].
  destruct V as [| | | |sid m|tid r t sg Ht Hr|h ev]; simpl; auto.
  - rewrite install_store, install_out, player_requests_app,
      dispatch_player_requests.
    destruct (dispatch_publisher sid m (store s)) as (-> & -> & _).
    destruct (seg_outcome _); auto.
  - rewrite install_store, install_out, player_requests_app, Ht.
    destruct (resume_publisher_trace _ _ _ _ Hr) as (-> & -> & ->).
    assert (player_requests (uncaught (seg_outcome sg)) = []) as ->
      by (destruct (seg_outcome sg); reflexivity).
    rewrite app_nil_r. destruct r as [[| |]| |]; auto.
  - rewrite fire_player_requests. auto.
Qed.

Lemma last_or_before {A : Type} (l1 l2 : list A) (x : option A) :
  from_option Some (from_option Some x (last l1)) (last l2)
  = from_option Some x (last (l1 ++ l2)).
Proof.
  rewrite last_app. destruct (last l2); reflexivity.
Qed.

(** What is stored is what came back last. *)
Lemma run_publisher_trace evs s s' out :
  run s evs = Some (s', out) ->
  kurento_pipeline (store s')
  = from_option Some (kurento_pipeline (store s))
      (last (pipelines_back s evs))
  /\ kurento_playerEndpoint (store s')
     = from_option Some (kurento_playerEndpoint (store s))
         (last (players_back s evs))
  /\ player_requests out = pipelines_back s evs.
Proof.
  revert s s' out. induction evs as [|e evs IH]; intros s s' out H.
  - injection H as <- <-. auto.
  - apply run_cons in H as (s1 & out1 & out2 & He & Hr & ->).
    destruct (step_publisher_trace _ _ _ _ He) as (E1 & E2 & E3).
    destruct (IH _ _ _ Hr) as (F1 & F2 & F3).
    unfold pipelines_back, players_back in *. simpl. rewrite He.
    rewrite <- !last_or_before, <- E1, <- E2, player_requests_app, E3, F3.
    auto.
Qed.

(** What has been stored of the publisher stays stored. *)
Lemma run_publisher_kept evs s s' out :
  run s evs = Some (s', out) ->
  (is_Some (kurento_pipeline (store s)) ->
   is_Some (kurento_pipeline (store s')))
  /\ (is_Some (kurento_playerEndpoint (store s)) ->
      is_Some (kurento_playerEndpoint (store s'))).
Proof.
  intros H. destruct (run_publisher_trace _ _ _ _ H) as (-> & -> & _).
  split; intros [x ->];
    match goal with |- context [last ?l] => destruct (last l) end;
    simpl; eauto.
Qed.

(** A rejected creation changes nothing; neither does the end of
    [play], which comes with undefined whether the source plays or
    not. *)
Lemma publish_failure s tid t :
  alive s = true -> tasks s !! tid = Some t ->
  (t = StartPublish_create \/ t = StartPublish_createPlayer ->
   forall err,
     step s (Settle tid (Rejected err))
     = Some (mkState (store s) (delete tid (tasks s)) (next s) true,
             [promise_error]))
  /\ (t = StartPublish_play ->
      step s (Settle tid (Resolved VUnit))
      = Some (mkState (store s) (delete tid (tasks s)) (next s) true, [])).
Proof.
  intros Ha Hl. unfold step_with. rewrite Ha, Hl. simpl.
  split; [intros [->| ->] err|intros ->]; reflexivity.
Qed.


(** *** How far an offer has come *)

Lemma on_behalf_settle sid s tid r t :
  tasks s !! tid = Some t ->
  on_behalf sid s (Settle tid r) = bool_decide (task_sid t = Some sid).
Proof. intros Ht. simpl. rewrite Ht. reflexivity. Qed.

(** The offer handler of [sid] goes where [advance] says. *)
Lemma resume_progress s tid t r sg sid p :
  offers_ok s -> tasks s !! tid = Some t -> task_sid t = Some sid ->
  stands_at sid p t -> resume t r (store s) = Some sg ->
  (forall t', seg_outcome sg = Await t' ->
              stands_at sid (advance sid s (Settle tid r) p) t')
  /\ (if under_way (advance sid s (Settle tid r) p)
      then exists t', seg_outcome sg = Await t'
      else seg_outcome sg = Done)
  /\ advance sid s (Settle tid r) p <> NoOffer
  /\ answers sid (seg_out sg)
     = match advance sid s (Settle tid r) p with
       | Answered a => [a]
       | _ => []
       end
  /\ length (List.filter is_giving_up (seg_out sg))
     = match advance sid s (Settle tid r) p with
       | Failed => 1
       | _ => 0
       end.
Proof.
  intros [Hreg _] Ht Hsid Hst Hr.
  destruct (Hreg _ _ _ Ht Hsid) as (_ & Hpast & _).
  unfold advance. rewrite (on_behalf_settle _ _ _ _ _ Ht).
  rewrite bool_decide_eq_true_2 by exact Hsid.
  assert (forall x, sessions (store s) !! sid = Some x ->
                    past_endpoint t = true ->
                    webrtcEndpoint x = None -> False) as Hep.
  { intros x Hx Hp Hnone. destruct (Hpast Hp) as [ep Hep'].
    unfold endpoint_of in Hep'. rewrite Hx in Hep'. congruence. }
  destruct p; destruct t; simpl in Hst; try contradiction;
    try match goal with H : _ /\ _ |- _ => destruct H end; simplify_eq;
    destruct r as [[| |]| |]; simpl in Hr; resume_cases Hr;
    unfold queue_of;
    repeat match goal with
           | E : kurento_playerEndpoint _ = _ |- _ => rewrite E
           | E : sessions _ !! _ = Some _ |- _ => rewrite E
           | E : pendingCandidates _ = _ |- _ => rewrite E
           end;
    try (exfalso; eapply Hep; [eassumption|reflexivity|assumption]);
    simpl; rewrite ?decide_True by reflexivity;
    (split; [intros t' Ho; simplify_eq; simpl; auto|]);
    (split; [simpl; eauto|]); (split; [discriminate|]);
    split; reflexivity.
Qed.

(** A handler that does not work for [sid] sends it no answer and
    leaves its session and its handler alone. *)
Lemma resume_elsewhere s tid t r sg sid :
  tasks s !! tid = Some t -> task_sid t <> Some sid ->
  resume t r (store s) = Some sg ->
  answers sid (seg_out sg) = []
  /\ sessions (seg_store sg) !! sid = sessions (store s) !! sid
  /\ forall t', seg_outcome sg = Await t' \/ In t' (seg_spawn sg) ->
                task_sid t' <> Some sid.
Proof.
  intros Ht Hne Hr. split; [|split].
  - destruct (resume_answers _ _ _ _ sid Hr) as [E|(E & _)];
      [exact E|contradiction].
  - apply (resume_other _ _ _ _ _ Hr Hne).
  - intros t' [Ho|Hin] Hk.
    + destruct (resume_offer _ _ _ _ _ _ Hr Ho Hk) as (E & _).
      contradiction.
    + rewrite (resume_spawn _ _ _ _ _ Hr Hin) in Hk. discriminate.
Qed.

(** An offer of [sid]. *)
Lemma offer_progress s sid sdpOffer p :
  offers_ok s -> tracks sid s p ->
  let sg := handleSdpOffer sid sdpOffer (store s) in
  let p' := advance sid s (Message sid (CLIENT_SDP_OFFER sdpOffer)) p in
  (p' = NoOffer <-> sessions (seg_store sg) !! sid = None)
  /\ (forall t', seg_outcome sg = Await t' ->
                 stands_at sid p' t' /\ p = NoOffer)
  /\ (p <> NoOffer -> p' = p)
  /\ length (List.filter is_giving_up (seg_out sg))
     = match p, p' with
       | NoOffer, Failed => 1
       | _, _ => 0
       end.
Proof.
  intros _ [Hno _]. simpl. rewrite decide_True by reflexivity.
  unfold handleSdpOffer.
  destruct (sessions (store s) !! sid) as [x|] eqn:Hs.
  - assert (p <> NoOffer) as Hp by (intros E; apply Hno in E; discriminate).
    simpl. rewrite Hs. destruct p; try contradiction;
      (split; [split; intros; discriminate|]);
      (split; [intros; discriminate|]); split; auto.
  - rewrite (proj2 Hno eq_refl).
    destruct (kurento_pipeline (store s)); simpl;
      rewrite lookup_insert_eq;
      (split; [split; intros; discriminate|]);
      (split; [intros t' E; simplify_eq; simpl; auto|]);
      split; auto; congruence.
Qed.

(** A message that is not an offer of [sid]. *)
Lemma dispatch_elsewhere sid' m st sid :
  (forall sdpOffer, m = CLIENT_SDP_OFFER sdpOffer -> sid' <> sid) ->
  (sessions (seg_store (dispatch sid' m st)) !! sid = None
   <-> sessions st !! sid = None)
  /\ forall t', seg_outcome (dispatch sid' m st) = Await t' ->
                task_sid t' <> Some sid.
Proof.
  intros Hm. destruct m as [|sdpOffer|c|]; simpl.
  - unfold handleStartPublish. destruct (kurento_client st); simpl;
      (split; [tauto|intros; simplify_eq; discriminate]).
  - specialize (Hm _ eq_refl). unfold handleSdpOffer.
    destruct (sessions st !! sid') eqn:Hs; simpl;
      [split; [tauto|intros; discriminate]|].
    destruct (kurento_pipeline st); simpl;
      rewrite lookup_insert_ne by exact Hm;
      (split; [tauto|intros; simplify_eq; simpl; congruence]).
  - unfold handleIceCandidate.
    destruct (sessions st !! sid') as [x|] eqn:Hs; simpl;
      [|split; [tauto|intros; discriminate]].
    destruct (webrtcEndpoint x); simpl;
      [split; [tauto|intros; simplify_eq; discriminate]|].
    split; [|intros; discriminate].
    destruct (decide (sid' = sid)) as [->|Hne].
    + rewrite lookup_alter_eq, Hs. simpl. split; intros; congruence.
    + rewrite lookup_alter_ne by exact Hne. tauto.
  - unfold handleDebugDot. destruct (kurento_pipeline st); simpl;
      (split; [tauto|intros; simplify_eq; discriminate]).
Qed.

Lemma classic_offer (sid' : string) (m : ClientMsg) (sid : string) :
  (exists sdpOffer, sid' = sid /\ m = CLIENT_SDP_OFFER sdpOffer)
  \/ (forall sdpOffer, m = CLIENT_SDP_OFFER sdpOffer -> sid' <> sid).
Proof.
  destruct m as [|sdpOffer|c|]; try (right; intros; discriminate).
  destruct (decide (sid' = sid)) as [->|Hne].
  - left. exists sdpOffer. auto.
  - right. intros _ _. exact Hne.
Qed.

Lemma newly_answered_same q : newly_answered q q = [].
Proof. destruct q; reflexivity. Qed.

Lemma newly_failed_same q : newly_failed q q = 0.
Proof. destruct q; reflexivity. Qed.

Lemma filter_uncaught (o : Outcome Task) :
  List.filter is_giving_up (uncaught o) = [].
Proof. destruct o; reflexivity. Qed.

Lemma answers_uncaught sid (o : Outcome Task) : answers sid (uncaught o) = [].
Proof. destruct o; reflexivity. Qed.

(** One step of the server against one step of [advance]. *)
Lemma step_progress s e s' out sid p :
  offers_ok s -> tracks sid s p -> step s e = Some (s', out) ->
  tracks sid s' (advance sid s e p)
  /\ answers sid out = newly_answered p (advance sid s e p)
  /\ length (if offer_step sid s e then List.filter is_giving_up out
             else [])
     = newly_failed p (advance sid s e p).
Proof.
  intros Hok [Hno Hst] H. pose proof Hok as [Hreg Huniq].
  pose proof newly_answered_same as Hsame1.
  pose proof newly_failed_same as Hsame2.
  apply step_view in H as [_ V].
  destruct V as [| | | |sid' m|tid r t sg Ht Hr|h ev];
    try (simpl; rewrite Hsame1, Hsame2;
         split; [split; assumption|split; reflexivity]).
  - (* a message *)
    rewrite install_out, answers_app, dispatch_answers, answers_uncaught,
      List.filter_app, filter_uncaught, !app_nil_r.
    destruct (dispatch_tasks sid' m (store s)) as [Hsp Hout].
    destruct (classic_offer sid' m sid) as [(sdpOffer & -> & ->)|Hm].
    + destruct (offer_progress s sid sdpOffer p Hok (conj Hno Hst))
        as (Hno' & Hnew & Hdup & Hfail).
      cbn [dispatch offer_step]. rewrite bool_decide_eq_true_2 by reflexivity.
      split; [split|split].
      * rewrite install_store. exact Hno'.
      * intros tid' t' Hl Hk.
        apply install_tasks in Hl as [[_ Ho]|[Hin|[_ Hl]]].
        -- apply (Hnew _ Ho).
        -- cbn [dispatch] in Hsp. rewrite Hsp in Hin. contradiction.
        -- pose proof (Hst _ _ Hl Hk) as Hold.
           rewrite Hdup; [exact Hold|].
           intros ->. destruct (Hreg _ _ _ Hl Hk) as [[x Hx] _].
           rewrite (proj1 Hno eq_refl) in Hx. discriminate.
      * destruct p; try (rewrite Hdup by discriminate); try reflexivity.
        simpl. rewrite decide_True by reflexivity.
        destruct (kurento_pipeline _); reflexivity.
      * rewrite Hfail.
        destruct p; try (rewrite Hdup by discriminate); reflexivity.
    + assert (advance sid s (Message sid' m) p = p) as ->.
      { destruct m as [|sdpOffer|c|]; try reflexivity. simpl.
        rewrite decide_False by (apply (Hm _ eq_refl)). reflexivity. }
      assert (offer_step sid s (Message sid' m) = false) as ->.
      { destruct m as [|sdpOffer|c|]; try reflexivity. simpl.
        apply bool_decide_eq_false_2. apply (Hm _ eq_refl). }
      rewrite Hsame1, Hsame2.
      destruct (dispatch_elsewhere sid' m (store s) sid Hm) as [Hs' Hk'].
      split; [split|split; reflexivity].
      * rewrite install_store, Hs'. exact Hno.
      * intros tid' t' Hl Hk.
        apply install_tasks in Hl as [[_ Ho]|[Hin|[_ Hl]]].
        -- exfalso. apply (Hk' _ Ho Hk).
        -- rewrite Hsp in Hin. contradiction.
        -- apply (Hst _ _ Hl Hk).
  - (* a promise settles *)
    unfold tracks. rewrite install_out, answers_app, answers_uncaught,
      List.filter_app, filter_uncaught, !app_nil_r, install_store.
    unfold offer_step. rewrite (on_behalf_settle _ _ _ _ _ Ht).
    destruct (decide (task_sid t = Some sid)) as [Hsid|Hother].
    + rewrite bool_decide_eq_true_2 by exact Hsid.
      pose proof (Hst _ _ Ht Hsid) as Hat.
      destruct (resume_progress _ _ _ _ _ _ _ Hok Ht Hsid Hat Hr)
        as (Hnext & _ & Hnot & Hans & Hfail).
      split; [split|split].
      * split; [intros E; contradiction|].
        intros Hnone. exfalso.
        destruct (Hreg _ _ _ Ht Hsid) as [Hs _].
        destruct (resume_registered _ _ _ _ sid Hr Hs) as [x Hx].
        congruence.
      * intros tid' t' Hl Hk.
        apply install_tasks in Hl as [[_ Ho]|[Hin|[Hne Hl]]].
        -- apply (Hnext _ Ho).
        -- rewrite (resume_spawn _ _ _ _ _ Hr Hin) in Hk. discriminate.
        -- exfalso. apply Hne. eapply Huniq; eassumption.
      * rewrite Hans. destruct p; destruct t; simpl in Hat;
          try contradiction; reflexivity.
      * rewrite Hfail. destruct p; destruct t; simpl in Hat;
          try contradiction; reflexivity.
    + rewrite bool_decide_eq_false_2 by exact Hother.
      assert (advance sid s (Settle tid r) p = p) as ->.
      { unfold advance. rewrite (on_behalf_settle _ _ _ _ _ Ht).
        rewrite bool_decide_eq_false_2 by exact Hother. reflexivity. }
      rewrite Hsame1, Hsame2.
      destruct (resume_elsewhere _ _ _ _ _ sid Ht Hother Hr)
        as (-> & Hs' & Hk').
      split; [split|split; reflexivity].
      * rewrite Hs'. exact Hno.
      * intros tid' t' Hl Hk.
        apply install_tasks in Hl as [[_ Ho]|[Hin|[_ Hl]]].
        -- exfalso. apply (Hk' t'); auto.
        -- exfalso. apply (Hk' t'); auto.
        -- apply (Hst _ _ Hl Hk).
  - (* an event of the media server *)
    simpl. rewrite fire_answers, Hsame1, Hsame2.
    split; [split; assumption|split; reflexivity].
Qed.

(** *** The handler is there while the offer is under way *)

Lemma stands_at_sid sid p t : stands_at sid p t -> task_sid t = Some sid.
Proof.
  destruct p, t; simpl; try contradiction; intros H;
    repeat match goal with
           | E : _ /\ _ |- _ => destruct E
           end; subst; reflexivity.
Qed.

Lemma install_keeps tid0 (sg : Seg Task) (m : gmap nat Task) n tid :
  tid <> tid0 -> tid < n ->
  tasks (install tid0 sg m n).1 !! tid = m !! tid.
Proof.
  intros Hne Hlt. rewrite install_tasks_eq, spawn_old by exact Hlt.
  destruct (seg_outcome sg); simpl.
  - apply lookup_delete_ne. congruence.
  - apply lookup_insert_ne. congruence.
  - apply lookup_delete_ne. congruence.
Qed.

Lemma install_parks tid0 (sg : Seg Task) (m : gmap nat Task) n t :
  seg_outcome sg = Await t -> tid0 < n ->
  tasks (install tid0 sg m n).1 !! tid0 = Some t.
Proof.
  intros Ho Hlt. rewrite install_tasks_eq, spawn_old by exact Hlt.
  rewrite Ho. simpl. apply lookup_insert_eq.
Qed.

Lemma fresh_lt (s : State Task) tid t :
  fresh s -> tasks s !! tid = Some t -> tid < next s.
Proof.
  intros Hf Ht. destruct (Nat.lt_ge_cases tid (next s)) as [H|H];
    [exact H|]. rewrite (Hf _ H) in Ht. discriminate.
Qed.

Lemma step_waits s e s' out sid p :
  offers_ok s -> fresh s -> tracks sid s p -> waits sid s p ->
  step s e = Some (s', out) ->
  waits sid s' (advance sid s e p).
Proof.
  intros Hok Hfr [Hno Hst] Hw H.
  apply step_view in H as [_ V].
  destruct V as [| | | |sid' m|tid r t sg Ht Hr|h ev]; try exact Hw.
  - (* a message *)
    destruct (classic_offer sid' m sid) as [(sdpOffer & -> & ->)|Hm].
    + destruct (offer_progress s sid sdpOffer p Hok (conj Hno Hst))
        as (_ & _ & Hdup & _).
      assert (p = NoOffer \/ p <> NoOffer) as [->|Hp]
        by (destruct p; (left; reflexivity) || (right; discriminate)).
      * assert (advance sid s (Message sid (CLIENT_SDP_OFFER sdpOffer))
                  NoOffer
                = match kurento_pipeline (store s) with
                  | Some _ => Creating
                  | None => Failed
                  end) as ->
          by (simpl; destruct (decide (sid = sid)); [reflexivity|congruence]).
        destruct (kurento_pipeline (store s)) as [pl|] eqn:Hpl;
          [intros _|intros Hu; discriminate Hu].
        exists (next s), (SdpOffer_createEndpoint sid sdpOffer).
        split; [|reflexivity].
        apply install_parks; [|lia]. simpl. unfold handleSdpOffer.
        rewrite (proj1 Hno eq_refl), Hpl. reflexivity.
      * rewrite (Hdup Hp). intros Hu.
        destruct (Hw Hu) as (tid & t & Ht & Hat).
        exists tid, t. split; [|exact Hat].
        pose proof (fresh_lt _ _ _ Hfr Ht) as Hlt.
        rewrite install_keeps by lia. exact Ht.
    + assert (advance sid s (Message sid' m) p = p) as ->.
      { destruct m as [|sdpOffer|c|]; try reflexivity. simpl.
        rewrite decide_False by (apply (Hm _ eq_refl)). reflexivity. }
      intros Hu. destruct (Hw Hu) as (tid & t & Ht & Hat).
      exists tid, t. split; [|exact Hat].
      pose proof (fresh_lt _ _ _ Hfr Ht) as Hlt.
      rewrite install_keeps by lia. exact Ht.
  - (* a promise settles *)
    pose proof (fresh_lt _ _ _ Hfr Ht) as Hlt0.
    destruct (decide (task_sid t = Some sid)) as [Hsid|Hother].
    + pose proof (Hst _ _ Ht Hsid) as Hat.
      destruct (resume_progress _ _ _ _ _ _ _ Hok Ht Hsid Hat Hr)
        as (Hnext & Hgo & _).
      intros Hu. rewrite Hu in Hgo. destruct Hgo as [t' Ho].
      exists tid, t'. split; [|apply (Hnext _ Ho)].
      apply install_parks; assumption.
    + assert (advance sid s (Settle tid r) p = p) as ->.
      { unfold advance. rewrite (on_behalf_settle _ _ _ _ _ Ht).
        rewrite bool_decide_eq_false_2 by exact Hother. reflexivity. }
      intros Hu. destruct (Hw Hu) as (tid1 & t1 & Ht1 & Hat).
      exists tid1, t1. split; [|exact Hat].
      pose proof (fresh_lt _ _ _ Hfr Ht1) as Hlt.
      rewrite install_keeps; [exact Ht1| |exact Hlt].
      intros ->. rewrite Ht in Ht1. injection Ht1 as ->.
      apply Hother. apply (stands_at_sid _ _ _ Hat).
Qed.

Lemma advance_answered sid s e a :
  advance sid s e (Answered a) = Answered a.
Proof.
  destruct e as [| | |sid' [| | |]|tid r|]; simpl; try reflexivity.
  - destruct (decide _); reflexivity.
  - destruct (tasks s !! tid); [|reflexivity].
    destruct (bool_decide _); [|reflexivity].
    destruct r as [[| |]| |]; reflexivity.
Qed.

Lemma advance_failed sid s e : advance sid s e Failed = Failed.
Proof.
  destruct e as [| | |sid' [| | |]|tid r|]; simpl; try reflexivity.
  - destruct (decide _); reflexivity.
  - destruct (tasks s !! tid); [|reflexivity].
    destruct (bool_decide _); [|reflexivity].
    destruct r as [[| |]| |]; reflexivity.
Qed.

Lemma progress_answered sid evs : forall s a,
  progress sid s evs (Answered a) = Answered a.
Proof.
  induction evs as [|e evs IH]; intros s a; simpl; [reflexivity|].
  destruct (step s e) as [[s1 o1]|]; [|reflexivity].
  rewrite advance_answered. apply IH.
Qed.

Lemma progress_failed sid evs : forall s,
  progress sid s evs Failed = Failed.
Proof.
  induction evs as [|e evs IH]; intros s; simpl; [reflexivity|].
  destruct (step s e) as [[s1 o1]|]; [|reflexivity].
  rewrite advance_failed. apply IH.
Qed.

Lemma offer_failures_cons sid s e evs s1 o1 :
  step s e = Some (s1, o1) ->
  offer_failures sid s (e :: evs)
  = (if offer_step sid s e then List.filter is_giving_up o1 else [])
    ++ offer_failures sid s1 evs.
Proof. intros H. unfold offer_failures. simpl. rewrite H. reflexivity. Qed.

(** A run of the server against [progress]. *)
Lemma run_progress sid evs : forall s p s' out,
  offers_ok s -> fresh s -> tracks sid s p -> waits sid s p ->
  run s evs = Some (s', out) ->
  tracks sid s' (progress sid s evs p)
  /\ waits sid s' (progress sid s evs p)
  /\ answers sid out = newly_answered p (progress sid s evs p)
  /\ length (offer_failures sid s evs)
     = newly_failed p (progress sid s evs p).
Proof.
  induction evs as [|e evs IH]; intros s p s' out Hok Hfr Htr Hw H.
  - simpl in H. injection H as <- <-. simpl.
    rewrite newly_answered_same, newly_failed_same. auto.
  - apply run_cons in H as (s1 & o1 & o2 & H1 & H2 & ->).
    destruct (step_progress _ _ _ _ sid p Hok Htr H1) as (Htr1 & Ha1 & Hf1).
    pose proof (step_waits _ _ _ _ sid p Hok Hfr Htr Hw H1) as Hw1.
    pose proof (step_offers_ok _ _ _ _ Hok H1) as Hok1.
    pose proof (step_fresh _ _ _ _ _ _ Hfr H1) as Hfr1.
    destruct (IH _ _ _ _ Hok1 Hfr1 Htr1 Hw1 H2) as (Htr2 & Hw2 & Ha2 & Hf2).
    rewrite (offer_failures_cons _ _ _ _ _ _ H1), length_app, Hf1, Hf2.
    rewrite answers_app, Ha1, Ha2. simpl. rewrite H1.
    split; [exact Htr2|]. split; [exact Hw2|].
    destruct p as [| | | |a|a|a|];
      rewrite ?advance_answered, ?advance_failed,
        ?progress_answered, ?progress_failed; try (split; reflexivity);
      destruct (advance sid s e _) as [| | | |a'|a'|a'|];
      rewrite ?progress_answered, ?progress_failed; try (split; reflexivity);
      destruct (progress sid s1 evs _); split; reflexivity.
Qed.


End Player2ManyFacts.

(** ** The callback-style copy: the handlers, piece by piece *)

Module PlainFacts.
Import Plain.

Lemma count_if_map_none {A B : Type} (p : B -> bool) (f : A -> B) l :
  (forall x, p (f x) = false) -> count_if p (map f l) = 0.
Proof.
  intros Hf. induction l as [|x l IH]; simpl; [reflexivity|].
  rewrite Hf, IH. reflexivity.
Qed.




End PlainFacts.

(** * The claims *)

Section Claims.
Import Player2Many Player2ManyObs Player2ManyFacts Stated Scenario.
Import Player2ManyTrace.

(** ** C1: creation of the pipeline and of the source endpoint *)




(** ** C2: order in which candidates reach the endpoint *)

(** C2, as stated, fails on both counts.  A candidate that arrives
    after the endpoint was stored is handed over at once, ahead of the
    candidates still in the queue; and that queue is not empty although
    the endpoint exists. *)
Lemma C2_counterexample :
  ~ candidates_in_arrival_order /\ ~ queue_empty_with_endpoint.
Proof.
  split; intros H.
  - destruct (run init overtaking) as [[s out]|] eqn:E;
      [|vm_compute in E; discriminate].
    destruct (H _ _ _ "X" E) as [later Hl].
    vm_compute in Hl. discriminate.
  - destruct (run init overtaking) as [[s out]|] eqn:E;
      [|vm_compute in E; discriminate].
    specialize (H _ _ _ "X" E).
    vm_compute in E. injection E as <- <-.
    assert (is_Some (Some 20)) as Hs by eauto.
    specialize (H Hs). vm_compute in H. discriminate.
Qed.

(** C2, amended: for each viewer, the candidates that arrive while its
    session has no endpoint are queued in arrival order and the queue is
    emptied from its head, so the queued candidates reach the endpoint
    in arrival order; the candidates that arrive once the endpoint is
    stored are handed over on arrival, so they too reach it in arrival
    order; what the endpoint receives is an interleaving of the two
    streams. *)
Theorem C2_candidates_interleave evs s out sid :
  run init evs = Some (s, out) ->
  exists drained,
    queued sid init evs = drained ++ queue_of (store s) sid
    /\ Merge drained (direct sid init evs) (applied sid init evs).
Proof.
  intros H.
  destruct (run_fifo _ _ _ _ sid offers_ok_init H) as (d & E & M).
  exists d. split; [|exact M].
  rewrite <- E. reflexivity.
Qed.

Lemma C2_witness :
  exists s out drained,
    run init negotiated = Some (s, out)
    /\ queued "X" init negotiated = drained ++ queue_of (store s) "X"
    /\ Merge drained (direct "X" init negotiated)
         (applied "X" init negotiated).
Proof.
  eassert (run init negotiated = Some (_, _)) as E
    by (vm_compute; reflexivity).
  destruct (C2_candidates_interleave negotiated _ _ "X" E) as (d & E1 & E2).
  do 2 eexists. exists d. split; [exact E|]. split; assumption.
Defined.

(** ** C3: one session per connection identity *)

(** C3: along any run, [new Session] has run once for an identity that
    is in the registry and never for one that is not, hence at most
    once; and an offer under a registered identity leaves the state as
    it is, parks no handler, and produces the warning only. *)
Theorem C3_one_session_per_identity evs s out sid :
  run init evs = Some (s, out) ->
  count_if (is_New sid) out = registrations (store s) sid
  /\ count_if (is_New sid) out <= 1
  /\ (is_Some (sessions (store s) !! sid) -> alive s = true ->
      forall sdpOffer,
        step s (Message sid (CLIENT_SDP_OFFER sdpOffer))
        = Some (mkState (store s) (tasks s) (S (next s)) true,
                [ELog Warn "Skip adding session, already exists:"])).
Proof.
  intros H. pose proof (run_new _ _ _ _ sid H) as Hn.
  assert (registrations init_store sid = 0) as H0 by reflexivity.
  simpl in Hn. rewrite H0, Nat.add_0_r in Hn. split; [exact Hn|]. split.
  - rewrite Hn. unfold registrations. destruct (_ !! _); lia.
  - intros Hs Ha sdpOffer. apply duplicate_offer; [exact Ha| |exact Hs].
    eapply run_fresh; [apply fresh_init|exact H].
Qed.

Lemma C3_witness :
  exists s out,
    run init two_offers = Some (s, out)
    /\ count_if (is_New "X") out <= 1.
Proof.
  eexists. eexists. split; [vm_compute; reflexivity|].
  refine (proj1 (proj2 (C3_one_session_per_identity two_offers _ _ "X" _))).
  vm_compute. reflexivity.
Defined.

(** ** C4: pipeline and source endpoint, together or not *)

(** C4, as stated, fails: when the creation of the player fails, the
    pipeline stays stored and no source endpoint exists. *)
Lemma C4_counterexample : ~ publisher_all_or_nothing.
Proof.
  intros H.
  destruct (run init player_fails) as [[s out]|] eqn:E;
    [|vm_compute in E; discriminate].
  specialize (H _ _ _ E). vm_compute in E. injection E as <- <-.
  simpl in H. destruct H as [_ H].
  destruct H as [x Hx]; [eauto|discriminate].
Qed.

(** C4, amended: a source endpoint is stored only when a pipeline is;
    the converse does not hold, because the pipeline is stored as soon
    as it is created.  A rejected creation of the pipeline or of the
    source endpoint leaves the stored state as it is at that moment,
    records the error and ends the handler; a failed [play] comes back
    with undefined like a successful one, changes nothing and records
    nothing.  And what has been stored of the publisher stays stored,
    whatever happens next. *)
Theorem C4_endpoint_only_with_pipeline evs s out :
  run init evs = Some (s, out) ->
  (is_Some (kurento_playerEndpoint (store s)) ->
   is_Some (kurento_pipeline (store s)))
  /\ (forall tid t,
         alive s = true -> tasks s !! tid = Some t ->
         (t = StartPublish_create \/ t = StartPublish_createPlayer ->
          forall err,
            step s (Settle tid (Rejected err))
            = Some (mkState (store s) (delete tid (tasks s)) (next s) true,
                    [promise_error]))
         /\ (t = StartPublish_play ->
             step s (Settle tid (Resolved VUnit))
             = Some (mkState (store s) (delete tid (tasks s)) (next s)
                       true, [])))
  /\ (forall evs' s' out',
         run s evs' = Some (s', out') ->
         (is_Some (kurento_pipeline (store s)) ->
          is_Some (kurento_pipeline (store s')))
         /\ (is_Some (kurento_playerEndpoint (store s)) ->
             is_Some (kurento_playerEndpoint (store s')))).
Proof.
  intros H. split; [apply (run_publisher_ok _ _ _ H)|]. split.
  - intros tid t. apply publish_failure.
  - intros evs' s' out'. apply run_publisher_kept.
Qed.

Lemma C4_witness :
  exists s out,
    run init publishing = Some (s, out)
    /\ kurento_playerEndpoint (store s) = Some 11
    /\ is_Some (kurento_pipeline (store s))
    /\ step s (Settle 1 (Rejected "no such media"))
       = Some (mkState (store s) (delete 1 (tasks s)) (next s) true,
               [promise_error])
    /\ step s (Settle 0 (Resolved VUnit))
       = Some (mkState (store s) (delete 0 (tasks s)) (next s) true, []).
Proof.
  eassert (run init publishing = Some (_, _)) as E
    by (vm_compute; reflexivity).
  destruct (C4_endpoint_only_with_pipeline publishing _ _ E)
    as (H1 & H2 & _).
  do 2 eexists. split; [exact E|]. split; [reflexivity|].
  split; [apply H1; simpl; eauto|]. split.
  - exact (proj1 (H2 1 StartPublish_createPlayer eq_refl eq_refl)
             (or_intror eq_refl) "no such media").
  - exact (proj2 (H2 0 StartPublish_play eq_refl eq_refl) eq_refl).
Defined.

(** ** C5: when the answer is sent *)

(** C5: along any run of the server, whatever the interleaving, what a
    viewer has been sent as answers and what its offer handler has
    recorded when giving up are told by how far its offer has come.
    The answer is sent once, when the identity was new, a pipeline and a
    source endpoint were there, the creation of the endpoint, the
    connection to the source, the processing of the offer and the
    gathering of candidates succeeded and the queue was emptied;
    otherwise no answer is sent.  When one of these steps fails the
    handler leaves one error record and sends no answer.  So a viewer
    is sent at most one answer.  As long as the offer is under way its
    handler is there, waiting for the request of that stage; once the
    answer is sent or the handler has given up, no handler of that
    viewer is left. *)
Theorem C5_answer_iff_every_step_succeeds evs s out sid :
  run init evs = Some (s, out) ->
  answers sid out
  = match progress sid init evs NoOffer with
    | Answered sdpAnswer => [sdpAnswer]
    | _ => []
    end
  /\ length (offer_failures sid init evs)
     = match progress sid init evs NoOffer with
       | Failed => 1
       | _ => 0
       end
  /\ length (answers sid out) <= 1
  /\ (if under_way (progress sid init evs NoOffer)
      then exists tid t,
             tasks s !! tid = Some t
             /\ stands_at sid (progress sid init evs NoOffer) t
      else forall tid t,
             tasks s !! tid = Some t -> task_sid t <> Some sid).
Proof.
  intros H.
  assert (tracks sid init NoOffer) as Htr.
  { split; [split; reflexivity|]. intros tid t Ht. discriminate. }
  assert (waits sid init NoOffer) as Hw by (intros Hu; discriminate).
  destruct (run_progress sid evs init NoOffer s out
              offers_ok_init fresh_init Htr Hw H)
    as ([_ Hst] & Hw' & Ha & Hf).
  split; [exact Ha|]. split; [exact Hf|]. split.
  - rewrite Ha. destruct (progress _ _ _ _); simpl; lia.
  - destruct (under_way (progress sid init evs NoOffer)) eqn:Hu.
    + apply Hw'. exact Hu.
    + intros tid t Ht Hsid. specialize (Hst _ _ Ht Hsid).
      destruct (progress sid init evs NoOffer); try discriminate Hu;
        destruct t; exact Hst.
Qed.

Lemma C5_witness :
  exists s out,
    run init late_player = Some (s, out)
    /\ progress "X" init late_player NoOffer = Answered "v=0 answer"
    /\ answers "X" out = ["v=0 answer"]
    /\ offer_failures "X" init late_player = [].
Proof.
  eassert (run init late_player = Some (_, _)) as E
    by (vm_compute; reflexivity).
  destruct (C5_answer_iff_every_step_succeeds late_player _ _ "X" E)
    as (H1 & H2 & _).
  do 2 eexists. split; [exact E|]. split; [vm_compute; reflexivity|].
  split; [exact H1|]. apply length_zero_iff_nil. exact H2.
Defined.

(** ** C6: the drain of the queue *)

(** C6: the drain loop, started on a session that has its endpoint and
    run to its end, hands every queued candidate to that endpoint in the
    order of the queue and leaves the queue empty, however each of the
    requests ends; each failure leaves one error record and the answer
    is sent all the same. *)
Theorem C6_drain_applies_all_in_order
    sid sdpAnswer ep (rs : list (Reply unit)) :
  forall st session,
  sessions st !! sid = Some session ->
  webrtcEndpoint session = Some ep ->
  length rs = length (pendingCandidates session) ->
  exists sg st' out,
    drain sid sdpAnswer st = Some sg
    /\ alone sg (map settle_unit rs) = Some (st', out)
    /\ calls out = map (AddIceCandidate ep) (pendingCandidates session)
    /\ queue_of st' sid = []
    /\ count_if is_error out = count_if failed rs
    /\ answers sid out = [sdpAnswer]
    /\ emitted out = [(sid, SERVER_SDP_ANSWER sdpAnswer)].
Proof.
  induction rs as [|r rs IH]; intros st [sock ep' q] Hs Hep Hlen;
    simpl in *; subst ep'.
  - destruct q; [|discriminate]. unfold drain. rewrite Hs. simpl.
    do 3 eexists. split; [reflexivity|]. split; [reflexivity|].
    simpl. rewrite decide_True by reflexivity.
    unfold queue_of. rewrite Hs. repeat split; reflexivity.
  - destruct q as [|c q]; [discriminate|]. injection Hlen as Hlen.
    set (st1 := set_pendingCandidates sid q st).
    assert (sessions st1 !! sid = Some (mkSession sock (Some ep) q)) as Hs1.
    { unfold st1; simpl. rewrite lookup_alter_eq, Hs. reflexivity. }
    destruct (IH st1 _ Hs1 eq_refl Hlen)
      as (sg1 & st' & out1 & Hd1 & Ha1 & Hc1 & Hq1 & He1 & Hn1 & Hm1).
    simpl in Hc1.
    assert (drain sid sdpAnswer st
            = Some (await st1 [ECall (AddIceCandidate ep c)]
                      (SdpOffer_drain sid sdpAnswer true))) as Hd.
    { unfold drain. rewrite Hs. simpl. unfold handleIceCandidate.
      fold st1. rewrite Hs1. reflexivity. }
    assert (resume (SdpOffer_drain sid sdpAnswer true) (settle_unit r) st1
            = Some (mkSeg (seg_store sg1)
                      (addIceCandidate_settled (settle_unit r)
                       ++ seg_out sg1)
                      (seg_spawn sg1) (seg_outcome sg1))) as Hr.
    { destruct r; simpl; rewrite Hd1; reflexivity. }
    do 3 eexists. split; [exact Hd|]. cbn [alone map await seg_outcome
                                            seg_store seg_out].
    rewrite Hr. destruct sg1 as [st1' o1 sp1 oc1]. simpl.
    rewrite alone_prefix, Ha1. split; [reflexivity|].
    simpl. rewrite calls_app, answers_app, count_if_app, Hc1, Hq1, He1, Hn1.
    assert (emitted (addIceCandidate_settled (settle_unit r) ++ out1)
            = emitted out1) as -> by (destruct r; reflexivity).
    destruct r; simpl; repeat split; auto.
Qed.

Lemma C6_witness :
  exists sg st' out,
    drain "X" "v=0 answer" queued_store = Some sg
    /\ alone sg (map settle_unit [Fail "rejected"; Ok tt]) = Some (st', out)
    /\ calls out = [AddIceCandidate 20 c1; AddIceCandidate 20 c2]
    /\ queue_of st' "X" = []
    /\ count_if is_error out = 1
    /\ answers "X" out = ["v=0 answer"]
    /\ emitted out = [("X", SERVER_SDP_ANSWER "v=0 answer")].
Proof.
  apply (C6_drain_applies_all_in_order "X" "v=0 answer" 20
           [Fail "rejected"; Ok tt] queued_store
           (mkSession "X" (Some 20) [c1; c2]));
    reflexivity.
Defined.

(** ** C7: what a closed connection leaves behind *)

(** C7, as stated, fails: after viewer X's connection has closed, its
    session is still in the registry. *)
Lemma C7_counterexample : ~ close_removes_session.
Proof.
  intros H.
  destruct (run init (early_viewer ++ [SocketDisconnect "X"]))
    as [[s out]|] eqn:E; [|vm_compute in E; discriminate].
  specialize (H _ _ _ _ E). vm_compute in E. injection E as <- <-.
  vm_compute in H. discriminate.
Qed.

(** C7, amended: the server listens to no close event and deletes no
    registry entry.  A session, once registered, stays registered
    whatever happens next; the close of its connection changes nothing;
    and an offer from a new connection that carries the same identity
    is turned down as a duplicate, the old session staying in place. *)
Theorem C7_sessions_are_never_removed evs1 s1 out1 evs2 s2 out2 sid :
  run init evs1 = Some (s1, out1) ->
  is_Some (sessions (store s1) !! sid) ->
  run s1 evs2 = Some (s2, out2) ->
  is_Some (sessions (store s2) !! sid)
  /\ (alive s2 = true ->
      step s2 (SocketDisconnect sid) = Some (s2, [])
      /\ forall sdpOffer,
           step s2 (Message sid (CLIENT_SDP_OFFER sdpOffer))
           = Some (mkState (store s2) (tasks s2) (S (next s2)) true,
                   [ELog Warn "Skip adding session, already exists:"])).
Proof.
  intros H1 Hs H2.
  pose proof (run_registered _ _ _ _ _ H2 Hs) as Hs2.
  split; [exact Hs2|]. intros Ha. split.
  - unfold step_with. rewrite Ha. reflexivity.
  - intros sdpOffer. apply duplicate_offer; [exact Ha| |exact Hs2].
    eapply run_fresh; [|exact H2].
    eapply run_fresh; [apply fresh_init|exact H1].
Qed.

Lemma C7_witness :
  exists s1 out1 s2 out2,
    run init early_viewer = Some (s1, out1)
    /\ run s1 [SocketDisconnect "X"; SocketConnect "X"] = Some (s2, out2)
    /\ is_Some (sessions (store s2) !! "X").
Proof.
  do 4 eexists. split; [vm_compute; reflexivity|].
  split; [vm_compute; reflexivity|].
  refine (proj1 (C7_sessions_are_never_removed early_viewer _ _
                   [SocketDisconnect "X"; SocketConnect "X"] _ _ "X"
                   _ _ _)).
  - vm_compute. reflexivity.
  - vm_compute. eauto.
  - vm_compute. reflexivity.
Defined.

(** ** C8: the two graphs of the debug dump *)

(** C8, as stated, fails.  When the request for the pipeline's graph
    fails, the promise resolves with undefined; on a runtime whose
    [Fs.writeFile] refuses undefined the handler ends there and the
    endpoint's graph is not asked for.  And when there is no pipeline
    the handler records one error and returns: nothing is attempted for
    the endpoint. *)
Lemma C8_counterexample : ~ dumps_independent /\ ~ dump_attempts_both.
Proof.
  split; intros H.
  - destruct (run init publish) as [[s out]|] eqn:E;
      [|vm_compute in E; discriminate].
    destruct (run s dump) as [[s' out']|] eqn:E';
      [|vm_compute in E; injection E as <- <-; vm_compute in E';
        discriminate].
    assert (next s = 1) as Hn
      by (vm_compute in E; injection E as <- _; reflexivity).
    specialize (H s "A" 10 11 (Missing false) (Text "digraph {}")
                  (Ok tt) (Ok tt) s' out').
    rewrite Hn in H.
    vm_compute in E. injection E as <- <-.
    specialize (H eq_refl eq_refl eq_refl E').
    vm_compute in E'. injection E' as <- <-. simpl in H.
    destruct H as [H|[H|[]]]; discriminate.
  - specialize (H [] init [] "A" _ _ eq_refl eq_refl eq_refl).
    vm_compute in H. discriminate.
Qed.

(** C8, amended: without a pipeline the handler records one error and
    returns.  With a pipeline and a source endpoint it asks for the
    pipeline's graph first.  If that promise is rejected, the handler
    records the error and returns.  Otherwise it calls [Fs.writeFile]
    for [pipeline.dot], with the graph or, when the request failed, with
    undefined; if [Fs.writeFile] refuses undefined, the handler ends
    there with its promise rejected and unhandled.  In these two cases
    nothing is asked about the endpoint.  In the others the endpoint's
    graph is asked for, however the write of [pipeline.dot] ends, and
    the same happens with [playerEndpoint.dot], the first export staying
    as it is.  Each rejected request and each failed write leaves one
    error record. *)
Theorem C8_dump_stops_at_first_failed_request s sid :
  alive s = true ->
  (kurento_pipeline (store s) = None ->
   step s (Message sid CLIENT_DEBUG_DOT)
   = Some (mkState (store s) (delete (next s) (tasks s)) (S (next s)) true,
           [promise_error]))
  /\ (forall pipeline player pipelineDot playerDot w1 w2,
         kurento_pipeline (store s) = Some pipeline ->
         kurento_playerEndpoint (store s) = Some player ->
         exists s' out,
           run s (Message sid CLIENT_DEBUG_DOT
                  :: debug_schedule (next s) pipelineDot playerDot w1 w2)
           = Some (s', out)
           /\ calls out
              = GetGstreamerDot pipeline
                :: written "pipeline.dot" pipelineDot
                ++ (if goes_on pipelineDot then
                      GetElementGstreamerDot player
                      :: written "playerEndpoint.dot" playerDot
                    else [])
           /\ count_if is_uncaught out
              = (if goes_on pipelineDot then
                   if throws playerDot then 1 else 0
                 else if throws pipelineDot then 1 else 0)
           /\ count_if is_error out
              = (if goes_on pipelineDot then
                   (if failed w1 then 1 else 0)
                   + (if goes_on playerDot then
                        if failed w2 then 1 else 0
                      else if caught playerDot then 1 else 0)
                 else if caught pipelineDot then 1 else 0)).
Proof.
  intros Ha. split.
  { intros Hp. rewrite step_message by exact Ha.
    cbn [dispatch]. unfold handleDebugDot. rewrite Hp. reflexivity. }
  intros pipeline player pipelineDot playerDot w1 w2 Hp Hpl.
  unfold debug_schedule.
  cbn [run_with]. rewrite step_message by exact Ha.
  cbn [dispatch]. unfold handleDebugDot. rewrite Hp.
  unfold install, await. cbn [seg_spawn seg_outcome seg_store seg_out
                              spawn park uncaught].
  assert (forall g, goes_on g = true ->
            resume DebugDot_pipeline (settle_graph g) (store s)
            = Some (mkSeg (store s)
                      (map ECall (written "pipeline.dot" g)
                       ++ [ECall (GetElementGstreamerDot player)])
                      [DebugDot_written "pipeline.dot"]
                      (Await DebugDot_player))) as Hfirst.
  { intros [dot|[]|err] Hg; try discriminate Hg;
      cbn [resume settle_graph]; rewrite Hpl; reflexivity. }
  assert (forall g, goes_on g = true ->
            resume DebugDot_player (settle_graph g) (store s)
            = Some (mkSeg (store s)
                      (map ECall (written "playerEndpoint.dot" g))
                      [DebugDot_written "playerEndpoint.dot"] Done))
    as Hsecond.
  { intros [dot|[]|err] Hg; try discriminate Hg; reflexivity. }
  destruct (goes_on pipelineDot) eqn:G1.
  2:{ destruct pipelineDot as [dot|[]|err]; try discriminate G1;
        (erewrite step_settle;
           [|reflexivity|apply lookup_insert_eq|reflexivity]);
        cbn; do 2 eexists; (split; [reflexivity|]);
        repeat split; reflexivity. }
  erewrite step_settle;
    [|reflexivity|apply lookup_insert_eq|apply (Hfirst _ G1)].
  unfold install. cbn [seg_spawn seg_outcome seg_store seg_out
                       spawn park uncaught tasks next store].
  cbn [run_with].
  erewrite step_settle;
    [|reflexivity|apply lookup_insert_eq
     |instantiate (1 := ret (store s)
                          (if failed w1 then [ELog Error "ERROR:"]
                           else [ELog Info "Saved DOT file: pipeline.dot"]));
      destruct w1; reflexivity].
  unfold install, ret. cbn [seg_spawn seg_outcome seg_store seg_out
                       spawn park uncaught tasks next store].
  destruct (goes_on playerDot) eqn:G2.
  2:{ destruct playerDot as [dot|[]|err]; try discriminate G2;
        (erewrite step_settle;
           [|reflexivity
            |cbn [tasks]; rewrite lookup_delete_ne, lookup_insert_ne by lia;
             apply lookup_insert_eq
            |reflexivity]);
        cbn [run_with install seg_spawn seg_outcome seg_store seg_out
             spawn park uncaught tasks next store ret];
        do 2 eexists; (split; [reflexivity|]);
        rewrite ?calls_app, ?count_if_app;
        destruct pipelineDot as [dot1|[]|err1]; try discriminate G1;
        destruct w1; repeat split; reflexivity. }
  erewrite step_settle;
    [|reflexivity
     |cbn [tasks]; rewrite lookup_delete_ne, lookup_insert_ne by lia;
      apply lookup_insert_eq
     |apply (Hsecond _ G2)].
  unfold install. cbn [seg_spawn seg_outcome seg_store seg_out
                       spawn park uncaught tasks next store].
  cbn [run_with].
  erewrite step_settle;
    [|reflexivity|apply lookup_insert_eq
     |instantiate (1 := ret (store s)
                          (if failed w2 then [ELog Error "ERROR:"]
                           else [ELog Info
                                   "Saved DOT file: playerEndpoint.dot"]));
      destruct w2; reflexivity].
  cbn. do 2 eexists. split; [reflexivity|].
  rewrite ?calls_app, ?count_if_app.
  destruct pipelineDot as [dot1|[]|err1]; try discriminate G1;
    destruct playerDot as [dot2|[]|err2]; try discriminate G2;
    destruct w1, w2; repeat split; reflexivity.
Qed.

Lemma C8_witness :
  exists s' out,
    run (mkState queued_store ∅ 0 true)
      (Message "A" CLIENT_DEBUG_DOT
       :: debug_schedule 0 (Missing true) (Missing false)
            (Fail "EACCES") (Ok tt))
    = Some (s', out)
    /\ calls out
       = [GetGstreamerDot 10; WriteFile "pipeline.dot" None;
          GetElementGstreamerDot 11; WriteFile "playerEndpoint.dot" None]
    /\ count_if is_uncaught out = 1
    /\ count_if is_error out = 1.
Proof.
  apply (proj2 (C8_dump_stops_at_first_failed_request
                  (mkState queued_store ∅ 0 true) "A" eq_refl)
           10 11 (Missing true) (Missing false) (Fail "EACCES") (Ok tt));
    reflexivity.
Defined.

(** ** C9: failures of backend requests *)




(** ** C10: a session whose offer failed before it got an endpoint *)

(** C10: when an offer handler fails after it registered its session
    and before it stored an endpoint (the offer found no pipeline, or
    the creation of the endpoint was rejected), then whatever happens
    next the session stays registered without endpoint and without
    offer handler, every candidate of that connection that arrived since
    is in its queue, behind those that were there, and nothing has been
    taken out; and from then on an offer of that connection is turned
    down as a duplicate, and a candidate of that connection is queued
    while nothing is sent to the media server. *)
Theorem C10_failed_offer_stalls_the_session
    evs0 s0 out0 e s1 out1 sid evs s out :
  run init evs0 = Some (s0, out0) ->
  step s0 e = Some (s1, out1) ->
  offer_fails_early s0 e sid ->
  run s1 evs = Some (s, out) ->
  stalled s sid
  /\ queue_of (store s) sid = queue_of (store s1) sid ++ ice_from sid evs
  /\ (alive s = true ->
      (forall sdpOffer,
          step s (Message sid (CLIENT_SDP_OFFER sdpOffer))
          = Some (mkState (store s) (tasks s) (S (next s)) true,
                  [ELog Warn "Skip adding session, already exists:"]))
      /\ (forall c,
             exists s',
               step s (Message sid (CLIENT_ICE_CANDIDATE c)) = Some (s', [])
               /\ queue_of (store s') sid = queue_of (store s) sid ++ [c]
               /\ endpoint_of (store s') sid = None)).
Proof.
  intros H0 He Hfail H.
  pose proof (early_failure_stalls _ _ _ _ _
                (run_offers_ok _ _ _ H0) He Hfail) as Hst1.
  destruct (run_stalled _ _ _ _ _ Hst1 H) as [Hst Hq].
  split; [exact Hst|]. split; [exact Hq|]. intros Ha. split.
  - intros sdpOffer. apply duplicate_offer; [exact Ha| |apply Hst].
    eapply run_fresh; [|exact H].
    eapply step_fresh; [|exact He].
    eapply run_fresh; [apply fresh_init|exact H0].
  - intros c. apply stalled_candidate; assumption.
Qed.

Lemma C10_witness :
  exists s0 out0 s1 out1 s out,
    run init [KurentoConnected false; SocketConnect "X"] = Some (s0, out0)
    /\ step s0 (Message "X" (CLIENT_SDP_OFFER "v=0 offer"))
       = Some (s1, out1)
    /\ run s1 [Message "X" (CLIENT_ICE_CANDIDATE c1);
               Message "X" (CLIENT_SDP_OFFER "v=0 offer");
               Message "X" (CLIENT_ICE_CANDIDATE c2)] = Some (s, out)
    /\ stalled s "X"
    /\ queue_of (store s) "X" = [c1; c2].
Proof.
  do 6 eexists. split; [vm_compute; reflexivity|].
  split; [vm_compute; reflexivity|]. split; [vm_compute; reflexivity|].
  pose proof (C10_failed_offer_stalls_the_session
                [KurentoConnected false; SocketConnect "X"] _ _
                (Message "X" (CLIENT_SDP_OFFER "v=0 offer")) _ _ "X"
                [Message "X" (CLIENT_ICE_CANDIDATE c1);
                 Message "X" (CLIENT_SDP_OFFER "v=0 offer");
                 Message "X" (CLIENT_ICE_CANDIDATE c2)] _ _
                eq_refl eq_refl
                (or_introl (ex_intro _ "v=0 offer"
                              (conj eq_refl (conj eq_refl eq_refl))))
                eq_refl) as (Hst & Hq & _).
  split; [exact Hst|exact Hq].
Defined.

End Claims.

(** ** player2many/server.js: more about sessions and candidates *)

Module Player2ManyMore.
Import Player2Many Player2ManyObs Player2ManyFacts Scenario.
Import Player2ManyRequests.

(** *** The endpoint of a session *)

Lemma step_endpoint_kept s e s' out sid ep :
  offers_ok s -> step s e = Some (s', out) ->
  endpoint_of (store s) sid = Some ep ->
  endpoint_of (store s') sid = Some ep.
Proof.
  intros [Hreg _] H Hep. apply step_view in H as [_ V].
  assert (is_Some (sessions (store s) !! sid)) as Hs
    by (apply endpoint_of_registered; rewrite Hep; eauto).
  destruct V as [| | | |sid' m|tid r t sg Ht Hr|]; simpl; try exact Hep.
  - rewrite install_store, dispatch_endpoint by exact Hs. exact Hep.
  - rewrite install_store.
    destruct (decide (task_sid t = Some sid)) as [Hsid|Hother].
    + destruct (Hreg _ _ _ Ht Hsid) as (_ & _ & Hnone).
      destruct t; simpl in Hsid; simplify_eq;
        try (specialize (Hnone eq_refl); congruence);
        destruct r as [[| |]| |]; simpl in Hr; resume_cases Hr;
        rewrite ?endpoint_of_listener, ?endpoint_of_set_pending;
        exact Hep.
    + unfold endpoint_of in *.
      rewrite (resume_other _ _ _ _ _ Hr Hother). exact Hep.
Qed.

(** Once a session holds an endpoint, it holds that endpoint for the
    rest of the run: [handleSdpOffer] stores an endpoint only in a
    session that has none, and nothing else writes the field. *)
Theorem endpoint_is_never_replaced evs1 s1 out1 evs2 s2 out2 sid ep :
  run init evs1 = Some (s1, out1) ->
  run s1 evs2 = Some (s2, out2) ->
  endpoint_of (store s1) sid = Some ep ->
  endpoint_of (store s2) sid = Some ep.
Proof.
  intros H1 H2.
  pose proof (run_offers_ok _ _ _ H1) as Hok.
  clear H1. revert s1 s2 out2 Hok H2.
  induction evs2 as [|e evs IH]; intros s1 s2 out2 Hok H2 Hep.
  - injection H2 as <- _. exact Hep.
  - apply run_cons in H2 as (s & o1 & o2 & He & Hr & _).
    apply (IH _ _ _ (step_offers_ok _ _ _ _ Hok He) Hr).
    eapply step_endpoint_kept; eassumption.
Qed.

Lemma endpoint_is_never_replaced_witness :
  exists s1 out1 s2 out2,
    run init overtaking = Some (s1, out1)
    /\ run s1 [Settle 3 (Resolved VUnit); Settle 1 (Resolved VUnit);
               Message "X" (CLIENT_SDP_OFFER "v=0 again")]
       = Some (s2, out2)
    /\ endpoint_of (store s2) "X" = Some 20.
Proof.
  do 4 eexists. split; [vm_compute; reflexivity|].
  split; [vm_compute; reflexivity|].
  refine (endpoint_is_never_replaced overtaking _ _
            [Settle 3 (Resolved VUnit); Settle 1 (Resolved VUnit);
             Message "X" (CLIENT_SDP_OFFER "v=0 again")] _ _ "X" 20 _ _ _);
    vm_compute; reflexivity.
Defined.

(** *** Every accepted candidate is handed over once *)

Lemma Merge_Permutation {A : Type} (a b c : list A) :
  Merge a b c -> Permutation c (a ++ b).
Proof.
  induction 1 as [|x a b c _ IH|x a b c _ IH]; simpl.
  - constructor.
  - constructor. exact IH.
  - apply Permutation_cons_app. exact IH.
Qed.

Lemma Merge_concat {A : Type} (a b : list A) : Merge a b (a ++ b).
Proof.
  induction a as [|x a IH]; simpl; [apply Merge_nil_l|].
  constructor. exact IH.
Qed.

Lemma accepted_merge sid s evs :
  Merge (queued sid s evs) (direct sid s evs) (accepted sid s evs).
Proof.
  revert s. unfold queued, direct, accepted.
  induction evs as [|e evs IH]; intros s; simpl; [constructor|].
  destruct (step s e) as [[s' out]|]; [|constructor].
  apply Merge_app; [apply Merge_concat|apply IH].
Qed.

Lemma run_conserved evs s s' out sid :
  offers_ok s -> run s evs = Some (s', out) ->
  Permutation (queue_of (store s) sid ++ accepted sid s evs)
    (applied sid s evs ++ queue_of (store s') sid).
Proof.
  intros Hok H.
  destruct (run_fifo _ _ _ _ sid Hok H) as (d & E & M).
  rewrite (Merge_Permutation _ _ _ (accepted_merge sid s evs)).
  rewrite (Merge_Permutation _ _ _ M).
  rewrite app_assoc, E.
  rewrite <- !app_assoc. apply Permutation_app_head.
  apply Permutation_app_comm.
Qed.

(** The candidates accepted from a viewer (those that found its session
    registered) are, at any moment, the candidates handed to the media
    server on its behalf together with those still in its queue: none
    is lost, none is handed over twice. *)
Theorem accepted_candidates_are_conserved evs s out sid :
  run init evs = Some (s, out) ->
  Permutation (accepted sid init evs)
    (applied sid init evs ++ queue_of (store s) sid).
Proof.
  intros H.
  destruct (run_fifo _ _ _ _ sid offers_ok_init H) as (d & E & M).
  assert (queued sid init evs = d ++ queue_of (store s) sid) as E'
    by (rewrite <- E; reflexivity).
  rewrite (Merge_Permutation _ _ _ (accepted_merge sid init evs)).
  rewrite (Merge_Permutation _ _ _ M), E'.
  rewrite <- !app_assoc. apply Permutation_app_head.
  apply Permutation_app_comm.
Qed.

Lemma accepted_candidates_are_conserved_witness :
  exists s out,
    run init overtaking = Some (s, out)
    /\ Permutation (accepted "X" init overtaking)
         (applied "X" init overtaking ++ queue_of (store s) "X").
Proof.
  do 2 eexists. split; [vm_compute; reflexivity|].
  refine (accepted_candidates_are_conserved overtaking _ _ "X" _).
  vm_compute. reflexivity.
Defined.

(** *** What has happened by the time the answer leaves *)

Lemma queued_by_with_endpoint sid s e :
  is_Some (endpoint_of (store s) sid) -> queued_by sid s e = [].
Proof.
  intros [ep Hep]. unfold endpoint_of in Hep.
  destruct e as [| | |sid' [| |c|]| |]; try reflexivity. simpl.
  destruct (decide (sid' = sid)); [|reflexivity].
  destruct (sessions (store s) !! sid) as [x|]; [|reflexivity].
  rewrite Hep. reflexivity.
Qed.

(** The step that sends the answer leaves the queue empty, and so does
    every step after it. *)
Lemma step_answered s e s' out sid :
  offers_ok s -> step s e = Some (s', out) ->
  answers sid out <> []
  \/ (queue_of (store s) sid = []
      /\ is_Some (endpoint_of (store s) sid) /\ ~ answer_due s sid) ->
  queue_of (store s') sid = []
  /\ is_Some (endpoint_of (store s') sid) /\ ~ answer_due s' sid.
Proof.
  intros Hok H [Hans|(Hq & Hep & Hno)].
  - pose proof H as H'. pose proof Hok as [Hreg _].
    destruct (step_answers _ _ _ _ sid Hok H) as [[E _]|(_ & _ & Hno')];
      [congruence|].
    apply step_view in H' as [_ V].
    destruct V as [| | | |sid' m|tid r t sg Ht Hr|h ev];
      try (exfalso; apply Hans; reflexivity).
    + exfalso. apply Hans.
      rewrite install_out, answers_app, dispatch_answers.
      destruct (seg_outcome _); reflexivity.
    + rewrite install_store. rewrite install_out, answers_app in Hans.
      assert (answers sid (seg_out sg) <> []) as Hans'.
      { intros E. apply Hans. rewrite E.
        destruct (seg_outcome sg); reflexivity. }
      destruct (resume_answers _ _ _ _ sid Hr) as [E|(Hsid & _ & _)];
        [congruence|].
      destruct (Hreg _ _ _ Ht Hsid) as (_ & Hpast & _).
      split; [|split; [|exact Hno']].
      * destruct t; simpl in Hsid; simplify_eq;
          destruct r as [[| |]| |]; simpl in Hr; resume_cases Hr;
          try (exfalso; apply Hans'; reflexivity);
          unfold queue_of;
          match goal with
          | Hx : sessions _ !! _ = Some _ |- _ => rewrite Hx
          end; assumption.
      * destruct t; simpl in Hsid; simplify_eq;
          destruct r as [[| |]| |]; simpl in Hr; resume_cases Hr;
          try (exfalso; apply Hans'; reflexivity);
          apply Hpast; reflexivity.
    + exfalso. apply Hans. apply fire_answers.
  - destruct Hep as [ep Hep]. split; [|split].
    + destruct (step_fifo _ _ _ _ sid Hok H) as (d & E & _).
      rewrite Hq, queued_by_with_endpoint in E by (rewrite Hep; eauto).
      simpl in E. symmetry in E. apply app_eq_nil in E. tauto.
    + rewrite (step_endpoint_kept _ _ _ _ _ _ Hok H Hep). eauto.
    + destruct (step_answers _ _ _ _ sid Hok H) as [[_ Hkeep]|(_ & _ & Hno')];
        auto.
Qed.

Lemma run_answered evs s s' out sid :
  offers_ok s -> run s evs = Some (s', out) ->
  answers sid out <> []
  \/ (queue_of (store s) sid = []
      /\ is_Some (endpoint_of (store s) sid) /\ ~ answer_due s sid) ->
  queue_of (store s') sid = []
  /\ is_Some (endpoint_of (store s') sid) /\ ~ answer_due s' sid.
Proof.
  revert s s' out. induction evs as [|e evs IH]; intros s s' out Hok H Hor.
  - injection H as <- <-. destruct Hor as [Hans|HJ]; [|exact HJ].
    exfalso. apply Hans. reflexivity.
  - apply run_cons in H as (s1 & out1 & out2 & He & Hr & ->).
    pose proof (step_offers_ok _ _ _ _ Hok He) as Hok1.
    destruct (answers sid out1) as [|a l] eqn:E1.
    + destruct Hor as [Hans|HJ].
      * rewrite answers_app, E1 in Hans.
        apply (IH _ _ _ Hok1 Hr). left. exact Hans.
      * apply (IH _ _ _ Hok1 Hr). right.
        apply (step_answered _ _ _ _ sid Hok He). right. exact HJ.
    + apply (IH _ _ _ Hok1 Hr). right.
      apply (step_answered _ _ _ _ sid Hok He). left. congruence.
Qed.

(** Once the answer has been sent to a viewer, its session holds an
    endpoint, its queue is empty and stays empty, and every candidate
    accepted from it has been handed to the media server. *)
Theorem answer_leaves_no_candidate_behind evs s out sid :
  run init evs = Some (s, out) ->
  answers sid out <> [] ->
  queue_of (store s) sid = []
  /\ is_Some (endpoint_of (store s) sid)
  /\ Permutation (accepted sid init evs) (applied sid init evs).
Proof.
  intros H Hans.
  destruct (run_answered _ _ _ _ sid offers_ok_init H (or_introl Hans))
    as (Hq & Hep & _).
  split; [exact Hq|]. split; [exact Hep|].
  pose proof (run_conserved _ _ _ _ sid offers_ok_init H) as P.
  rewrite Hq, app_nil_r in P. exact P.
Qed.

Lemma answer_leaves_no_candidate_behind_witness :
  exists s out,
    run init negotiated = Some (s, out)
    /\ queue_of (store s) "X" = []
    /\ is_Some (endpoint_of (store s) "X")
    /\ Permutation (accepted "X" init negotiated)
         (applied "X" init negotiated).
Proof.
  do 2 eexists. split; [vm_compute; reflexivity|].
  refine (answer_leaves_no_candidate_behind negotiated _ _ "X" _ _).
  - vm_compute. reflexivity.
  - vm_compute. discriminate.
Defined.

(** *** Candidates found by the media server *)

Lemma dispatch_listeners sid m st :
  listeners (seg_store (dispatch sid m st)) = listeners st.
Proof.
  destruct m as [|sdpOffer|c|]; simpl.
  - unfold handleStartPublish. destruct (kurento_client st); reflexivity.
  - unfold handleSdpOffer. destruct (sessions st !! sid);
      [|destruct (kurento_pipeline st)]; reflexivity.
  - unfold handleIceCandidate. destruct (sessions st !! sid) as [x|];
      [destruct (webrtcEndpoint x)|]; reflexivity.
  - unfold handleDebugDot. destruct (kurento_pipeline st); reflexivity.
Qed.

Lemma dispatch_endpoint_all sid m st k :
  endpoint_of (seg_store (dispatch sid m st)) k = endpoint_of st k.
Proof.
  destruct (sessions st !! k) as [x|] eqn:Hk;
    [apply dispatch_endpoint; eauto|].
  destruct (decide (sid = k)) as [->|Hne].
  - destruct m as [|sdpOffer|c|]; simpl.
    + unfold handleStartPublish. destruct (kurento_client st); reflexivity.
    + unfold handleSdpOffer, endpoint_of. rewrite Hk.
      destruct (kurento_pipeline st); simpl; rewrite lookup_insert_eq;
        reflexivity.
    + unfold handleIceCandidate. rewrite Hk. reflexivity.
    + unfold handleDebugDot. destruct (kurento_pipeline st); reflexivity.
  - unfold endpoint_of. rewrite dispatch_other by exact Hne. reflexivity.
Qed.

Lemma emitted_app out1 out2 :
  emitted (out1 ++ out2) = emitted out1 ++ emitted out2.
Proof.
  induction out1 as [|x out1 IH]; simpl; [reflexivity|].
  destruct x; simpl; rewrite ?IH; reflexivity.
Qed.

(** The sockets that hear of a candidate found on [h] are those whose
    listener hangs on [h]. *)
Lemma fire_emitted h c ls sid m :
  In (sid, m) (emitted (fire h (IceCandidateFound c) ls))
  <-> m = SERVER_ICE_CANDIDATE c /\ In (h, OnIceCandidateFound sid) ls.
Proof.
  induction ls as [|[h' l] ls IH]; simpl; [tauto|].
  rewrite emitted_app, in_app_iff, IH. clear IH.
  destruct (Nat.eqb_spec h h') as [<-|Hne].
  - destruct l as [| |sock]; simpl; unfold kmsCandidate.
    + split; [intros [[]|H]|intros [H [H'|H']]]; try tauto; congruence.
    + split; [intros [[]|H]|intros [H [H'|H']]]; try tauto; congruence.
    + split.
      * intros [[H|[]]|H]; [|tauto]. injection H as -> ->. auto.
      * intros [-> [H|H]]; [|tauto]. injection H as ->. auto.
  - simpl. split; [intros [[]|H]|intros [H [H'|H']]]; try tauto; congruence.
Qed.

(** A candidate listener hangs on [ep] for [sid] exactly when the
    session of [sid] holds [ep]. *)
Lemma step_listening s e s' out :
  offers_ok s ->
  (forall sid ep, In (ep, OnIceCandidateFound sid) (listeners (store s))
                  <-> endpoint_of (store s) sid = Some ep) ->
  step s e = Some (s', out) ->
  forall sid ep, In (ep, OnIceCandidateFound sid) (listeners (store s'))
                 <-> endpoint_of (store s') sid = Some ep.
Proof.
  intros [Hreg _] HL H. apply step_view in H as [_ V].
  destruct V as [| | | |sid' m|tid r t sg Ht Hr|]; try exact HL.
  - intros sid ep. rewrite install_store, dispatch_listeners,
      dispatch_endpoint_all. apply HL.
  - intros k ep. rewrite install_store.
    destruct t; destruct r as [[| |]| |]; simpl in Hr; resume_cases Hr;
      rewrite ?endpoint_of_listener, ?endpoint_of_set_pending;
      try apply HL;
      try (rewrite in_app_iff, HL; simpl;
           split; [intros [H|[H|[]]]; [exact H|discriminate]|auto]).
    all: destruct (Hreg _ _ _ Ht eq_refl) as (Hs & _ & Hnone);
      specialize (Hnone eq_refl);
      rewrite !in_app_iff; simpl;
      (destruct (decide (sid = k)) as [->|Hne];
       [rewrite endpoint_of_set_endpoint_eq by exact Hs;
        split;
        [intros [[H|[H|[]]]|[H|[]]]; try congruence;
         apply HL in H; congruence
        |intros H; injection H as ->; auto]
       |rewrite endpoint_of_set_endpoint_ne by exact Hne;
        rewrite <- HL; simpl;
        split; [intros [[H|[H|[]]]|[H|[]]]; congruence|auto]]).
Qed.

Lemma run_listening evs s s' out :
  offers_ok s ->
  (forall sid ep, In (ep, OnIceCandidateFound sid) (listeners (store s))
                  <-> endpoint_of (store s) sid = Some ep) ->
  run s evs = Some (s', out) ->
  forall sid ep, In (ep, OnIceCandidateFound sid) (listeners (store s'))
                 <-> endpoint_of (store s') sid = Some ep.
Proof.
  revert s s' out. induction evs as [|e evs IH]; intros s s' out Hok HL H.
  - injection H as <- _. exact HL.
  - apply run_cons in H as (s1 & out1 & out2 & He & Hr & _).
    apply (IH _ _ _ (step_offers_ok _ _ _ _ Hok He)
             (step_listening _ _ _ _ Hok HL He) Hr).
Qed.

(** A candidate that the media server finds on endpoint [h] is sent, as
    [SERVER_ICE_CANDIDATE], to the viewers whose session holds [h] and to
    nobody else; the event changes nothing in the server. *)
Theorem found_candidates_reach_their_viewer evs s out h c s' out' :
  run init evs = Some (s, out) ->
  step s (Backend h (IceCandidateFound c)) = Some (s', out') ->
  s' = s
  /\ forall sid m,
       In (sid, m) (emitted out')
       <-> m = SERVER_ICE_CANDIDATE c /\ endpoint_of (store s) sid = Some h.
Proof.
  intros H Hstep.
  assert (forall sid ep,
             In (ep, OnIceCandidateFound sid) (listeners (store s))
             <-> endpoint_of (store s) sid = Some ep) as HL.
  { eapply run_listening; [apply offers_ok_init| |exact H].
    intros sid ep. simpl. unfold endpoint_of. simpl.
    rewrite lookup_empty. split; [tauto|discriminate]. }
  unfold step_with in Hstep. destruct (alive s); [|discriminate].
  simpl in Hstep. injection Hstep as <- <-. split; [reflexivity|].
  intros sid m. rewrite fire_emitted, HL. reflexivity.
Qed.

Lemma found_candidates_reach_their_viewer_witness :
  exists s out,
    run init negotiated = Some (s, out)
    /\ step s (Backend 20 (IceCandidateFound c1))
       = Some (s, [EEmit "X" (SERVER_ICE_CANDIDATE c1)])
    /\ forall sid m,
         In (sid, m) (emitted [EEmit "X" (SERVER_ICE_CANDIDATE c1)])
         <-> m = SERVER_ICE_CANDIDATE c1
             /\ endpoint_of (store s) sid = Some 20.
Proof.
  do 2 eexists. split; [vm_compute; reflexivity|].
  split; [vm_compute; reflexivity|].
  refine (proj2 (found_candidates_reach_their_viewer negotiated _ _
                   20 c1 _ _ _ _)).
  - vm_compute. reflexivity.
  - vm_compute. reflexivity.
Defined.

(** *** Requests for endpoints *)

Lemma endpoint_requests_app out1 out2 :
  List.filter is_CreateWebRtcEndpoint (calls (out1 ++ out2))
  = List.filter is_CreateWebRtcEndpoint (calls out1)
    ++ List.filter is_CreateWebRtcEndpoint (calls out2).
Proof. rewrite calls_app. apply List.filter_app. Qed.

Lemma dispatch_endpoint_requests sid m st :
  length (List.filter is_CreateWebRtcEndpoint
            (calls (seg_out (dispatch sid m st))))
  <= count_if (is_New sid) (seg_out (dispatch sid m st)).
Proof.
  destruct m as [|sdpOffer|c|]; simpl.
  - unfold handleStartPublish. destruct (kurento_client st); simpl; lia.
  - unfold handleSdpOffer. destruct (sessions st !! sid); simpl; [lia|].
    destruct (kurento_pipeline st); simpl;
      rewrite bool_decide_eq_true_2 by reflexivity; lia.
  - unfold handleIceCandidate. destruct (sessions st !! sid) as [x|];
      [destruct (webrtcEndpoint x)|]; simpl; lia.
  - unfold handleDebugDot. destruct (kurento_pipeline st); simpl; lia.
Qed.

Lemma resume_endpoint_requests t r st sg :
  resume t r st = Some sg ->
  List.filter is_CreateWebRtcEndpoint (calls (seg_out sg)) = [].
Proof.
  intros H.
  destruct t; destruct r as [[| |]| |]; simpl in H; resume_cases H;
    reflexivity.
Qed.

Lemma step_endpoint_requests s e s' out sid :
  step s e = Some (s', out) ->
  length (if on_behalf sid s e
          then List.filter is_CreateWebRtcEndpoint (calls out) else [])
  <= count_if (is_New sid) out.
Proof.
  intros H. apply step_view in H as [_ V].
  destruct V as [| | | |sid' m|tid r t sg Ht Hr|]; simpl; try lia.
  - rewrite install_out, endpoint_requests_app, count_if_app.
    assert (List.filter is_CreateWebRtcEndpoint
              (calls (uncaught (seg_outcome (dispatch sid' m (store s)))))
            = []) as -> by (destruct (seg_outcome _); reflexivity).
    rewrite app_nil_r.
    destruct (decide (sid' = sid)) as [->|Hne].
    + rewrite bool_decide_eq_true_2 by reflexivity.
      pose proof (dispatch_endpoint_requests sid m (store s)). lia.
    + rewrite bool_decide_eq_false_2 by exact Hne. simpl. lia.
  - rewrite Ht, install_out, endpoint_requests_app.
    rewrite (resume_endpoint_requests _ _ _ _ Hr).
    destruct (seg_outcome sg); destruct (bool_decide _); simpl; lia.
Qed.

(** However many offers a viewer sends and however the requests end,
    the server asks the media server for at most one WebRTC endpoint on
    its behalf. *)
Theorem one_endpoint_request_per_viewer evs s out sid :
  run init evs = Some (s, out) ->
  length (endpoint_requests sid init evs) <= 1.
Proof.
  intros H.
  assert (forall evs (s s' : State Task) out,
             run s evs = Some (s', out) ->
             length (endpoint_requests sid s evs)
             <= count_if (is_New sid) out) as Hle.
  { clear. induction evs as [|e evs IH]; intros s s' out H.
    - simpl. lia.
    - apply run_cons in H as (s1 & out1 & out2 & He & Hr & ->).
      unfold endpoint_requests in *. simpl. rewrite He.
      rewrite length_app, count_if_app.
      pose proof (step_endpoint_requests _ _ _ _ sid He).
      pose proof (IH _ _ _ Hr). lia. }
  specialize (Hle _ _ _ _ H).
  pose proof (run_new _ _ _ _ sid H) as Hn.
  unfold registrations in Hn.
  destruct (sessions (store s) !! sid); simpl in Hn; lia.
Qed.

Lemma one_endpoint_request_per_viewer_witness :
  exists s out,
    run init two_offers = Some (s, out)
    /\ length (endpoint_requests "X" init two_offers) <= 1.
Proof.
  do 2 eexists. split; [vm_compute; reflexivity|].
  refine (one_endpoint_request_per_viewer two_offers _ _ "X" _).
  vm_compute. reflexivity.
Defined.

(** *** Before the media server is reached *)

Lemma step_client s e s' out :
  step s e = Some (s', out) ->
  kurento_client (store s) = true -> kurento_client (store s') = true.
Proof.
  intros H Hc. apply step_view in H as [_ V].
  destruct V as [| | | |sid m|tid r t sg Ht Hr|]; simpl; try exact Hc;
    try reflexivity.
  - rewrite install_store.
    rewrite (proj2 (dispatch_pipelines sid m (store s))). exact Hc.
  - rewrite install_store.
    rewrite (proj2 (resume_pipelines _ _ _ _ Hr)). exact Hc.
Qed.

Lemma step_unconnected s e s' out :
  kurento_pipeline (store s) = None -> tasks s = ∅ ->
  (forall k, endpoint_of (store s) k = None) ->
  listeners (store s) = [] ->
  step s e = Some (s', out) ->
  kurento_client (store s') = false ->
  (kurento_pipeline (store s') = None /\ tasks s' = ∅
   /\ (forall k, endpoint_of (store s') k = None)
   /\ listeners (store s') = [])
  /\ calls out = [] /\ emitted out = [].
Proof.
  intros Hp Ht Hep Hl H Hc. apply step_view in H as [_ V].
  destruct V as [| | | |sid m|tid r t sg Hlook Hr|h ev]; simpl in *;
    try (repeat split; auto; fail).
  - rewrite install_store in *. unfold install. rewrite Ht.
    assert (forall k, endpoint_of (seg_store (dispatch sid m (store s))) k
                      = None) as Hep'
      by (intros k; rewrite dispatch_endpoint_all; apply Hep).
    rewrite dispatch_listeners in *.
    destruct m as [|sdpOffer|c|]; simpl in *.
    + unfold handleStartPublish in *.
      destruct (kurento_client (store s)) eqn:E; simpl in *; [congruence|].
      rewrite delete_empty. repeat split; auto.
    + unfold handleSdpOffer in *.
      destruct (sessions (store s) !! sid); simpl in *;
        rewrite ?Hp in *; simpl in *; rewrite delete_empty;
        repeat split; auto.
    + unfold handleIceCandidate in *.
      pose proof (Hep sid) as Hk. unfold endpoint_of in Hk.
      destruct (sessions (store s) !! sid) as [x|]; simpl in *;
        [rewrite Hk in *|]; simpl in *; rewrite delete_empty;
        repeat split; auto.
    + unfold handleDebugDot in *. rewrite Hp in *. simpl in *.
      rewrite delete_empty. repeat split; auto.
  - rewrite Ht, lookup_empty in Hlook. discriminate.
  - rewrite Hl. repeat split; auto.
Qed.

(** As long as the connection to the media server has not been
    reported, the server has sent no request and no message, no handler
    is left waiting, there is no pipeline and no session has an
    endpoint.  In such a state a publish request and a dump request end
    in an error record and change nothing; an offer under a new
    identity registers a session that gets no endpoint and ends in an
    error record; a candidate is queued when its session is registered
    and dropped with a warning when it is not. *)
Theorem nothing_is_requested_before_the_client_connects evs s out :
  run init evs = Some (s, out) ->
  kurento_client (store s) = false ->
  calls out = [] /\ emitted out = [] /\ tasks s = ∅
  /\ kurento_pipeline (store s) = None
  /\ (forall sid, endpoint_of (store s) sid = None)
  /\ (alive s = true -> forall sid,
      step s (Message sid CLIENT_START_PUBLISH)
      = Some (mkState (store s) ∅ (S (next s)) true, [promise_error])
      /\ step s (Message sid CLIENT_DEBUG_DOT)
         = Some (mkState (store s) ∅ (S (next s)) true, [promise_error])
      /\ (forall sdpOffer,
             sessions (store s) !! sid = None ->
             step s (Message sid (CLIENT_SDP_OFFER sdpOffer))
             = Some (mkState
                       (set_sessions
                          (<[sid := new_Session sid]> (sessions (store s)))
                          (store s))
                       ∅ (S (next s)) true,
                     [ENew sid; promise_error]))
      /\ (forall c,
             step s (Message sid (CLIENT_ICE_CANDIDATE c))
             = Some (match sessions (store s) !! sid with
                     | Some session =>
                         (mkState
                            (set_pendingCandidates sid
                               (pendingCandidates session ++ [c]) (store s))
                            ∅ (S (next s)) true, [])
                     | None =>
                         (mkState (store s) ∅ (S (next s)) true,
                          [ELog Warn
                             "Skip adding candidate, session doesn't exist:"])
                     end))).
Proof.
  assert (forall evs (s s' : State Task) out,
             run s evs = Some (s', out) ->
             kurento_client (store s) = true ->
             kurento_client (store s') = true) as Hmono.
  { clear. induction evs as [|e evs IH]; intros s s' out H Hc.
    - injection H as <- _. exact Hc.
    - apply run_cons in H as (s1 & out1 & out2 & He & Hr & _).
      apply (IH _ _ _ Hr). eapply step_client; eassumption. }
  assert (forall evs (s s' : State Task) out,
             kurento_pipeline (store s) = None -> tasks s = ∅ ->
             (forall k, endpoint_of (store s) k = None) ->
             listeners (store s) = [] ->
             run s evs = Some (s', out) ->
             kurento_client (store s') = false ->
             calls out = [] /\ emitted out = [] /\ tasks s' = ∅
             /\ kurento_pipeline (store s') = None
             /\ forall sid, endpoint_of (store s') sid = None) as Hrun.
  { clear evs s out.
    induction evs as [|e evs IH]; intros s s' out Hp Ht Hep Hl H Hc.
    - injection H as <- <-. auto.
    - apply run_cons in H as (s1 & out1 & out2 & He & Hr & ->).
      assert (kurento_client (store s1) = false) as Hc1.
      { destruct (kurento_client (store s1)) eqn:E; [|reflexivity].
        rewrite (Hmono _ _ _ _ Hr E) in Hc. discriminate. }
      destruct (step_unconnected _ _ _ _ Hp Ht Hep Hl He Hc1)
        as ((Hp1 & Ht1 & Hep1 & Hl1) & Hcalls & Hemit).
      destruct (IH _ _ _ Hp1 Ht1 Hep1 Hl1 Hr Hc)
        as (E1 & E2 & E3 & E4 & E5).
      rewrite calls_app, Hcalls, E1, emitted_app, Hemit, E2. auto. }
  intros H Hc.
  destruct (Hrun evs init s out eq_refl eq_refl (fun _ => eq_refl) eq_refl
              H Hc) as (E1 & E2 & E3 & E4 & E5).
  do 5 (split; [assumption|]).
  intros Ha sid. split; [|split; [|split]]; intros;
    rewrite step_message by exact Ha; unfold install; rewrite E3;
    cbn [dispatch];
    unfold handleStartPublish, handleDebugDot, handleSdpOffer,
      handleIceCandidate.
  - rewrite Hc. simpl. rewrite delete_empty. reflexivity.
  - rewrite E4. simpl. rewrite delete_empty. reflexivity.
  - match goal with
    | Hs : sessions _ !! _ = None |- _ => rewrite Hs
    end.
    rewrite E4. simpl. rewrite delete_empty. reflexivity.
  - pose proof (E5 sid) as Hk. unfold endpoint_of in Hk.
    destruct (sessions (store s) !! sid) as [x|]; simpl in *;
      [rewrite Hk|]; simpl; rewrite delete_empty; reflexivity.
Qed.

Lemma nothing_is_requested_before_the_client_connects_witness :
  exists s out,
    run init [SocketConnect "X"; Message "X" CLIENT_START_PUBLISH;
              Message "X" (CLIENT_SDP_OFFER "v=0 offer");
              Message "X" (CLIENT_ICE_CANDIDATE c1);
              Message "X" CLIENT_DEBUG_DOT] = Some (s, out)
    /\ calls out = [] /\ emitted out = [] /\ tasks s = ∅
    /\ queue_of (store s) "X" = [c1]
    /\ step s (Message "X" CLIENT_START_PUBLISH)
       = Some (mkState (store s) ∅ (S (next s)) true, [promise_error]).
Proof.
  eassert (run init [SocketConnect "X"; Message "X" CLIENT_START_PUBLISH;
                     Message "X" (CLIENT_SDP_OFFER "v=0 offer");
                     Message "X" (CLIENT_ICE_CANDIDATE c1);
                     Message "X" CLIENT_DEBUG_DOT] = Some (_, _)) as E
    by (vm_compute; reflexivity).
  destruct (nothing_is_requested_before_the_client_connects _ _ _ E
              eq_refl) as (H1 & H2 & H3 & _ & _ & H4).
  do 2 eexists. split; [exact E|].
  split; [exact H1|]. split; [exact H2|]. split; [exact H3|].
  split; [reflexivity|]. exact (proj1 (H4 eq_refl "X")).
Defined.

End Player2ManyMore.

(** ** The callback-style copy: sessions, candidates, answers *)

Module PlainMore.
Import Plain PlainObs PlainFacts.

Ltac plain_resume_cases H :=
  repeat match type of H with
         | context [match ?x with _ => _ end] => destruct x eqn:?
         end;
  simplify_eq; simpl in *.

(** *** Sessions *)

Lemma plain_dispatch_new sid m st k :
  count_if (is_New k) (seg_out (dispatch sid m st)) + registrations st k
  = registrations (seg_store (dispatch sid m st)) k.
Proof.
  unfold registrations. destruct m as [|sdpOffer|c|]; simpl.
  - unfold handleStartPublish. destruct (kurento_client st); reflexivity.
  - unfold handleSdpOffer. destruct (sessions st !! sid) eqn:Hs;
      [reflexivity|].
    assert (count_if (is_New k) [ENew sid]
            + match sessions st !! k with Some _ => 1 | None => 0 end
            = match <[sid := new_Session sid]> (sessions st) !! k with
              | Some _ => 1 | None => 0 end) as Hc.
    { simpl. destruct (decide (sid = k)) as [->|Hne].
      - rewrite lookup_insert_eq, Hs, bool_decide_eq_true_2; reflexivity.
      - rewrite lookup_insert_ne, bool_decide_eq_false_2 by exact Hne.
        reflexivity. }
    simpl. destruct (kurento_pipeline st); simpl in *; lia.
  - unfold handleIceCandidate.
    destruct (sessions st !! sid) as [session|] eqn:Hs; [|reflexivity].
    destruct (webrtcEndpoint session); simpl; [reflexivity|].
    destruct (decide (sid = k)) as [->|Hne].
    + rewrite lookup_alter_eq, Hs. reflexivity.
    + rewrite lookup_alter_ne by exact Hne. reflexivity.
  - unfold handleDebugDot. destruct (kurento_pipeline st); reflexivity.
Qed.

Lemma plain_resume_new t r st sg k :
  resume t r st = Some sg ->
  count_if (is_New k) (seg_out sg) = 0
  /\ registrations (seg_store sg) k = registrations st k.
Proof.
  intros H.
  destruct t; destruct r as [[| |]| |]; simpl in H; plain_resume_cases H;
    auto.
  split.
  - rewrite count_if_app, count_if_map_none; auto.
  - unfold registrations; simpl.
    rewrite !Player2ManyFacts.registrations_alter. reflexivity.
Qed.

Lemma plain_step_new s e s' out k :
  step s e = Some (s', out) ->
  count_if (is_New k) out + registrations (store s) k
  = registrations (store s') k.
Proof.
  intros H. apply step_view in H as [_ V].
  destruct V as [| | | |sid m|tid r t sg Ht Hr|]; try reflexivity.
  - rewrite install_out, install_store, count_if_app.
    rewrite <- plain_dispatch_new.
    destruct (seg_outcome _); simpl; lia.
  - rewrite install_out, install_store, count_if_app.
    destruct (plain_resume_new _ _ _ _ k Hr) as [-> ->].
    destruct (seg_outcome _); simpl; lia.
  - rewrite Player2ManyFacts.fire_new. reflexivity.
Qed.

Lemma plain_run_new evs s s' out k :
  run s evs = Some (s', out) ->
  count_if (is_New k) out + registrations (store s) k
  = registrations (store s') k.
Proof.
  revert s s' out. induction evs as [|e evs IH]; simpl; intros s s' out H.
  - injection H as <- <-. reflexivity.
  - apply run_cons in H as (s1 & out1 & out2 & He & Hr & ->).
    rewrite count_if_app.
    rewrite <- (IH _ _ _ Hr), <- (plain_step_new _ _ _ _ k He). lia.
Qed.

(** In the callback-style copy too, [new Session] has run exactly once
    for an identity that is in the registry and never for another, and
    an identity that is in the registry stays there whatever comes
    next: no code path removes an entry. *)
Theorem plain_sessions_are_created_once_and_kept
    evs1 s1 out1 evs2 s2 out2 sid :
  run init evs1 = Some (s1, out1) ->
  run s1 evs2 = Some (s2, out2) ->
  count_if (is_New sid) out1 = registrations (store s1) sid
  /\ count_if (is_New sid) (out1 ++ out2) <= 1
  /\ (is_Some (sessions (store s1) !! sid) ->
      is_Some (sessions (store s2) !! sid)
      /\ count_if (is_New sid) out2 = 0).
Proof.
  intros H1 H2.
  pose proof (plain_run_new _ _ _ _ sid H1) as E1.
  pose proof (plain_run_new _ _ _ _ sid H2) as E2.
  change (registrations (store init) sid) with 0 in E1.
  rewrite count_if_app. unfold registrations in *.
  split; [lia|]. split.
  - destruct (sessions (store s2) !! sid); lia.
  - intros [x Hx]. rewrite Hx in *.
    destruct (sessions (store s2) !! sid); [split; [eauto|lia]|lia].
Qed.

Lemma plain_sessions_are_created_once_and_kept_witness :
  exists s1 out1 s2 out2,
    run init viewer = Some (s1, out1)
    /\ run s1 [SocketDisconnect "X";
               Message "X" (CLIENT_SDP_OFFER "v=0 again")] = Some (s2, out2)
    /\ count_if (is_New "X") (out1 ++ out2) <= 1
    /\ is_Some (sessions (store s2) !! "X").
Proof.
  do 4 eexists. split; [vm_compute; reflexivity|].
  split; [vm_compute; reflexivity|].
  pose proof (plain_sessions_are_created_once_and_kept viewer _ _
                [SocketDisconnect "X";
                 Message "X" (CLIENT_SDP_OFFER "v=0 again")] _ _ "X"
                ltac:(vm_compute; reflexivity)
                ltac:(vm_compute; reflexivity)) as (_ & H1 & H2).
  split; [exact H1|]. apply H2. vm_compute. eauto.
Defined.

(** *** Candidates *)

Lemma plain_dispatch_other sid m st k :
  sid <> k ->
  sessions (seg_store (dispatch sid m st)) !! k = sessions st !! k.
Proof.
  intros Hne. destruct m as [|sdpOffer|c|]; simpl.
  - unfold handleStartPublish. destruct (kurento_client st); reflexivity.
  - unfold handleSdpOffer. destruct (sessions st !! sid) eqn:Hs;
      [reflexivity|].
    simpl. destruct (kurento_pipeline st); simpl;
      rewrite lookup_insert_ne by exact Hne; reflexivity.
  - unfold handleIceCandidate.
    destruct (sessions st !! sid) as [session|]; [|reflexivity].
    destruct (webrtcEndpoint session); simpl; [reflexivity|].
    apply lookup_alter_ne. exact Hne.
  - unfold handleDebugDot. destruct (kurento_pipeline st); reflexivity.
Qed.

Lemma plain_resume_other t r st sg k :
  resume t r st = Some sg -> task_sid t <> Some k ->
  sessions (seg_store sg) !! k = sessions st !! k.
Proof.
  intros H Hne.
  destruct t; destruct r as [[| |]| |]; simpl in H; plain_resume_cases H;
    try reflexivity.
  rewrite !lookup_alter_ne by congruence. reflexivity.
Qed.

Lemma added_handed_over ep (q : list IceCandidate) out :
  added (map (fun c => ECall (AddIceCandidate ep c)) q ++ out)
  = q ++ added out.
Proof. induction q as [|c q IH]; simpl; [|rewrite IH]; reflexivity. Qed.

Lemma plain_added_uncaught (o : Outcome Task) : added (uncaught o) = [].
Proof. destruct o; reflexivity. Qed.

Lemma queue_of_emptied sid st : queue_of (set_pendingCandidates sid [] st) sid = [].
Proof.
  unfold queue_of, set_pendingCandidates; simpl. rewrite lookup_alter_eq.
  destruct (sessions st !! sid); reflexivity.
Qed.

(** One step: what was in the queue and what arrives is what is handed
    over followed by what stays in the queue; and a session that holds
    an endpoint has an empty queue. *)
Lemma plain_step_fifo s e s' out sid :
  (is_Some (endpoint_of (store s) sid) -> queue_of (store s) sid = []) ->
  step s e = Some (s', out) ->
  queue_of (store s) sid ++ accepted_by sid s e
  = (if on_behalf sid s e then added out else [])
    ++ queue_of (store s') sid
  /\ (is_Some (endpoint_of (store s') sid) ->
      queue_of (store s') sid = []).
Proof.
  intros HE H. apply step_view in H as [_ V].
  destruct V as [| | | |sid' m|tid r t sg Ht Hr|]; simpl;
    rewrite ?app_nil_r; try (split; [reflexivity|exact HE]).
  - (* a message *)
    rewrite install_store, install_out, Player2ManyFacts.added_app,
      plain_added_uncaught, ?app_nil_r.
    destruct (decide (sid' = sid)) as [->|Hne].
    + rewrite bool_decide_eq_true_2 by reflexivity.
      destruct m as [|sdpOffer|c|]; simpl; rewrite ?app_nil_r.
      * unfold handleStartPublish. destruct (kurento_client _);
          (split; [reflexivity|exact HE]).
      * revert HE. unfold handleSdpOffer, queue_of, endpoint_of.
        destruct (sessions (store s) !! sid) eqn:Hs; simpl; rewrite ?Hs;
          intros HE; [split; [reflexivity|exact HE]|].
        destruct (kurento_pipeline _); simpl; rewrite lookup_insert_eq;
          simpl; (split; [reflexivity|intros [x Hx]; discriminate]).
      * revert HE. unfold handleIceCandidate, queue_of, endpoint_of.
        rewrite ?decide_True by reflexivity.
        destruct (sessions (store s) !! sid) as [x|] eqn:Hs; simpl;
          rewrite ?Hs; intros HE; [|split; [reflexivity|exact HE]].
        destruct (webrtcEndpoint x) eqn:Hx; simpl; rewrite ?Hs, ?Hx.
        -- rewrite HE by eauto. split; reflexivity.
        -- rewrite lookup_alter_eq, Hs. simpl.
           split; [reflexivity|rewrite Hx; intros [y Hy]; discriminate].
      * unfold handleDebugDot. destruct (kurento_pipeline _);
          (split; [reflexivity|exact HE]).
    + rewrite bool_decide_eq_false_2 by exact Hne.
      unfold queue_of, endpoint_of in *.
      rewrite plain_dispatch_other by exact Hne.
      destruct m; rewrite ?decide_False by exact Hne; rewrite app_nil_r;
        (split; [reflexivity|exact HE]).
  - (* a promise settles *)
    rewrite Ht, install_store, install_out, Player2ManyFacts.added_app,
      plain_added_uncaught, ?app_nil_r.
    destruct (decide (task_sid t = Some sid)) as [Hsid|Hother].
    + rewrite bool_decide_eq_true_2 by exact Hsid.
      destruct t; simpl in Hsid; simplify_eq;
        destruct r as [[| |]| |]; simpl in Hr; plain_resume_cases Hr;
        rewrite ?app_nil_r; try (split; [reflexivity|exact HE]).
      rewrite added_handed_over, queue_of_emptied. simpl.
      rewrite !app_nil_r. split; reflexivity.
    + rewrite bool_decide_eq_false_2 by exact Hother.
      unfold queue_of, endpoint_of in *.
      rewrite (plain_resume_other _ _ _ _ _ Hr Hother).
      split; [reflexivity|exact HE].
Qed.

Lemma plain_run_fifo evs s s' out sid :
  (is_Some (endpoint_of (store s) sid) -> queue_of (store s) sid = []) ->
  run s evs = Some (s', out) ->
  queue_of (store s) sid ++ accepted sid s evs
  = applied sid s evs ++ queue_of (store s') sid
  /\ (is_Some (endpoint_of (store s') sid) ->
      queue_of (store s') sid = []).
Proof.
  revert s s' out. induction evs as [|e evs IH]; intros s s' out HE H.
  - injection H as <- <-. simpl. rewrite app_nil_r. auto.
  - apply run_cons in H as (s1 & out1 & out2 & He & Hr & ->).
    destruct (plain_step_fifo _ _ _ _ sid HE He) as (E1 & HE1).
    destruct (IH _ _ _ HE1 Hr) as (E2 & HE2).
    split; [|exact HE2].
    unfold accepted, applied in *. simpl. rewrite He.
    rewrite app_assoc, E1, <- !app_assoc. f_equal. exact E2.
Qed.

(** In the callback-style copy the candidates accepted from a viewer
    reach the media server in exactly their order of arrival: what has
    been handed over followed by what is in the queue is the accepted
    sequence; and the queue of a session that holds its endpoint is
    empty. *)
Theorem plain_candidates_keep_their_arrival_order evs s out sid :
  run init evs = Some (s, out) ->
  accepted sid init evs = applied sid init evs ++ queue_of (store s) sid
  /\ (is_Some (endpoint_of (store s) sid) -> queue_of (store s) sid = []).
Proof.
  intros H.
  destruct (plain_run_fifo evs init s out sid) as (E & HE);
    [intros [x Hx]; discriminate|exact H|].
  split; [exact E|exact HE].
Qed.

Lemma plain_candidates_keep_their_arrival_order_witness :
  exists s out,
    run init viewer = Some (s, out)
    /\ accepted "X" init viewer
       = applied "X" init viewer ++ queue_of (store s) "X".
Proof.
  do 2 eexists. split; [vm_compute; reflexivity|].
  refine (proj1 (plain_candidates_keep_their_arrival_order viewer _ _ "X" _)).
  vm_compute. reflexivity.
Defined.

(** *** The answer *)

(** In the callback-style copy, an offer from a new identity is
    answered as soon as the endpoint is created and the offer processed:
    the answer leaves before the endpoint is connected to the publisher,
    and it leaves even when there is no publisher, in which case the
    endpoint is never connected. *)
Theorem plain_answer_does_not_wait_for_the_publisher
    s sid sdpOffer p ep sdpAnswer :
  alive s = true ->
  sessions (store s) !! sid = None ->
  kurento_pipeline (store s) = Some p ->
  exists s' out,
    run s (offer_schedule s sid sdpOffer ep sdpAnswer) = Some (s', out)
    /\ emitted out = [(sid, SERVER_SDP_ANSWER sdpAnswer)]
    /\ calls out
       = [CreateWebRtcEndpoint p; ProcessOffer ep sdpOffer;
          GatherCandidates ep]
         ++ match kurento_playerEndpoint (store s) with
            | Some player => [Connect player ep]
            | None => []
            end
    /\ endpoint_of (store s') sid = Some ep.
Proof.
  intros Ha Hs Hp.
  unfold offer_schedule, run_with, step_with. rewrite Ha. simpl.
  unfold handleSdpOffer. rewrite Hs. simpl. rewrite Hp.
  unfold install. simpl. rewrite lookup_insert_eq. simpl.
  unfold queue_of. simpl. rewrite lookup_insert_eq. simpl.
  rewrite lookup_insert_eq. simpl.
  destruct (kurento_playerEndpoint (store s)) as [player|]; simpl;
    do 2 eexists; (split; [reflexivity|]); simpl;
    (split; [reflexivity|]); (split; [reflexivity|]);
    unfold endpoint_of; simpl;
    rewrite lookup_alter_eq, lookup_alter_eq, lookup_insert_eq;
    reflexivity.
Qed.

Lemma plain_answer_does_not_wait_for_the_publisher_witness :
  exists s' out,
    run (mkState (mkStore None true (Some 10) None ∅ []) ∅ 0 true)
      [Message "X" (CLIENT_SDP_OFFER "v=0 offer");
       Settle 0 (Resolved (VHandle 20));
       Settle 0 (Resolved (VText "v=0 answer"))] = Some (s', out)
    /\ emitted out = [("X", SERVER_SDP_ANSWER "v=0 answer")]
    /\ calls out
       = [CreateWebRtcEndpoint 10; ProcessOffer 20 "v=0 offer";
          GatherCandidates 20]
    /\ endpoint_of (store s') "X" = Some 20.
Proof.
  refine (plain_answer_does_not_wait_for_the_publisher
            (mkState (mkStore None true (Some 10) None ∅ []) ∅ 0 true)
            "X" "v=0 offer" 10 20 "v=0 answer" _ _ _).
  - reflexivity.
  - vm_compute. reflexivity.
  - reflexivity.
Defined.

End PlainMore.

(** ** The browser side: what [sdpRemoveCodec] removes and what it keeps *)

Module ClientFacts.
Import Client.

(** *** Splitting and joining *)

Lemma split_not_nil s : split s <> [].
Proof.
  destruct s as [|c s]; simpl; [discriminate|].
  destruct (Ascii.eqb c " "%char); [discriminate|].
  destruct (split s); discriminate.
Qed.

Lemma split_spaceless s : Forall (fun w => spaceless w = true) (split s).
Proof.
  induction s as [|c s IH]; simpl; [repeat constructor|].
  destruct (Ascii.eqb c " "%char) eqn:E; [constructor; [reflexivity|exact IH]|].
  destruct (split s) as [|w ws]; [repeat constructor; simpl; rewrite E;
                                  reflexivity|].
  inversion IH; subst. constructor; [|assumption].
  simpl. rewrite E. assumption.
Qed.

Lemma split_word w : spaceless w = true -> split w = [w].
Proof.
  induction w as [|c w IH]; simpl; [reflexivity|].
  destruct (Ascii.eqb c " "%char); simpl; [discriminate|].
  intros H. rewrite (IH H). reflexivity.
Qed.

Lemma split_words w s :
  spaceless w = true -> split (w +:+ String " "%char s) = w :: split s.
Proof.
  induction w as [|c w IH]; simpl; [reflexivity|].
  destruct (Ascii.eqb c " "%char); simpl; [discriminate|].
  intros H. rewrite (IH H). reflexivity.
Qed.

(** Joining words and splitting the result gives the words back. *)
Lemma split_join l :
  l <> [] -> Forall (fun w => spaceless w = true) l -> split (join l) = l.
Proof.
  induction l as [|w l IH]; [congruence|]. intros _ H.
  inversion H as [|? ? Hw Hl]; subst.
  destruct l as [|w' l'].
  - apply split_word. exact Hw.
  - change (join (w :: w' :: l')) with (w +:+ String " "%char (join (w' :: l'))).
    rewrite split_words by exact Hw. f_equal.
    apply IH; [discriminate|exact Hl].
Qed.

(** Splitting a string and joining the words gives the string back. *)
Lemma join_split s : join (split s) = s.
Proof.
  induction s as [|c s IH]; [reflexivity|]. simpl.
  destruct (Ascii.eqb_spec c " "%char) as [->|Hne].
  - pose proof (split_not_nil s) as Hn.
    destruct (split s) as [|w ws]; [congruence|].
    change (join ("" :: w :: ws)) with ("" +:+ String " "%char (join (w :: ws))).
    rewrite IH. reflexivity.
  - pose proof (split_not_nil s) as Hn.
    destruct (split s) as [|w ws]; [congruence|].
    rewrite <- IH. destruct ws as [|w' ws']; reflexivity.
Qed.

Lemma filter_spaceless (p : string -> bool) l :
  Forall (fun w => spaceless w = true) l ->
  Forall (fun w => spaceless w = true) (List.filter p l).
Proof.
  induction 1 as [|w l Hw _ IH]; simpl; [constructor|].
  destruct (p w); [constructor|]; assumption.
Qed.

(** What a second pass over the joined words keeps. *)
Lemma filter_split_join (p : string -> bool) l :
  Forall (fun w => spaceless w = true) l ->
  join (List.filter p (split (join l))) = join (List.filter p l).
Proof.
  intros H. destruct l as [|w l].
  - simpl. destruct (p ""); reflexivity.
  - rewrite split_join by (discriminate || exact H). reflexivity.
Qed.

(** *** The loop *)

Lemma filter_filter {A : Type} (p q : A -> bool) l :
  List.filter q (List.filter p l) = List.filter (fun x => p x && q x) l.
Proof.
  induction l as [|x l IH]; simpl; [reflexivity|].
  destruct (p x); simpl; [destruct (q x)|]; rewrite IH; reflexivity.
Qed.

(** On a section that has an [rtcpFb] array and a string as payload
    list, the loop over [codecmaps] does not throw and amounts to one
    pass that drops every payload type of the list. *)
Lemma forEach_editable codecmaps : forall videoMedia fb words,
  rtcpFb videoMedia = Some fb ->
  payloads videoMedia = PayloadsString words ->
  let removed := map payload codecmaps in
  exists videoMedia',
    forEach codecmaps videoMedia = Some videoMedia'
    /\ type videoMedia' = type videoMedia
    /\ media_rest videoMedia' = media_rest videoMedia
    /\ rtp videoMedia'
       = List.filter (fun elem => kept removed (payload elem))
           (rtp videoMedia)
    /\ fmtp videoMedia'
       = List.filter (fun elem => kept removed (attr_payload elem))
           (fmtp videoMedia)
    /\ rtcpFb videoMedia'
       = Some (List.filter (fun elem => kept removed (attr_payload elem))
                 fb)
    /\ payloads videoMedia'
       = PayloadsString
           (join (List.filter (word_kept removed) (split words))).
Proof.
  induction codecmaps as [|cmap cs IH]; intros videoMedia fb words Hfb Hw;
    simpl.
  - exists videoMedia. unfold kept, word_kept; simpl.
    rewrite !List.filter_true, join_split. repeat split; assumption.
  - unfold removePayload. rewrite Hfb, Hw.
    match goal with
    | |- context [forEach cs ?m] =>
        destruct (IH m _ _ eq_refl eq_refl)
          as (v' & -> & E1 & E2 & E3 & E4 & E5 & E6)
    end.
    exists v'. simpl in *. rewrite E1, E2, E3, E4, E5, E6.
    rewrite !filter_filter.
    rewrite filter_split_join
      by (apply filter_spaceless, split_spaceless).
    rewrite filter_filter. repeat split.
Qed.

(** On any other section the first turn of the loop throws. *)
Lemma forEach_throws cmap codecmaps videoMedia :
  editable videoMedia = false ->
  forEach (cmap :: codecmaps) videoMedia = None.
Proof.
  unfold editable. simpl. unfold removePayload.
  destruct (rtcpFb videoMedia); [|reflexivity].
  destruct (payloads videoMedia); [discriminate|reflexivity..].
Qed.

Lemma editable_spec videoMedia :
  editable videoMedia = true
  <-> exists fb words,
        rtcpFb videoMedia = Some fb
        /\ payloads videoMedia = PayloadsString words.
Proof.
  unfold editable. split.
  - destruct (rtcpFb videoMedia) as [fb|]; [|discriminate].
    destruct (payloads videoMedia) as [words| |]; try discriminate.
    intros _. exists fb, words. auto.
  - intros (fb & words & -> & ->). reflexivity.
Qed.

(** *** The section that is edited *)

Lemma find_video ms videoMedia :
  List.find is_video ms = Some videoMedia ->
  is_video videoMedia = true
  /\ exists before after,
       ms = before ++ videoMedia :: after
       /\ Forall (fun m => is_video m = false) before
       /\ forall videoMedia',
            assign videoMedia' ms = before ++ videoMedia' :: after.
Proof.
  induction ms as [|m ms IH]; simpl; [discriminate|].
  destruct (is_video m) eqn:E.
  - intros H. injection H as <-. split; [exact E|].
    exists [], ms. repeat split. constructor.
  - intros H. destruct (IH H) as (Hv & before & after & -> & Hb & Ha).
    split; [exact Hv|]. exists (m :: before), after.
    split; [reflexivity|]. split; [constructor; assumption|].
    intros v'. rewrite Ha. reflexivity.
Qed.

Lemma find_assigned ms videoMedia videoMedia' :
  List.find is_video ms = Some videoMedia ->
  is_video videoMedia' = true ->
  List.find is_video (assign videoMedia' ms) = Some videoMedia'.
Proof.
  intros H Hv'. induction ms as [|m ms IH]; simpl in *; [discriminate|].
  destruct (is_video m) eqn:E; simpl.
  - rewrite Hv'. reflexivity.
  - rewrite E. apply IH. exact H.
Qed.

(** When [edit] throws, when it returns early and when it edits. *)
Lemma edit_cases sdpObj codecName :
  match edit sdpObj codecName with
  | TypeError =>
      List.find is_video (media sdpObj) = None
      \/ exists videoMedia,
           List.find is_video (media sdpObj) = Some videoMedia
           /\ payloads_of codecName videoMedia <> []
           /\ editable videoMedia = false
  | Untouched =>
      exists videoMedia,
        List.find is_video (media sdpObj) = Some videoMedia
        /\ payloads_of codecName videoMedia = []
  | Edited sdpObj' =>
      exists videoMedia videoMedia',
        List.find is_video (media sdpObj) = Some videoMedia
        /\ payloads_of codecName videoMedia <> []
        /\ editable videoMedia = true
        /\ forEach (List.filter (is_codec codecName) (rtp videoMedia))
             videoMedia = Some videoMedia'
        /\ sdpObj' = mkSdpObj (assign videoMedia' (media sdpObj))
                       (sdp_rest sdpObj)
        /\ List.find is_video (media sdpObj') = Some videoMedia'
  end.
Proof.
  unfold edit, payloads_of.
  destruct (List.find is_video (media sdpObj)) as [v|] eqn:Hf;
    [|left; reflexivity].
  cbv zeta.
  destruct (List.filter (is_codec codecName) (rtp v)) as [|cmap cs] eqn:Hc;
    [exists v; rewrite Hc; split; reflexivity|].
  destruct (editable v) eqn:He.
  - apply editable_spec in He as (fb & words & Hfb & Hw).
    destruct (forEach_editable (cmap :: cs) v fb words Hfb Hw)
      as (v' & Hloop & Ht & _).
    rewrite Hloop.
    exists v, v'. rewrite Hc.
    split; [reflexivity|]. split; [simpl; discriminate|].
    split; [apply editable_spec; eauto|]. split; [assumption|].
    split; [reflexivity|]. cbv [media].
    eapply find_assigned; [exact Hf|].
    unfold is_video. rewrite Ht. apply (find_video _ _ Hf).
  - rewrite (forEach_throws _ _ _ He). right. exists v. rewrite Hc.
    split; [reflexivity|]. split; [simpl; discriminate|exact He].
Qed.

(** What [edit] returns when it edits. *)
Lemma edit_Edited sdpObj codecName sdpObj' :
  edit sdpObj codecName = Edited sdpObj' ->
  exists videoMedia videoMedia' fb words,
    let removed := payloads_of codecName videoMedia in
    List.find is_video (media sdpObj) = Some videoMedia
    /\ List.find is_video (media sdpObj') = Some videoMedia'
    /\ removed <> []
    /\ sdpObj' = mkSdpObj (assign videoMedia' (media sdpObj))
                   (sdp_rest sdpObj)
    /\ rtcpFb videoMedia = Some fb
    /\ payloads videoMedia = PayloadsString words
    /\ type videoMedia' = type videoMedia
    /\ media_rest videoMedia' = media_rest videoMedia
    /\ rtp videoMedia'
       = List.filter (fun elem => kept removed (payload elem))
           (rtp videoMedia)
    /\ fmtp videoMedia'
       = List.filter (fun elem => kept removed (attr_payload elem))
           (fmtp videoMedia)
    /\ rtcpFb videoMedia'
       = Some (List.filter (fun elem => kept removed (attr_payload elem))
                 fb)
    /\ payloads videoMedia'
       = PayloadsString
           (join (List.filter (word_kept removed) (split words))).
Proof.
  intros H. pose proof (edit_cases sdpObj codecName) as Hc.
  rewrite H in Hc.
  destruct Hc as (v & v' & Hf & Hne & He & Hloop & -> & Hf').
  apply editable_spec in He as (fb & words & Hfb & Hw).
  destruct (forEach_editable (List.filter (is_codec codecName) (rtp v))
              v fb words Hfb Hw) as (v2 & Hloop2 & Hrest).
  rewrite Hloop in Hloop2. injection Hloop2 as <-.
  exists v, v', fb, words. simpl.
  split; [exact Hf|]. split; [exact Hf'|]. split; [exact Hne|].
  split; [reflexivity|]. split; [exact Hfb|]. split; [exact Hw|].
  exact Hrest.
Qed.

(** When [sdpRemoveCodec] edits the parsed offer, the video section had
    an [rtcpFb] array and a string as payload list, and the first video
    section is all that changes: the sections before and after it and
    the session part are as they were; in the section, the [rtpmap],
    [fmtp] and [rtcp-fb] entries whose payload type [!=] tells from
    every payload type of the codec are kept, in their order, and so are
    the words of the payload list that [parseInt] reads as a number that
    [!=] tells from every payload type of the codec. *)
Theorem sdpRemoveCodec_keeps_the_rest sdpObj codecName sdpObj' :
  edit sdpObj codecName = Edited sdpObj' ->
  exists before videoMedia videoMedia' after fb words,
    let removed := payloads_of codecName videoMedia in
    media sdpObj = before ++ videoMedia :: after
    /\ media sdpObj' = before ++ videoMedia' :: after
    /\ sdp_rest sdpObj' = sdp_rest sdpObj
    /\ Forall (fun m => is_video m = false) before
    /\ rtcpFb videoMedia = Some fb
    /\ payloads videoMedia = PayloadsString words
    /\ type videoMedia' = type videoMedia
    /\ media_rest videoMedia' = media_rest videoMedia
    /\ rtp videoMedia'
       = List.filter (fun elem => kept removed (payload elem))
           (rtp videoMedia)
    /\ fmtp videoMedia'
       = List.filter (fun elem => kept removed (attr_payload elem))
           (fmtp videoMedia)
    /\ rtcpFb videoMedia'
       = Some (List.filter (fun elem => kept removed (attr_payload elem))
                 fb)
    /\ payloads videoMedia'
       = PayloadsString
           (join (List.filter (word_kept removed) (split words))).
Proof.
  intros H.
  destruct (edit_Edited _ _ _ H)
    as (v & v' & fb & words & Hf & _ & _ & -> & Hrest).
  destruct (find_video _ _ Hf) as (_ & before & after & E & Hb & Ha).
  exists before, v, v', after, fb, words. simpl.
  split; [exact E|]. split; [apply Ha|]. split; [reflexivity|].
  split; [exact Hb|]. exact Hrest.
Qed.

Lemma sdpRemoveCodec_keeps_the_rest_witness :
  exists sdpObj' before videoMedia videoMedia' after,
    edit offer "VP8" = Edited sdpObj'
    /\ media offer = before ++ videoMedia :: after
    /\ media sdpObj' = before ++ videoMedia' :: after
    /\ rtp videoMedia'
       = List.filter
           (fun elem => kept (payloads_of "VP8" videoMedia) (payload elem))
           (rtp videoMedia).
Proof.
  eexists.
  destruct (sdpRemoveCodec_keeps_the_rest offer "VP8" _
              ltac:(vm_compute; reflexivity))
    as (before & v & v' & after & fb & words
        & H1 & H2 & _ & _ & _ & _ & _ & _ & H3 & _).
  exists before, v, v', after.
  split; [vm_compute; reflexivity|]. split; [exact H1|].
  split; [exact H2|exact H3].
Defined.

(** Beyond 2^53 the words of the payload list are compared as the
    numbers they round to. *)
Lemma large_payloads :
  parseInt "9007199254740993" = Int 9007199254740992
  /\ edit (mkSdpObj [large_video] "v=0") "VP8"
     = Edited
         (mkSdpObj
            [mkMedia (WString "video") (PayloadsString "97")
               [mkRtp (PNum 97) (WString "H264") "90000"] [] (Some [])
               "recvonly"] "v=0").
Proof. split; vm_compute; reflexivity. Qed.

(** *** What is gone *)

Lemma number_differs_refl x : x <> NaN -> number_differs x x = false.
Proof.
  destruct x as [|z|s]; simpl; [congruence| |].
  - rewrite Z.eqb_refl. reflexivity.
  - destruct s; reflexivity.
Qed.

Lemma text_eqb_refl s : text_eqb s s = true.
Proof.
  induction s as [|d s IH]; [reflexivity|]. simpl. rewrite IH.
  unfold digit_eqb. rewrite N.eqb_refl. reflexivity.
Qed.

(** [p != p] is false for a payload. *)
Lemma payload_differs_refl p : payload_differs p p = false.
Proof.
  destruct p as [n|s|]; simpl; [|rewrite text_eqb_refl|]; try reflexivity.
  rewrite Z.eqb_refl. reflexivity.
Qed.

Lemma payload_differs_neq a b : payload_differs a b = true -> a <> b.
Proof.
  intros H ->. rewrite payload_differs_refl in H. discriminate.
Qed.

Lemma kept_spec removed p :
  kept removed p = true
  <-> forall q, In q removed -> payload_differs p q = true.
Proof. unfold kept. apply forallb_forall. Qed.

Lemma codec_payload codecName videoMedia cmap :
  In cmap (rtp videoMedia) -> is_codec codecName cmap = true ->
  In (payload cmap) (payloads_of codecName videoMedia).
Proof.
  intros Hin Hc. unfold payloads_of. apply in_map.
  apply List.filter_In. split; assumption.
Qed.

(** The entries of the edited section, against the section as it was. *)
Lemma edited_section sdpObj codecName sdpObj' :
  edit sdpObj codecName = Edited sdpObj' ->
  exists videoMedia videoMedia' fb' words',
    let removed := payloads_of codecName videoMedia in
    List.find is_video (media sdpObj) = Some videoMedia
    /\ List.find is_video (media sdpObj') = Some videoMedia'
    /\ removed <> []
    /\ rtcpFb videoMedia' = Some fb'
    /\ payloads videoMedia' = PayloadsString words'
    /\ (forall cmap, In cmap (rtp videoMedia') ->
                     In cmap (rtp videoMedia)
                     /\ kept removed (payload cmap) = true)
    /\ (forall elem, In elem (fmtp videoMedia') ->
                     kept removed (attr_payload elem) = true)
    /\ (forall elem, In elem fb' ->
                     kept removed (attr_payload elem) = true)
    /\ (forall str, In str (split words') -> word_kept removed str = true).
Proof.
  intros H.
  destruct (edit_Edited _ _ _ H)
    as (v & v' & fb & words & Hf & Hf' & Hne & _ & _ & _ & _ & _
        & E1 & E2 & E3 & E4).
  exists v, v'. do 2 eexists. simpl.
  split; [exact Hf|]. split; [exact Hf'|]. split; [exact Hne|].
  split; [exact E3|]. split; [exact E4|]. split; [|split; [|split]].
  - intros cmap Hin. rewrite E1 in Hin.
    apply List.filter_In in Hin. exact Hin.
  - intros elem Hin. rewrite E2 in Hin.
    apply List.filter_In in Hin as [_ Hk]. exact Hk.
  - intros elem Hin. apply List.filter_In in Hin as [_ Hk]. exact Hk.
  - intros str Hin.
    destruct (List.filter (word_kept (payloads_of codecName v))
                (split words)) as [|w l] eqn:El.
    + simpl in Hin. destruct Hin as [<-|[]].
      unfold word_kept. apply forallb_forall. intros q _. reflexivity.
    + rewrite split_join in Hin;
        [|discriminate
         |rewrite <- El; apply filter_spaceless, split_spaceless].
      rewrite <- El in Hin. apply List.filter_In in Hin as [_ Hk].
      exact Hk.
Qed.

Lemma edited_has_no_codec sdpObj codecName sdpObj' :
  edit sdpObj codecName = Edited sdpObj' ->
  offers_codec codecName sdpObj' = false.
Proof.
  intros H.
  destruct (edited_section _ _ _ H)
    as (v & v' & fb' & words' & _ & Hf' & _ & _ & _ & H1 & _).
  unfold offers_codec. rewrite Hf'.
  destruct (existsb _ (rtp v')) eqn:Ex; [|reflexivity].
  apply existsb_exists in Ex as (cmap & Hin & Hc).
  destruct (H1 _ Hin) as [Hin' Hk].
  rewrite kept_spec in Hk.
  specialize (Hk _ (codec_payload _ _ _ Hin' Hc)).
  rewrite payload_differs_refl in Hk. discriminate.
Qed.

(** After [sdpRemoveCodec] has edited the offer, the video section has
    no [rtpmap] of the codec, and nothing in it refers to a payload type
    of the codec: [!=] tells the payload type of every [rtpmap], [fmtp]
    and [rtcp-fb] entry, and the number [parseInt] reads in every word
    of the payload list, from every payload type the codec had. *)
Theorem sdpRemoveCodec_removes_the_codec sdpObj codecName sdpObj' :
  edit sdpObj codecName = Edited sdpObj' ->
  offers_codec codecName sdpObj' = false
  /\ exists videoMedia videoMedia' fb' words',
       List.find is_video (media sdpObj) = Some videoMedia
       /\ List.find is_video (media sdpObj') = Some videoMedia'
       /\ payloads_of codecName videoMedia <> []
       /\ rtcpFb videoMedia' = Some fb'
       /\ payloads videoMedia' = PayloadsString words'
       /\ forall p,
            In p (payloads_of codecName videoMedia) ->
            (forall cmap,
                In cmap (rtp videoMedia') ->
                payload_differs (payload cmap) p = true
                /\ payload cmap <> p)
            /\ (forall elem,
                   In elem (fmtp videoMedia') ->
                   payload_differs (attr_payload elem) p = true
                   /\ attr_payload elem <> p)
            /\ (forall elem,
                   In elem fb' ->
                   payload_differs (attr_payload elem) p = true
                   /\ attr_payload elem <> p)
            /\ (forall str,
                   In str (split words') ->
                   differs (parseInt str) p = true).
Proof.
  intros H. split; [exact (edited_has_no_codec _ _ _ H)|].
  destruct (edited_section _ _ _ H)
    as (v & v' & fb' & words' & Hf & Hf' & Hne & Hfb & Hw
        & H1 & H2 & H3 & H4).
  exists v, v', fb', words'. split; [exact Hf|]. split; [exact Hf'|].
  split; [exact Hne|]. split; [exact Hfb|]. split; [exact Hw|].
  intros p Hp.
  assert (forall x, kept (payloads_of codecName v) x = true ->
                    payload_differs x p = true /\ x <> p) as Hk.
  { intros x Hx. rewrite kept_spec in Hx. specialize (Hx _ Hp).
    split; [exact Hx|apply payload_differs_neq; exact Hx]. }
  split; [|split; [|split]].
  - intros cmap Hin. apply Hk. apply (H1 _ Hin).
  - intros elem Hin. apply Hk. apply (H2 _ Hin).
  - intros elem Hin. apply Hk. apply (H3 _ Hin).
  - intros str Hin. specialize (H4 _ Hin). unfold word_kept in H4.
    rewrite forallb_forall in H4. apply H4. exact Hp.
Qed.

Lemma sdpRemoveCodec_removes_the_codec_witness :
  exists sdpObj',
    edit offer "H264" = Edited sdpObj'
    /\ offers_codec "H264" sdpObj' = false.
Proof.
  eexists. split; [vm_compute; reflexivity|].
  refine (proj1 (sdpRemoveCodec_removes_the_codec offer "H264" _ _)).
  vm_compute. reflexivity.
Defined.

(** Editing twice is editing once: on an offer that it has edited,
    [sdpRemoveCodec] finds nothing to do and returns its argument. *)
Theorem sdpRemoveCodec_twice sdpObj codecName sdpObj' :
  edit sdpObj codecName = Edited sdpObj' ->
  edit sdpObj' codecName = Untouched.
Proof.
  intros H. pose proof (edited_has_no_codec _ _ _ H) as Hno.
  destruct (edited_section _ _ _ H) as (_ & v' & _ & _ & _ & Hf' & _).
  unfold offers_codec in Hno. unfold edit. rewrite Hf' in *.
  destruct (List.filter _ (rtp v')) as [|cmap cs] eqn:Hc; [reflexivity|].
  assert (In cmap (cmap :: cs)) as Hin by (left; reflexivity).
  rewrite <- Hc in Hin. apply List.filter_In in Hin as [Hin Hcodec].
  assert (existsb (is_codec codecName) (rtp v') = true) as Ex
    by (apply existsb_exists; eauto).
  congruence.
Qed.

Lemma sdpRemoveCodec_twice_witness :
  exists sdpObj',
    edit offer "VP8" = Edited sdpObj' /\ edit sdpObj' "VP8" = Untouched.
Proof.
  eexists. split; [vm_compute; reflexivity|].
  refine (sdpRemoveCodec_twice offer "VP8" _ _).
  vm_compute. reflexivity.
Defined.

(** *** The offer that is sent *)




(** A video section with one payload type: its payload list is a
    number, the loop throws and nothing is sent. *)
Lemma single_payload_type (write : SdpObj -> string) :
  offered (fun _ => mkSdpObj [single_video] "v=0") write "H264" "v=0" = None.
Proof. reflexivity. Qed.

End ClientFacts.
